(** * Filecoin claims importer: the ingestion pipeline

    A shallow embedding of the claims importer (the second [main.go] of the
    repository): the lenient JSON decoders, the active-provider filter, the
    existing-key index, the batched conditional upsert and the single run
    [runFromTodayDumpOnce], followed by the properties of the pipeline.

    Conventions.
    - Go integers are [Z]; the conversions between [uint64] and [int64] are
      written out ([to_int64], [to_uint64]).
    - Go maps used as sets or dictionaries are stdpp's [gset] and [gmap].
    - A Go [(value, error)] pair is a [result].
    - The file system, the chain node, the store server and the wall clock
      are the environment [Env] of a run; what a run does to the outside is
      recorded in the [World] it threads (store contents, deleted file, and
      a trace of the calls it made). *)

From Stdlib Require Import ZArith Ascii String List Lia Bool.
From stdpp Require Import base option list gmap strings.

#[local] Set Warnings "-register-all".

Local Open Scope string_scope.
Local Open Scope list_scope.
Local Open Scope Z_scope.

(** ** Errors and results *)

Inductive error : Type :=
| ErrSyntax                      (* strconv.ErrSyntax *)
| ErrRange                       (* strconv.ErrRange *)
| SyntaxError                    (* encoding/json: malformed document *)
| UnmarshalTypeError             (* encoding/json: value does not fit the Go type *)
| UnsupportedCID                 (* "unsupported CID JSON format: ..." *)
| ErrNotExist                    (* os.IsNotExist *)
| ErrIO                          (* any other file-system error *)
| ErrRPC                         (* a failed call to the chain node *)
| ErrNotID                       (* address.IDFromAddress on a non-ID address *)
| ErrDB                          (* a failed call to the store *)
| Wrapped (ctx : string) (e : error).   (* fmt.Errorf("ctx: %w", e) *)

Inductive result (A : Type) : Type :=
| Ok (a : A)
| Err (e : error).
Arguments Ok {A} a.
Arguments Err {A} e.

Definition is_ok {A} (r : result A) : bool :=
  match r with Ok _ => true | Err _ => false end.

(** ** Machine integers *)

Definition maxUint64 : Z := 2 ^ 64 - 1.
Definition maxInt64 : Z := 2 ^ 63 - 1.

(** [uint64(x)] for an [int64] x. *)
Definition to_uint64 (x : Z) : Z := x mod 2 ^ 64.

(** [int64(x)] for a [uint64] x. *)
Definition to_int64 (x : Z) : Z := (x + 2 ^ 63) mod 2 ^ 64 - 2 ^ 63.

(** ** strconv: decimal formatting and parsing *)

Definition digit_byte (d : Z) : ascii := ascii_of_nat (48 + Z.to_nat d).

Definition is_digit (c : ascii) : bool :=
  (48 <=? nat_of_ascii c)%nat && (nat_of_ascii c <=? 57)%nat.

Definition digit_val (c : ascii) : Z := Z.of_nat (nat_of_ascii c) - 48.

(** strconv.formatBits in base 10: digits are produced from the least
    significant one into a buffer filled from its end.  The buffer holds
    20 digits, enough for every [uint64]. *)
Fixpoint formatBits (fuel : nat) (u : Z) (buf : string) : string :=
  match fuel with
  | O => buf
  | S fuel' =>
      if u <? 10 then String (digit_byte u) buf
      else formatBits fuel' (u / 10) (String (digit_byte (u mod 10)) buf)
  end.

(** [%d] of a [uint64]. *)
Definition FormatUint (u : Z) : string := formatBits 20 u "".

(** [%d] of an [int64]. *)
Definition FormatInt (i : Z) : string :=
  if i <? 0 then String "-" (FormatUint (- i)) else FormatUint i.

(** The digit loop of strconv.ParseUint(s, 10, 64). *)
Definition cutoff10 : Z := maxUint64 / 10 + 1.

Fixpoint parse_digits (s : string) (n : Z) : result Z :=
  match s with
  | EmptyString => Ok n
  | String c s' =>
      if is_digit c then
        let d := digit_val c in
        if cutoff10 <=? n then Err ErrRange
        else
          let n10 := n * 10 in
          let n1 := (n10 + d) mod 2 ^ 64 in
          if (n1 <? n10) || (maxUint64 <? n1) then Err ErrRange
          else parse_digits s' n1
      else Err ErrSyntax
  end.

(** strconv.ParseUint(s, 10, 64) *)
Definition ParseUint (s : string) : result Z :=
  match s with
  | EmptyString => Err ErrSyntax
  | _ => parse_digits s 0
  end.

(** strconv.ParseInt(s, 10, 64) *)
Definition ParseInt (s : string) : result Z :=
  match s with
  | EmptyString => Err ErrSyntax
  | String c rest =>
      let neg := Ascii.eqb c "-" in
      let body := if Ascii.eqb c "+" || neg then rest else s in
      match ParseUint body with
      | Err ErrRange => Err ErrRange
      | Err e => Err e
      | Ok un =>
          let cutoff := 2 ^ 63 in
          if negb neg && (cutoff <=? un) then Err ErrRange
          else if neg && (cutoff <? un) then Err ErrRange
          else Ok (if neg then - un else un)
      end
  end.

(** ** encoding/json values

    The decoders below receive the raw bytes of one JSON value.  A value is
    kept as its syntax tree; a number keeps its literal text, since Go
    converts it with strconv only when it is stored into a Go integer. *)

Inductive json : Type :=
| JNull
| JBool (b : bool)
| JNumber (lit : string)
| JString (s : string)
| JArray (items : list json)
| JObject (members : list (string * json)).

(** The JSON number grammar: an optional minus sign; then a single zero, or
    a nonzero digit followed by digits; then optionally a dot and at least
    one digit; then optionally an exponent: e or E, an optional sign and at
    least one digit. *)
Fixpoint skip_digits (s : string) : string :=
  match s with
  | String c s' => if is_digit c then skip_digits s' else s
  | EmptyString => s
  end.

Definition starts_with_digit (s : string) : bool :=
  match s with String c _ => is_digit c | EmptyString => false end.

Definition valid_exponent (s : string) : bool :=
  match s with
  | EmptyString => true
  | String c s' =>
      if Ascii.eqb c "e" || Ascii.eqb c "E" then
        let s'' := match s' with
                   | String c' r => if Ascii.eqb c' "+" || Ascii.eqb c' "-" then r else s'
                   | EmptyString => s'
                   end in
        starts_with_digit s'' && String.eqb (skip_digits s'') ""
      else false
  end.

Definition valid_fraction (s : string) : bool :=
  match s with
  | String c s' =>
      if Ascii.eqb c "." then starts_with_digit s' && valid_exponent (skip_digits s')
      else valid_exponent s
  | EmptyString => true
  end.

Definition isValidNumber (s : string) : bool :=
  let s := match s with
           | String c s' => if Ascii.eqb c "-" then s' else s
           | EmptyString => s
           end in
  match s with
  | EmptyString => false
  | String c s' =>
      if Ascii.eqb c "0" then valid_fraction s'
      else if is_digit c then valid_fraction (skip_digits s')
      else false
  end.

(** The first byte of the raw value is a double quote exactly when the
    value is a string. *)
Definition starts_with_quote (b : json) : bool :=
  match b with JString _ => true | _ => false end.

(** json.Unmarshal(b, &s) for [s string] *)
Definition json_Unmarshal_string (b : json) : result string :=
  match b with
  | JString s => Ok s
  | JNull => Ok ""
  | JNumber lit => if isValidNumber lit then Err UnmarshalTypeError else Err SyntaxError
  | _ => Err UnmarshalTypeError
  end.

(** json.Unmarshal(b, &x) for [x uint64]; null leaves x at zero. *)
Definition json_Unmarshal_uint64 (b : json) : result Z :=
  match b with
  | JNull => Ok 0
  | JNumber lit =>
      if isValidNumber lit then
        match ParseUint lit with
        | Ok n => Ok n
        | Err _ => Err UnmarshalTypeError
        end
      else Err SyntaxError
  | _ => Err UnmarshalTypeError
  end.

(** json.Unmarshal(b, &x) for [x int64] *)
Definition json_Unmarshal_int64 (b : json) : result Z :=
  match b with
  | JNull => Ok 0
  | JNumber lit =>
      if isValidNumber lit then
        match ParseInt lit with
        | Ok n => Ok n
        | Err _ => Err UnmarshalTypeError
        end
      else Err SyntaxError
  | _ => Err UnmarshalTypeError
  end.

(** json.Unmarshal(b, &m) for [m map[string]any]: a later duplicate of a
    key replaces the earlier one; null leaves the map nil. *)
Definition json_Unmarshal_map (b : json) : result (gmap string json) :=
  match b with
  | JObject members => Ok (foldl (fun m kv => <[kv.1 := kv.2]> m) ∅ members)
  | JNull => Ok ∅
  | JNumber lit => if isValidNumber lit then Err UnmarshalTypeError else Err SyntaxError
  | _ => Err UnmarshalTypeError
  end.

(** ** Lenient JSON helpers *)

(** cidOrObj.UnmarshalJSON *)
Definition cidOrObj_UnmarshalJSON (b : json) : result string :=
  if starts_with_quote b then
    match json_Unmarshal_string b with
    | Err e => Err e
    | Ok s => Ok s
    end
  else
    match json_Unmarshal_map b with
    | Err e => Err e
    | Ok m =>
        match m !! "/" with
        | Some (JString s) => Ok s
        | _ => Err UnsupportedCID
        end
    end.

(** u64OrStr.UnmarshalJSON *)
Definition u64OrStr_UnmarshalJSON (b : json) : result Z :=
  if negb (starts_with_quote b) then
    match json_Unmarshal_uint64 b with
    | Err e => Err e
    | Ok x => Ok x
    end
  else
    match json_Unmarshal_string b with
    | Err e => Err e
    | Ok s =>
        match ParseUint s with
        | Err e => Err e
        | Ok x => Ok x
        end
    end.

(** i64OrStr.UnmarshalJSON *)
Definition i64OrStr_UnmarshalJSON (b : json) : result Z :=
  if negb (starts_with_quote b) then
    match json_Unmarshal_int64 b with
    | Err e => Err e
    | Ok x => Ok x
    end
  else
    match json_Unmarshal_string b with
    | Err e => Err e
    | Ok s =>
        match ParseInt s with
        | Err e => Err e
        | Ok x => Ok x
        end
    end.

(** ** Dump file: claim records and their decoding *)

Module filecoinClaim.
Record t : Type := mk {
  Provider : Z;      (* u64OrStr *)
  Client : Z;        (* u64OrStr *)
  Data : string;     (* cidOrObj *)
  Size : Z;          (* i64OrStr *)
  TermMin : Z;       (* i64OrStr *)
  TermMax : Z;       (* i64OrStr *)
  TermStart : Z;     (* i64OrStr *)
  Sector : Z         (* u64OrStr *)
}.
Definition zero : t := mk 0 0 "" 0 0 0 0 0.
End filecoinClaim.

Record rpcAllClaims : Type := {
  JSONRPC : string;
  Result : gmap string filecoinClaim.t;
  ID : option json
}.

(** encoding/json matches an object key with a struct field by its tag,
    exactly or ignoring case.  The folding is modelled on ASCII letters. *)
Definition lower_byte (c : ascii) : ascii :=
  let n := nat_of_ascii c in
  if (65 <=? n)%nat && (n <=? 90)%nat then ascii_of_nat (n + 32) else c.

Fixpoint lower (s : string) : string :=
  match s with
  | EmptyString => EmptyString
  | String c s' => String (lower_byte c) (lower s')
  end.

Definition EqualFold (a b : string) : bool := String.eqb (lower a) (lower b).

(** Decoding one member of a claim object into the struct. *)
Definition decode_claim_member (c : filecoinClaim.t) (kv : string * json)
  : result filecoinClaim.t :=
  let (k, v) := kv in
  let u64 (set : Z -> filecoinClaim.t) :=
    match u64OrStr_UnmarshalJSON v with Ok x => Ok (set x) | Err e => Err e end in
  let i64 (set : Z -> filecoinClaim.t) :=
    match i64OrStr_UnmarshalJSON v with Ok x => Ok (set x) | Err e => Err e end in
  let 'filecoinClaim.mk p cl d sz tmin tmax ts sec := c in
  if EqualFold k "Provider" then u64 (fun x => filecoinClaim.mk x cl d sz tmin tmax ts sec)
  else if EqualFold k "Client" then u64 (fun x => filecoinClaim.mk p x d sz tmin tmax ts sec)
  else if EqualFold k "Data" then
    match cidOrObj_UnmarshalJSON v with
    | Ok x => Ok (filecoinClaim.mk p cl x sz tmin tmax ts sec)
    | Err e => Err e
    end
  else if EqualFold k "Size" then i64 (fun x => filecoinClaim.mk p cl d x tmin tmax ts sec)
  else if EqualFold k "TermMin" then i64 (fun x => filecoinClaim.mk p cl d sz x tmax ts sec)
  else if EqualFold k "TermMax" then i64 (fun x => filecoinClaim.mk p cl d sz tmin x ts sec)
  else if EqualFold k "TermStart" then i64 (fun x => filecoinClaim.mk p cl d sz tmin tmax x sec)
  else if EqualFold k "Sector" then u64 (fun x => filecoinClaim.mk p cl d sz tmin tmax ts x)
  else Ok c.

Fixpoint decode_members {S : Type} (step : S -> string * json -> result S)
    (s : S) (members : list (string * json)) : result S :=
  match members with
  | [] => Ok s
  | kv :: rest =>
      match step s kv with
      | Err e => Err e
      | Ok s' => decode_members step s' rest
      end
  end.

(** Decoding a JSON value into a [filecoinClaim]. *)
Definition decode_filecoinClaim (v : json) : result filecoinClaim.t :=
  match v with
  | JObject members => decode_members decode_claim_member filecoinClaim.zero members
  | JNull => Ok filecoinClaim.zero
  | JNumber lit => if isValidNumber lit then Err UnmarshalTypeError else Err SyntaxError
  | _ => Err UnmarshalTypeError
  end.

(** Decoding the [result] member: each entry is stored under its key, a
    later duplicate of a key replacing the earlier one. *)
Definition decode_result_entry (m : gmap string filecoinClaim.t) (kv : string * json)
  : result (gmap string filecoinClaim.t) :=
  match decode_filecoinClaim kv.2 with
  | Err e => Err e
  | Ok c => Ok (<[kv.1 := c]> m)
  end.

Definition decode_rpc_member (r : rpcAllClaims) (kv : string * json) : result rpcAllClaims :=
  let (k, v) := kv in
  if EqualFold k "jsonrpc" then
    match v with
    | JNull => Ok r
    | _ =>
        match json_Unmarshal_string v with
        | Err e => Err e
        | Ok s => Ok {| JSONRPC := s; Result := Result r; ID := ID r |}
        end
    end
  else if EqualFold k "result" then
    match v with
    | JObject entries =>
        match decode_members decode_result_entry (Result r) entries with
        | Err e => Err e
        | Ok m => Ok {| JSONRPC := JSONRPC r; Result := m; ID := ID r |}
        end
    | JNull => Ok {| JSONRPC := JSONRPC r; Result := ∅; ID := ID r |}
    | JNumber lit => if isValidNumber lit then Err UnmarshalTypeError else Err SyntaxError
    | _ => Err UnmarshalTypeError
    end
  else if EqualFold k "id" then
    Ok {| JSONRPC := JSONRPC r; Result := Result r; ID := Some v |}
  else Ok r.

(** [json.NewDecoder(f).Decode(&rpc)]: the file content is [None] when it is
    not a JSON document at all. *)
Definition Decode_rpcAllClaims (content : option json) : result rpcAllClaims :=
  let zero := {| JSONRPC := ""; Result := ∅; ID := None |} in
  match content with
  | None => Err SyntaxError
  | Some (JObject members) => decode_members decode_rpc_member zero members
  | Some JNull => Ok zero
  | Some (JNumber lit) => if isValidNumber lit then Err UnmarshalTypeError else Err SyntaxError
  | Some _ => Err UnmarshalTypeError
  end.

(** ** Mongo document schema *)

Record DBClaim : Type := {
  ClaimID : Z;
  ProviderID : Z;
  ClientID : Z;
  ClientAddr : string;
  DataCID : string;
  Size : Z;
  TermMin : Z;
  TermMax : Z;
  TermStart : Z;
  Sector : Z;
  MinerAddr : string;
  UpdatedAt : Z;                  (* time.Time, as an instant *)
  Meta : gmap string json
}.

Definition with_UpdatedAt (now : Z) (c : DBClaim) : DBClaim :=
  {| ClaimID := ClaimID c; ProviderID := ProviderID c; ClientID := ClientID c;
     ClientAddr := ClientAddr c; DataCID := DataCID c; Size := Size c;
     TermMin := TermMin c; TermMax := TermMax c; TermStart := TermStart c;
     Sector := Sector c; MinerAddr := MinerAddr c; UpdatedAt := now;
     Meta := Meta c |}.

(** ** Utilities *)

(** [fmt.Sprintf("%d|%s|%d|%d", providerID, dataCID, sector, termStart)] *)
Definition claimKey (providerID : Z) (dataCID : string) (sector : Z) (termStart : Z) : string :=
  FormatInt providerID +:+ "|" +:+ dataCID +:+ "|" +:+ FormatUint sector +:+ "|"
    +:+ FormatInt termStart.

Definition key_of (c : DBClaim) : string :=
  claimKey (ProviderID c) (DataCID c) (Sector c) (TermStart c).

(** ** The chain node *)

Inductive Address : Type :=
| IDAddress (id : Z)
| KeyAddress (payload : string).

Definition IDFromAddress (a : Address) : result Z :=
  match a with
  | IDAddress id => Ok id
  | KeyAddress _ => Err ErrNotID
  end.

Record Claim : Type := { RawBytePower : Z; QualityAdjPower : Z }.

Module MinerPower.
Record t : Type := {
  MinerPower : Claim;
  TotalPower : Claim;
  HasMinPower : bool
}.
End MinerPower.

Definition TipSetKey : Type := list string.

Record TipSet : Type := { Key : TipSetKey; Height : Z }.

(** The four calls of [v1api.FullNode] that the importer makes. *)
Record FullNode : Type := {
  ChainHead : result TipSet;
  StateListMiners : TipSetKey -> result (list Address);
  StateMinerPower : Address -> TipSetKey -> result (option MinerPower.t);
  StateLookupID : Address -> TipSetKey -> result Address
}.

Definition hasNonZeroPower (p : option MinerPower.t) : bool :=
  match p with
  | None => false
  | Some p =>
      (0 <? RawBytePower (MinerPower.MinerPower p))
      || (0 <? QualityAdjPower (MinerPower.MinerPower p))
  end.

(** One iteration of the loop over the miners in [loadActiveProviders]. *)
Definition active_step (api : FullNode) (tsk : TipSetKey) (active : gset Z) (m : Address)
  : gset Z :=
  match StateMinerPower api m tsk with
  | Err _ => active
  | Ok mp =>
      if negb (hasNonZeroPower mp) then active
      else
        match StateLookupID api m tsk with
        | Err _ => active
        | Ok idAddr =>
            match IDFromAddress idAddr with
            | Err _ => active
            | Ok id => {[ id ]} ∪ active
            end
        end
  end.

Definition loadActiveProviders (api : FullNode) : result (gset Z) :=
  match ChainHead api with
  | Err e => Err (Wrapped "ChainHead" e)
  | Ok head =>
      let tsk := Key head in
      match StateListMiners api tsk with
      | Err e => Err (Wrapped "StateListMiners" e)
      | Ok miners => Ok (foldl (active_step api tsk) ∅ miners)
      end
  end.

(** ** The store: one collection and its bulk write

    A collection is the list of its documents.  The importer submits
    [UpdateOne] models only; the server's handling of such a model is written
    out for both update operators, so that the insert-only behaviour of the
    importer is a property of the models it builds. *)

Record ClaimFilter : Type := {
  f_provider_id : Z;
  f_data_cid : string;
  f_sector : Z;
  f_term_start : Z
}.

Definition matches (f : ClaimFilter) (d : DBClaim) : bool :=
  (ProviderID d =? f_provider_id f) && String.eqb (DataCID d) (f_data_cid f)
  && (Sector d =? f_sector f) && (TermStart d =? f_term_start f).

Inductive UpdateDoc : Type :=
| SetOnInsert (c : DBClaim)       (* {"$setOnInsert": c} *)
| SetFields (c : DBClaim).        (* {"$set": c} *)

Record UpdateOneModel : Type := {
  Filter : ClaimFilter;
  Update : UpdateDoc;
  Upsert : bool
}.

Record BulkWriteResult : Type := {
  MatchedCount : Z;
  ModifiedCount : Z;
  UpsertedCount : Z
}.

Definition update_payload (u : UpdateDoc) : DBClaim :=
  match u with SetOnInsert c => c | SetFields c => c end.

(** The first document matching the filter is the one an [UpdateOne] acts
    on: [$set] rewrites it, [$setOnInsert] leaves it as it is. *)
Fixpoint update_first (f : ClaimFilter) (u : UpdateDoc) (coll : list DBClaim)
  : option (list DBClaim * bool) :=
  match coll with
  | [] => None
  | d :: rest =>
      if matches f d then
        match u with
        | SetOnInsert _ => Some (d :: rest, false)
        | SetFields c => Some (c :: rest, true)
        end
      else
        match update_first f u rest with
        | Some (rest', modified) => Some (d :: rest', modified)
        | None => None
        end
  end.

(** The server executing one model: the new collection and the counts this
    model contributes. *)
Definition exec_model (m : UpdateOneModel) (coll : list DBClaim)
  : list DBClaim * BulkWriteResult :=
  match update_first (Filter m) (Update m) coll with
  | Some (coll', modified) =>
      (coll', {| MatchedCount := 1; ModifiedCount := if modified then 1 else 0;
                 UpsertedCount := 0 |})
  | None =>
      if Upsert m then
        (coll ++ [update_payload (Update m)],
         {| MatchedCount := 0; ModifiedCount := 0; UpsertedCount := 1 |})
      else (coll, {| MatchedCount := 0; ModifiedCount := 0; UpsertedCount := 0 |})
  end.

Definition add_counts (a b : BulkWriteResult) : BulkWriteResult :=
  {| MatchedCount := MatchedCount a + MatchedCount b;
     ModifiedCount := ModifiedCount a + ModifiedCount b;
     UpsertedCount := UpsertedCount a + UpsertedCount b |}.

Definition no_counts : BulkWriteResult :=
  {| MatchedCount := 0; ModifiedCount := 0; UpsertedCount := 0 |}.

(** What can go wrong with one operation of an unordered bulk write: the
    server rejects it (it is not applied, and the call reports an error), or
    it is applied but its acknowledgement is lost (it is not counted, and the
    call reports an error). *)
Inductive OpFate : Type := Acknowledged | Rejected | Unacknowledged.

(** The fate of one [BulkWrite] call: refused before anything is sent (no
    result at all), or the fate of each of its operations by position. *)
Record BulkFault : Type := {
  refused : bool;
  fate : nat -> OpFate
}.

Definition no_fault : BulkFault := {| refused := false; fate := fun _ => Acknowledged |}.

Fixpoint bulk_exec (fate : nat -> OpFate) (i : nat) (models : list UpdateOneModel)
    (coll : list DBClaim) (res : BulkWriteResult) (failed : bool)
  : list DBClaim * BulkWriteResult * bool :=
  match models with
  | [] => (coll, res, failed)
  | m :: rest =>
      match fate i with
      | Acknowledged =>
          let (coll', r) := exec_model m coll in
          bulk_exec fate (S i) rest coll' (add_counts res r) failed
      | Rejected => bulk_exec fate (S i) rest coll res true
      | Unacknowledged =>
          let (coll', _) := exec_model m coll in
          bulk_exec fate (S i) rest coll' res true
      end
  end.

(** [coll.BulkWrite(ctx, models, options.BulkWrite().SetOrdered(false))]:
    the collection afterwards, the result (nil when the call was refused)
    and the error. *)
Definition BulkWrite (flt : BulkFault) (models : list UpdateOneModel) (coll : list DBClaim)
  : list DBClaim * option BulkWriteResult * option error :=
  if refused flt then (coll, None, Some ErrDB)
  else
    let '(coll', res, failed) := bulk_exec (fate flt) 0 models coll no_counts false in
    (coll', Some res, if failed then Some ErrDB else None).

(** The key projection read back by [loadAllClaimKeysFromDB]. *)
Record kdoc : Type := {
  k_ProviderID : Z;
  k_DataCID : string;
  k_Sector : Z;
  k_TermStart : Z
}.

Definition project_key (d : DBClaim) : kdoc :=
  {| k_ProviderID := ProviderID d; k_DataCID := DataCID d;
     k_Sector := Sector d; k_TermStart := TermStart d |}.

(** What can go wrong with the scan of the collection. *)
Inductive FindFault : Type :=
| FindOk
| FindFails (e : error)                 (* coll.Find returns an error *)
| DecodeFails (n : nat) (e : error)     (* the n-th document does not decode *)
| CursorFails (n : nat) (e : error).    (* the cursor breaks after n documents *)

Record Cursor : Type := {
  cur_docs : list (result kdoc);        (* cur.Next / cur.Decode, in turn *)
  cur_Err : option error                (* cur.Err() once Next returns false *)
}.

Definition Find (flt : FindFault) (coll : list DBClaim) : result Cursor :=
  let docs := map (fun d => Ok (project_key d)) coll in
  match flt with
  | FindOk => Ok {| cur_docs := docs; cur_Err := None |}
  | FindFails e => Err e
  | DecodeFails n e => Ok {| cur_docs := take n docs ++ [Err e]; cur_Err := None |}
  | CursorFails n e => Ok {| cur_docs := take n docs; cur_Err := Some e |}
  end.

(** ** The environment of a run and the world it changes *)

Inductive StatResult : Type :=
| StatOk (size : Z)
| StatErr (e : error).

Record Env : Type := {
  fs_stat : nat -> StatResult;   (* os.Stat of the dump path after n sleeps *)
  fs_content : option json;      (* what the dump file holds when it is read *)
  fs_remove : option error;      (* the outcome of os.Remove on the dump path *)
  api : FullNode;
  db_find : FindFault;
  db_bulk : nat -> BulkFault;    (* the fate of the n-th BulkWrite call *)
  clock : nat -> Z               (* the n-th reading of time.Now() *)
}.

Inductive LogLevel : Type := Info | Warn.

Inductive Event : Type :=
| EvStat (r : StatResult)
| EvSleep
| EvOpen                         (* os.Open on the dump path *)
| EvDecode                       (* the JSON decoder read the dump file *)
| EvFind                         (* a query scanned the collection *)
| EvBulkWrite (models : list UpdateOneModel) (res : option BulkWriteResult)
              (err : option error)
| EvRemove (err : option error)
| EvLog (level : LogLevel) (msg : string).

Record World : Type := {
  w_store : list DBClaim;        (* the claims collection *)
  w_removed : bool;              (* the dump file has been deleted *)
  w_sleeps : nat;
  w_bulks : nat;
  w_nows : nat;
  w_trace : list Event
}.

Definition boot (store : list DBClaim) : World :=
  {| w_store := store; w_removed := false; w_sleeps := 0; w_bulks := 0; w_nows := 0;
     w_trace := [] |}.

(** A computation reads and changes the world. *)
Definition M (A : Type) : Type := World -> A * World.

#[global] Instance M_ret : MRet M := fun A (a : A) (w : World) => (a, w).

#[global] Instance M_bind : MBind M :=
  fun A B (k : A -> M B) (m : M A) (w : World) => let (a, w') := m w in k a w'.

Definition push (ev : Event) (w : World) : World :=
  {| w_store := w_store w; w_removed := w_removed w; w_sleeps := w_sleeps w;
     w_bulks := w_bulks w; w_nows := w_nows w; w_trace := w_trace w ++ [ev] |}.

Definition emit (ev : Event) : M unit := fun w => (tt, push ev w).

Definition log_Infow (msg : string) : M unit := emit (EvLog Info msg).
Definition log_Warnw (msg : string) : M unit := emit (EvLog Warn msg).

(** ** The importer *)

Section Importer.

(** [fmt.Sscan(s, &x)] for [x int64]: the scanned integer, or [None] when
    the scan reports an error, in which case x is not assigned. *)
Variable Sscan_int64 : string -> option Z.

Variable env : Env.

(** *** Calls to the outside *)

Definition os_Stat : M StatResult := fun w =>
  let r := if w_removed w then StatErr ErrNotExist else fs_stat env (w_sleeps w) in
  (r, push (EvStat r) w).

Definition time_Sleep : M unit := fun w =>
  (tt, push EvSleep
         {| w_store := w_store w; w_removed := w_removed w; w_sleeps := S (w_sleeps w);
            w_bulks := w_bulks w; w_nows := w_nows w; w_trace := w_trace w |}).

Definition time_Now : M Z := fun w =>
  (clock env (w_nows w),
   {| w_store := w_store w; w_removed := w_removed w; w_sleeps := w_sleeps w;
      w_bulks := w_bulks w; w_nows := S (w_nows w); w_trace := w_trace w |}).

(** [os.Open]: the content that the decoder will read. *)
Definition os_Open : M (result (option json)) := fun w =>
  let r := if w_removed w then Err ErrNotExist
           else match fs_stat env (w_sleeps w) with
                | StatErr e => Err e
                | StatOk _ => Ok (fs_content env)
                end in
  (r, push EvOpen w).

Definition os_Remove : M (option error) := fun w =>
  (fs_remove env,
   push (EvRemove (fs_remove env))
     {| w_store := w_store w;
        w_removed := match fs_remove env with None => true | Some _ => w_removed w end;
        w_sleeps := w_sleeps w; w_bulks := w_bulks w; w_nows := w_nows w;
        w_trace := w_trace w |}).

Definition coll_Find : M (result Cursor) := fun w =>
  (Find (db_find env) (w_store w), push EvFind w).

Definition coll_BulkWrite (models : list UpdateOneModel)
  : M (option BulkWriteResult * option error) := fun w =>
  let '(coll', res, err) := BulkWrite (db_bulk env (w_bulks w)) models (w_store w) in
  ((res, err),
   push (EvBulkWrite models res err)
     {| w_store := coll'; w_removed := w_removed w; w_sleeps := w_sleeps w;
        w_bulks := S (w_bulks w); w_nows := w_nows w; w_trace := w_trace w |}).

(** *** Read all business unique keys from the store *)

Fixpoint scan_keys (docs : list (result kdoc)) (keys : gset string)
  : result (gset string) :=
  match docs with
  | [] => Ok keys
  | Err e :: _ => Err e
  | Ok d :: rest =>
      let k := claimKey (k_ProviderID d) (k_DataCID d) (k_Sector d) (k_TermStart d) in
      scan_keys rest ({[ k ]} ∪ keys)
  end.

Definition loadAllClaimKeysFromDB : M (result (gset string)) :=
  cur ← coll_Find;
  match cur with
  | Err e => mret (Err e)
  | Ok cur =>
      match scan_keys (cur_docs cur) ∅ with
      | Err e => mret (Err e)
      | Ok keys =>
          match cur_Err cur with
          | Some e => mret (Err e)
          | None => mret (Ok keys)
          end
      end
  end.

(** *** Parse the dump and filter by active providers *)

(** The body of the loop over [rpc.Result]. *)
Definition claim_of_entry (now : Z) (claimIDStr : string) (c : filecoinClaim.t) : DBClaim :=
  let claimID := match Sscan_int64 claimIDStr with Some x => x | None => 0 end in
  {| ClaimID := claimID;
     ProviderID := to_int64 (filecoinClaim.Provider c);
     ClientID := to_int64 (filecoinClaim.Client c);
     ClientAddr := "";
     DataCID := filecoinClaim.Data c;
     Size := filecoinClaim.Size c;
     TermMin := filecoinClaim.TermMin c;
     TermMax := filecoinClaim.TermMax c;
     TermStart := filecoinClaim.TermStart c;
     Sector := filecoinClaim.Sector c;
     MinerAddr := "f0" +:+ FormatUint (filecoinClaim.Provider c);
     UpdatedAt := now;
     Meta := ∅ |}.

Definition filter_step (active : gset Z) (now : Z) (out : list DBClaim)
    (entry : string * filecoinClaim.t) : list DBClaim :=
  let (claimIDStr, c) := entry in
  if decide (filecoinClaim.Provider c ∈ active) then out ++ [claim_of_entry now claimIDStr c]
  else out.

Definition loadClaimsFromFileFiltered (active : gset Z) : M (result (list DBClaim)) :=
  f ← os_Open;
  match f with
  | Err e => mret (Err e)
  | Ok content =>
      emit EvDecode;;
      match Decode_rpcAllClaims content with
      | Err e => mret (Err (Wrapped "decode" e))
      | Ok rpc =>
          now ← time_Now;
          mret (Ok (foldl (filter_step active now) [] (map_to_list (Result rpc))))
      end
  end.

(** *** Insert the set difference, in batches *)

Record DiffState : Type := {
  batch : list UpdateOneModel;
  inserted : Z;
  prepared : Z
}.

Definition flushBatch (s : DiffState) : M (DiffState * option error) :=
  if decide (length (batch s) = 0%nat) then mret (s, None)
  else
    '(res, err) ← coll_BulkWrite (batch s);
    match err with
    | Some _ => log_Warnw "BulkWrite returned error (partial success possible)"
    | None => mret tt
    end;;
    let inserted' := match res with
                     | Some r => inserted s + UpsertedCount r
                     | None => inserted s
                     end in
    mret ({| batch := []; inserted := inserted'; prepared := prepared s |}, None).

Definition upsert_model (c : DBClaim) : UpdateOneModel :=
  {| Filter := {| f_provider_id := ProviderID c; f_data_cid := DataCID c;
                  f_sector := Sector c; f_term_start := TermStart c |};
     Update := SetOnInsert c;
     Upsert := true |}.

Fixpoint diff_loop (existingKeys : gset string) (bulkSize : Z) (now : Z)
    (chainClaims : list DBClaim) (s : DiffState) : M (DiffState * option error) :=
  match chainClaims with
  | [] => mret (s, None)
  | c :: rest =>
      let k := claimKey (ProviderID c) (DataCID c) (Sector c) (TermStart c) in
      if decide (k ∈ existingKeys) then diff_loop existingKeys bulkSize now rest s
      else
        let c := with_UpdatedAt now c in
        let s := {| batch := batch s ++ [upsert_model c]; inserted := inserted s;
                    prepared := prepared s + 1 |} in
        if bulkSize <=? Z.of_nat (length (batch s)) then
          '(s, err) ← flushBatch s;
          match err with
          | Some e => mret (s, Some e)
          | None => diff_loop existingKeys bulkSize now rest s
          end
        else diff_loop existingKeys bulkSize now rest s
  end.

Definition insertDiffClaims (chainClaims : list DBClaim) (existingKeys : gset string)
    (bulkSize : Z) : M (Z * option error) :=
  if decide (length chainClaims = 0%nat) then mret (0, None)
  else
    let bulkSize := if bulkSize <=? 0 then 2000 else bulkSize in
    now ← time_Now;
    '(s, err) ← diff_loop existingKeys bulkSize now chainClaims
                  {| batch := []; inserted := 0; prepared := 0 |};
    match err with
    | Some e => mret (inserted s, Some e)
    | None =>
        '(s, err) ← flushBatch s;
        match err with
        | Some e => mret (inserted s, Some e)
        | None =>
            log_Infow "diff insert finished";;
            mret (inserted s, None)
        end
    end.

(** *** Single run *)

Definition stableCheckRetries : nat := 3.

(** The stability loop: [retries] iterations are left, [prevSize] is the
    size seen by the previous poll. *)
Fixpoint stability_loop (retries : nat) (prevSize : Z) : M (result bool) :=
  match retries with
  | O => mret (Ok false)
  | S retries' =>
      time_Sleep;;
      info2 ← os_Stat;
      match info2 with
      | StatErr e => mret (Err (Wrapped "stat dump file during stability check" e))
      | StatOk size2 =>
          if size2 =? prevSize then mret (Ok true)
          else
            log_Infow "dump file still growing, wait more...";;
            stability_loop retries' size2
      end
  end.

Definition IsNotExist (e : error) : bool :=
  match e with ErrNotExist => true | _ => false end.

Definition runFromTodayDumpOnce (bulkSize : Z) : M (option error) :=
  log_Infow "run start";;
  info ← os_Stat;
  match info with
  | StatErr e =>
      if IsNotExist e then
        log_Infow "dump file not found, skip this run (early return)";;
        mret None
      else mret (Some (Wrapped "stat dump file" e))
  | StatOk prevSize =>
      stable ← stability_loop stableCheckRetries prevSize;
      match stable with
      | Err e => mret (Some e)
      | Ok false =>
          log_Warnw "dump file not stable, skip this run";;
          mret None
      | Ok true =>
          log_Infow "using stable dump file";;
          match loadActiveProviders (api env) with
          | Err e => mret (Some (Wrapped "load active providers" e))
          | Ok active =>
              if decide (size active = 0%nat) then
                log_Warnw "no active providers found; nothing to do";;
                mret None
              else
                claimsList ← loadClaimsFromFileFiltered active;
                match claimsList with
                | Err e => mret (Some e)
                | Ok claimsList =>
                    log_Infow "claims loaded from file (filtered by active providers)";;
                    existingKeys ← loadAllClaimKeysFromDB;
                    match existingKeys with
                    | Err e => mret (Some (Wrapped "load db keys" e))
                    | Ok existingKeys =>
                        log_Infow "loaded db claim keys";;
                        '(added, err) ← insertDiffClaims claimsList existingKeys bulkSize;
                        match err with
                        | Some e => mret (Some e)
                        | None =>
                            rm ← os_Remove;
                            match rm with
                            | Some _ => log_Warnw "failed to remove dump file"
                            | None => log_Infow "dump file removed"
                            end;;
                            log_Infow "run end";;
                            mret None
                        end
                    end
                end
          end
      end
  end.

End Importer.

(** ** Vocabulary of the properties

    The definitions below are not code of the importer: they name what the
    properties of the importer talk about. *)

(** *** Decimal numerals *)

Fixpoint all_digits (s : string) : bool :=
  match s with
  | EmptyString => true
  | String c s' => is_digit c && all_digits s'
  end.

(** *** The diff and its bulk writes *)

(** The index that a scan of the collection builds. *)
Definition index_of (coll : list DBClaim) : gset string := list_to_set (map key_of coll).

Definition key_absent (existingKeys : gset string) (c : DBClaim) : bool :=
  bool_decide (key_of c ∉ existingKeys).

(** The models that a diff stages: one upsert per claim whose key is not in
    the index, in the order of the claims. *)
Definition staged (existingKeys : gset string) (now : Z) (claims : list DBClaim)
  : list UpdateOneModel :=
  map (fun c => upsert_model (with_UpdatedAt now c))
      (List.filter (key_absent existingKeys) claims).

(** One [BulkWrite] call as the trace records it: the models submitted, the
    result and the error. *)
Definition bulk_outcome : Type :=
  (list UpdateOneModel * option BulkWriteResult * option error)%type.

Definition models_of (o : bulk_outcome) : list UpdateOneModel := o.1.1.

(** What a bulk write contributes to the inserted count. *)
Definition credited (o : bulk_outcome) : Z :=
  match o.1.2 with Some r => UpsertedCount r | None => 0 end.

Definition sum_credited (outs : list bulk_outcome) : Z :=
  foldr Z.add 0 (map credited outs).

(** The events of one flush: the call, and a warning when it reported an
    error. *)
Definition flush_events (o : bulk_outcome) : list Event :=
  let '(models, res, err) := o in
  EvBulkWrite models res err ::
  match err with
  | Some _ => [EvLog Warn "BulkWrite returned error (partial success possible)"]
  | None => []
  end.

Definition finished_log : list Event := [EvLog Info "diff insert finished"].

Definition outcome_of (ev : Event) : option bulk_outcome :=
  match ev with EvBulkWrite m r e => Some (m, r, e) | _ => None end.

(** The bulk writes of a trace, and the models they submitted. *)
Definition bulk_outcomes (t : list Event) : list bulk_outcome := omap outcome_of t.

Definition written (t : list Event) : list UpdateOneModel :=
  concat (map models_of (bulk_outcomes t)).

(** The store applies every operation of the call: the call is not refused
    and no operation is rejected (an acknowledgement may still be lost). *)
Definition applies_all (flt : BulkFault) : Prop :=
  refused flt = false ∧ ∀ i, fate flt i ≠ Rejected.

(** No bulk write of the run is refused and none of its operations is
    rejected. *)
Definition writes_succeed (env : Env) : Prop := forall n, applies_all (db_bulk env n).

(** Some document of the collection matches the filter of the model. *)
Definition present (m : UpdateOneModel) (coll : list DBClaim) : bool :=
  existsb (matches (Filter m)) coll.

Definition upsert_shaped (m : UpdateOneModel) : Prop := ∃ c, m = upsert_model c.

(** [Extends ok coll coll' outs]: the bulk writes [outs] took the collection
    from [coll] to [coll'].  Documents were only added, each the payload of a
    submitted model and at least as many as were counted; and when the store
    applied all operations ([ok]), every submitted model finds its document
    in [coll']. *)
Definition Extends (ok : Prop) (coll coll' : list DBClaim) (outs : list bulk_outcome) : Prop :=
  (exists added,
      coll' = coll ++ added
      /\ 0 <= sum_credited outs <= Z.of_nat (length added)
      /\ (forall d, d ∈ added ->
            exists m, m ∈ concat (map models_of outs) /\ d = update_payload (Update m)))
  /\ (ok -> forall m, m ∈ concat (map models_of outs) -> present m coll' = true).

(** *** What a trace shows *)

Definition is_gate_event (ev : Event) : bool :=
  match ev with EvStat _ | EvSleep | EvLog _ _ => true | _ => false end.
Definition is_parse (ev : Event) : bool :=
  match ev with EvOpen | EvDecode => true | _ => false end.
Definition is_find (ev : Event) : bool :=
  match ev with EvFind => true | _ => false end.
Definition is_remove (ev : Event) : bool :=
  match ev with EvRemove _ => true | _ => false end.

(** The run opened the dump file; it scanned the collection; it asked for
    the dump file to be deleted. *)
Definition parsed (t : list Event) : bool := existsb is_parse t.
Definition scanned (t : list Event) : bool := existsb is_find t.
Definition cleaned (t : list Event) : bool := existsb is_remove t.

(** *** The polls of the dump file

    Poll 0 is the existence check of step 1; polls 1, 2 and 3 are those of
    the stability loop. *)

(** The size changed between poll j and poll j+1. *)
Definition changing (env : Env) (j : nat) : Prop :=
  exists a b, fs_stat env j = StatOk a /\ fs_stat env (S j) = StatOk b /\ b <> a.

(** Poll j and poll j+1 saw the same size. *)
Definition settled (env : Env) (j : nat) : Prop :=
  exists a, fs_stat env j = StatOk a /\ fs_stat env (S j) = StatOk a.

(** Within the retry budget two consecutive polls agree, all pairs before
    them having differed. *)
Definition dump_stable (env : Env) : Prop :=
  exists k, (k < stableCheckRetries)%nat /\ settled env k /\ forall j, (j < k)%nat -> changing env j.

Definition dump_never_stable (env : Env) : Prop :=
  forall j, (j < stableCheckRetries)%nat -> changing env j.

Definition dump_absent (env : Env) : Prop := fs_stat env 0 = StatErr ErrNotExist.

(** What the stability loop concludes from the polls after poll [last], and
    the number of the last poll it makes. *)
Fixpoint poll_verdict (env : Env) (retries : nat) (last : nat) (prevSize : Z)
  : result bool * nat :=
  match retries with
  | O => (Ok false, last)
  | S retries' =>
      match fs_stat env (S last) with
      | StatErr e => (Err (Wrapped "stat dump file during stability check" e), S last)
      | StatOk size2 =>
          if size2 =? prevSize then (Ok true, S last)
          else poll_verdict env retries' (S last) size2
      end
  end.

(** What the run returns when it stops before opening the dump file
    (steps 1 to 3); [None] when it goes on to step 4. *)
Definition early_exit (env : Env) : option (option error) :=
  match fs_stat env 0 with
  | StatErr e => Some (if IsNotExist e then None else Some (Wrapped "stat dump file" e))
  | StatOk prevSize =>
      match (poll_verdict env stableCheckRetries 0 prevSize).1 with
      | Err e => Some (Some e)
      | Ok false => Some None
      | Ok true =>
          match loadActiveProviders (api env) with
          | Err e => Some (Some (Wrapped "load active providers" e))
          | Ok active => if decide (size active = 0%nat) then Some None else None
          end
      end
  end.

(** *** Stages of a run *)

(** The claims that step 4 produces from a decoded dump. *)
Definition filtered (Sscan_int64 : string -> option Z) (active : gset Z) (now : Z)
    (rpc : rpcAllClaims) : list DBClaim :=
  foldl (filter_step Sscan_int64 active now) [] (map_to_list (Result rpc)).

(** The dump file can be opened in world [w]. *)
Definition readable (env : Env) (w : World) : Prop :=
  w_removed w = false /\ exists size, fs_stat env (w_sleeps w) = StatOk size.

(** A world that only the existence and stability checks have touched. *)
Definition untouched (store : list DBClaim) (w : World) : Prop :=
  w_store w = store /\ w_removed w = false /\ w_bulks w = 0%nat /\ w_nows w = 0%nat
  /\ forallb is_gate_event (w_trace w) = true.

(** A world in which the run has not gone past step 3. *)
Definition quiet (store : list DBClaim) (w : World) : Prop :=
  w_store w = store /\ w_removed w = false
  /\ bulk_outcomes (w_trace w) = [] /\ parsed (w_trace w) = false
  /\ scanned (w_trace w) = false /\ cleaned (w_trace w) = false.

(** A miner resolves to [id]: its power is known and not zero, and its
    address resolves to the ID address of [id]. *)
Definition resolves (api : FullNode) (tsk : TipSetKey) (m : Address) (id : Z) : Prop :=
  exists mp a,
    StateMinerPower api m tsk = Ok mp /\ hasNonZeroPower mp = true
    /\ StateLookupID api m tsk = Ok a /\ IDFromAddress a = Ok id.

Section RunStages.

Variable Sscan_int64 : string -> option Z.
Variable env : Env.

(** Steps 4 to 7 of [runFromTodayDumpOnce], for the active set of step 3. *)
Definition ingest (active : gset Z) (bulkSize : Z) : M (option error) :=
  claimsList ← loadClaimsFromFileFiltered Sscan_int64 env active;
  match claimsList with
  | Err e => mret (Some e)
  | Ok claimsList =>
      log_Infow "claims loaded from file (filtered by active providers)";;
      existingKeys ← loadAllClaimKeysFromDB env;
      match existingKeys with
      | Err e => mret (Some (Wrapped "load db keys" e))
      | Ok existingKeys =>
          log_Infow "loaded db claim keys";;
          '(added, err) ← insertDiffClaims env claimsList existingKeys bulkSize;
          match err with
          | Some e => mret (Some e)
          | None =>
              rm ← os_Remove env;
              match rm with
              | Some _ => log_Warnw "failed to remove dump file"
              | None => log_Infow "dump file removed"
              end;;
              log_Infow "run end";;
              mret None
          end
      end
  end.

(** Steps 3 to 7: what the run does once the dump file is stable. *)
Definition after_gate (bulkSize : Z) : M (option error) :=
  log_Infow "using stable dump file";;
  match loadActiveProviders (api env) with
  | Err e => mret (Some (Wrapped "load active providers" e))
  | Ok active =>
      if decide (size active = 0%nat) then
        log_Warnw "no active providers found; nothing to do";;
        mret None
      else ingest active bulkSize
  end.

End RunStages.

(** ** Sample data

    Concrete inputs on which the properties below are exercised. *)

(** A scanner that agrees with [fmt.Sscan] on the keys of the samples:
    a plain decimal numeral scans to its value, a key that does not start
    with a sign or a digit does not scan. *)
Definition sample_Sscan (s : string) : option Z :=
  match ParseInt s with Ok x => Some x | Err _ => None end.

Definition sample_record (provider : json) (cid : json) (sector : string) : json :=
  JObject [("Provider", provider); ("Client", JString "77"); ("Data", cid);
           ("Size", JNumber "1024"); ("TermMin", JNumber "1"); ("TermMax", JString "2");
           ("TermStart", JString "5"); ("Sector", JNumber sector)].

(** Three records: two of provider 1001 (one under a key that is no number)
    and one of provider 2002. *)
Definition sample_dump : json :=
  JObject [("jsonrpc", JString "2.0");
           ("result",
            JObject [("17", sample_record (JNumber "1001") (JString "bafyA") "9");
                     ("abc", sample_record (JString "1001")
                               (JObject [("/", JString "bafyB")]) "10");
                     ("18", sample_record (JNumber "2002") (JString "bafyC") "11")]);
           ("id", JNumber "1")].

Definition sample_power (raw : Z) : option MinerPower.t :=
  Some {| MinerPower.MinerPower := {| RawBytePower := raw; QualityAdjPower := 0 |};
          MinerPower.TotalPower := {| RawBytePower := 1000; QualityAdjPower := 1000 |};
          MinerPower.HasMinPower := true |}.

(** Four miners: the first has power and resolves to 1001; the power lookup
    of the second fails; the third has no power; the fourth has power but its
    address does not resolve. *)
Definition sample_node : FullNode :=
  {| ChainHead := Ok {| Key := ["head"]; Height := 100 |};
     StateListMiners := fun _ =>
       Ok [KeyAddress "a"; KeyAddress "b"; IDAddress 2002; KeyAddress "d"];
     StateMinerPower := fun m _ =>
       match m with
       | KeyAddress "a" => Ok (sample_power 5)
       | KeyAddress "d" => Ok (sample_power 7)
       | IDAddress _ => Ok (sample_power 0)
       | _ => Err ErrRPC
       end;
     StateLookupID := fun m _ =>
       match m with
       | KeyAddress "a" => Ok (IDAddress 1001)
       | IDAddress id => Ok (IDAddress id)
       | _ => Err ErrRPC
       end |}.

(** A node that is down. *)
Definition failing_node : FullNode :=
  {| ChainHead := Err ErrRPC;
     StateListMiners := fun _ => Err ErrRPC;
     StateMinerPower := fun _ _ => Err ErrRPC;
     StateLookupID := fun _ _ => Err ErrRPC |}.

(** A node whose miners all lack power. *)
Definition idle_node : FullNode :=
  {| ChainHead := Ok {| Key := ["head"]; Height := 100 |};
     StateListMiners := fun _ => Ok [IDAddress 2002];
     StateMinerPower := fun _ _ => Ok (sample_power 0);
     StateLookupID := fun m _ => Ok m |}.

(** The sizes that successive polls of the dump file see; the last one
    repeats. *)
Fixpoint sizes_stat (sizes : list Z) (n : nat) : StatResult :=
  match sizes, n with
  | [], _ => StatErr ErrNotExist
  | s :: _, O => StatOk s
  | [s], S _ => StatOk s
  | _ :: rest, S n' => sizes_stat rest n'
  end.

Definition sample_env (sizes : list Z) (node : FullNode) (bulk : nat -> BulkFault) : Env :=
  {| fs_stat := sizes_stat sizes;
     fs_content := Some sample_dump;
     fs_remove := None;
     api := node;
     db_find := FindOk;
     db_bulk := bulk;
     clock := fun n => 1700000000 + Z.of_nat n |}.

(** A bulk write whose second operation the server rejects. *)
Definition second_rejected : BulkFault :=
  {| refused := false;
     fate := fun i => match i with 1%nat => Rejected | _ => Acknowledged end |}.

Definition sample_claim (cid : string) : DBClaim :=
  {| ClaimID := 1; ProviderID := 1001; ClientID := 77; ClientAddr := ""; DataCID := cid;
     Size := 1024; TermMin := 1; TermMax := 2; TermStart := 5; Sector := 9;
     MinerAddr := "f01001"; UpdatedAt := 0; Meta := ∅ |}.

(** The sample environments: a dump that is stable at once, one that grows
    once and then settles, one that keeps growing, and no dump at all. *)
Definition stable_env : Env := sample_env [10; 10] sample_node (fun _ => no_fault).
Definition settling_env : Env := sample_env [10; 20; 20] sample_node (fun _ => no_fault).
Definition growing_env : Env := sample_env [10; 20; 30; 40] sample_node (fun _ => no_fault).
Definition absent_env : Env := sample_env [] sample_node (fun _ => no_fault).
Definition node_down_env : Env := sample_env [10; 10] failing_node (fun _ => no_fault).
Definition idle_env : Env := sample_env [10; 10] idle_node (fun _ => no_fault).
Definition rejecting_env : Env := sample_env [10; 10] sample_node (fun _ => second_rejected).

(** The decoded sample dump. *)
Definition sample_rpc : rpcAllClaims :=
  match Decode_rpcAllClaims (Some sample_dump) with
  | Ok rpc => rpc
  | Err _ => {| JSONRPC := ""; Result := ∅; ID := None |}
  end.

(** The values of Go's [uint64] and [int64]. *)
Definition is_uint64 (x : Z) : Prop := 0 <= x <= maxUint64.
Definition is_int64 (x : Z) : Prop := - 2 ^ 63 <= x <= maxInt64.

(** The string holds no separator of [claimKey]. *)
Fixpoint no_bar (s : string) : bool :=
  match s with
  | EmptyString => true
  | String c s' => negb (Ascii.eqb c "|") && no_bar s'
  end.

(** The fields of the uniqueness tuple fit their Go types. *)
Definition tuple_fits (c : DBClaim) : Prop :=
  is_int64 (ProviderID c) /\ is_uint64 (Sector c) /\ is_int64 (TermStart c).

(** The uniqueness tuple of a document. *)
Definition tuple_of (c : DBClaim) : Z * string * Z * Z :=
  (ProviderID c, DataCID c, Sector c, TermStart c).

(** The fields of a decoded record fit their Go types. *)
Definition record_fits (c : filecoinClaim.t) : Prop :=
  is_uint64 (filecoinClaim.Provider c) /\ is_uint64 (filecoinClaim.Client c)
  /\ is_int64 (filecoinClaim.Size c) /\ is_int64 (filecoinClaim.TermMin c)
  /\ is_int64 (filecoinClaim.TermMax c) /\ is_int64 (filecoinClaim.TermStart c)
  /\ is_uint64 (filecoinClaim.Sector c).

(** No two documents of the collection share the uniqueness tuple. *)
Definition unique_tuples (coll : list DBClaim) : Prop := NoDup (map tuple_of coll).

(** The batch size that [insertDiffClaims] works with. *)
Definition effective_bulkSize (bulkSize : Z) : Z := if bulkSize <=? 0 then 2000 else bulkSize.

(** The number of models of a bulk write. *)
Definition batch_len (o : bulk_outcome) : Z := Z.of_nat (length (models_of o)).

(** The error that a faulty scan of the collection reports. *)
Definition find_error (flt : FindFault) : option error :=
  match flt with
  | FindOk => None
  | FindFails e | DecodeFails _ e | CursorFails _ e => Some e
  end.

(** The value a run returns, read off its environment: the first of the
    fatal conditions that holds, in the order of the steps. *)
Definition run_result (env : Env) : option error :=
  match early_exit env with
  | Some r => r
  | None =>
      match Decode_rpcAllClaims (fs_content env) with
      | Err e => Some (Wrapped "decode" e)
      | Ok _ =>
          match find_error (db_find env) with
          | Some e => Some (Wrapped "load db keys" e)
          | None => None
          end
      end
  end.

(** ** Package model: epochs and wall-clock time *)

Module model.

(** [time.Time], as the seconds and nanoseconds since the Unix epoch. *)
Record Time : Type := { unix : Z; nsec : Z }.

(** [time.Time{}]: 1 January of year 1, 00:00 UTC. *)
Definition zeroTime : Time := {| unix := -62135596800; nsec := 0 |}.

Definition IsZero (t : Time) : bool := (unix t =? -62135596800) && (nsec t =? 0).

(** [time.Unix(sec, 0).UTC()] *)
Definition time_Unix (sec : Z) : Time := {| unix := sec; nsec := 0 |}.

Definition filecoinGenesisUnix : Z := 1598306400.
Definition epochDurationSec : Z := 30.

(** Wrap-around of [int32] and [int64] arithmetic. *)
Definition wrap32 (x : Z) : Z := (x + 2 ^ 31) mod 2 ^ 32 - 2 ^ 31.
Definition wrap64 (x : Z) : Z := (x + 2 ^ 63) mod 2 ^ 64 - 2 ^ 63.

Definition EpochToTime (epoch : Z) : Time :=
  if epoch <? 0 then zeroTime
  else time_Unix (wrap32 (wrap32 (epoch * 30) + 1598306400)).

Definition TimeToEpoch (t : Time) : Z :=
  if IsZero t then -1
  else Z.quot (wrap32 (wrap64 (unix t - 1598306400))) 30.

Definition EpochToTime64 (epoch : Z) : Time :=
  if epoch <? 0 then zeroTime
  else time_Unix (wrap64 (wrap64 (epoch * epochDurationSec) + filecoinGenesisUnix)).

Definition TimeToEpoch64 (t : Time) : Z :=
  if IsZero t then -1
  else Z.quot (wrap64 (unix t - filecoinGenesisUnix)) epochDurationSec.

(** [DBClaim.TermStartTime] *)
Definition TermStartTime (c : DBClaim) : Time := EpochToTime64 (TermStart c).

(** [time.Duration(x) * time.Second], in nanoseconds. *)
Definition seconds (x : Z) : Z := wrap64 (x * 1000000000).

(** [DBClaim.TermMinDuration] and [DBClaim.TermMaxDuration] *)
Definition TermMinDuration (c : DBClaim) : Z :=
  if TermMin c <=? 0 then 0 else seconds (wrap64 (TermMin c * epochDurationSec)).

Definition TermMaxDuration (c : DBClaim) : Z :=
  if TermMax c <=? 0 then 0 else seconds (wrap64 (TermMax c * epochDurationSec)).

(** The largest epoch whose start the [int32] arithmetic of [EpochToTime]
    still represents. *)
Definition maxEpoch32 : Z := 18305908.

End model.

(** ** Configuration and scheduling of the importer *)

Record cfg : Type := {
  LotusURL : string;
  LotusJWT : string;
  MongoURI : string;
  MongoDB : string;
  MongoColl : string;
  DumpDir : string;
  BulkSize : Z;
  RunEveryHours : Z
}.

Section Config.

(** [os.Getenv]: the value of a variable, empty when it is not set. *)
Variable Getenv : string -> string.

(** [fmt.Sscan(v, &out)] for [out int]; [None] when the scan reports an
    error. *)
Variable Sscan_int : string -> option Z.

(** [mustEnv]; [None] when [log.Fatalf] ends the process. *)
Definition mustEnv (key def : string) : option string :=
  let v := Getenv key in
  if String.eqb v "" then
    if negb (String.eqb def "") then Some def else None
  else Some v.

Definition envInt (key : string) (def : Z) : Z :=
  let v := Getenv key in
  if String.eqb v "" then def
  else
    match Sscan_int v with
    | None => def
    | Some out => out
    end.

(** [loadCfg]: the fields are evaluated in the order they are written. *)
Definition loadCfg : option cfg :=
  match mustEnv "FULLNODE_API_URL" "" with
  | None => None
  | Some lotusURL =>
      let lotusJWT := Getenv "FULLNODE_API_TOKEN" in
      match mustEnv "MONGO_URI" "" with
      | None => None
      | Some mongoURI =>
          match mustEnv "MONGO_DB" "filstats" with
          | None => None
          | Some mongoDB =>
              match mustEnv "MONGO_CLAIMS_COLL" "claims" with
              | None => None
              | Some mongoColl =>
                  Some {| LotusURL := lotusURL; LotusJWT := lotusJWT; MongoURI := mongoURI;
                          MongoDB := mongoDB; MongoColl := mongoColl;
                          DumpDir := Getenv "CLAIMS_DUMP_DIR";
                          BulkSize := envInt "CLAIMS_BULK_SIZE" 2000;
                          RunEveryHours := envInt "RUN_EVERY_HOURS" 1 |}
              end
          end
      end
  end.

End Config.

(** The interval of [main], in hours: [time.Duration(cfg.RunEveryHours)],
    replaced by 1 when it is not positive. *)
Definition interval_hours (c : cfg) : Z :=
  if RunEveryHours c <=? 0 then 1 else RunEveryHours c.

(** [interval * time.Hour], the period handed to [time.NewTicker], in
    nanoseconds of an [int64]. *)
Definition ticker_period (c : cfg) : Z := to_int64 (to_uint64 (interval_hours c * 3600000000000)).

(** What [main] waits for in its loop: a tick of the ticker, or the end of
    the context. *)
Inductive Signal : Type := Tick | Done.

Section Scheduler.

Variable Sscan_int64 : string -> option Z.

(** The environment of the n-th run of the process. *)
Variable envs : nat -> Env.

Variable bulkSize : Z.

(** The loop of [main]: one run per tick, until the context is done.  The
    store is what the runs share; the result of each run is logged and
    otherwise ignored. *)
Fixpoint scheduler_loop (signals : list Signal) (n : nat) (store : list DBClaim)
    (results : list (option error)) : list DBClaim * list (option error) :=
  match signals with
  | [] => (store, results)
  | Done :: _ => (store, results)
  | Tick :: rest =>
      let (r, w) := runFromTodayDumpOnce Sscan_int64 (envs n) bulkSize (boot store) in
      scheduler_loop rest (S n) (w_store w) (results ++ [r])
  end.

(** [main] from its first run on: one run at once, then the loop. *)
Definition main_runs (signals : list Signal) (store : list DBClaim)
  : list DBClaim * list (option error) :=
  let (r, w) := runFromTodayDumpOnce Sscan_int64 (envs 0) bulkSize (boot store) in
  scheduler_loop signals 1 (w_store w) [r].

End Scheduler.

(** The ticks that [main] serves: those before the context is done. *)
Fixpoint ticks_served (signals : list Signal) : nat :=
  match signals with
  | Tick :: rest => S (ticks_served rest)
  | _ => 0%nat
  end.

(** ** Statistics service: paging *)

Module stats.

Definition defaultPageSize : Z := 15.
Definition maxPageSize : Z := 200.

(** [strconv.Atoi] *)
Definition Atoi (s : string) : result Z := ParseInt s.

Definition parsePage (pStr psStr : string) : Z * Z :=
  let page := match Atoi pStr with
              | Ok v => if 0 <? v then v else 1
              | Err _ => 1
              end in
  let ps := match Atoi psStr with
            | Ok v => if (0 <? v) && (v <=? maxPageSize) then v else defaultPageSize
            | Err _ => defaultPageSize
            end in
  (page, ps).

(** The window of ranks that [handleMiners] asks for:
    [start := int64((page - 1) * pageSize)] and
    [end := start + int64(pageSize) - 1]. *)
Definition window (page pageSize : Z) : Z * Z :=
  let start := model.wrap64 ((page - 1) * pageSize) in
  (start, model.wrap64 (model.wrap64 (start + pageSize) - 1)).

End stats.

(** ** Package util: from sampled claims to retrieval tasks

    [AddTasks] turns the sampled documents into tasks of the retrieval
    workers, and into failed results for the providers that cannot be
    reached.  The resolvers, [peer.Decode], the address conversion and the
    timeout setting are interfaces of the function; the wall clock is read
    through a counter, and so is the order in which a [range] over
    [moduleMetadataMap] yields its entries, which Go leaves open. *)

Module resolver.

(** The coordinates are carried as they are and never computed with. *)
Module IPInfo.
Record t : Type := {
  IP : string; City : string; Region : string; Country : string; Continent : string;
  ASN : string; ISP : string; Latitude : string; Longitude : string
}.
End IPInfo.

Module MinerInfo.
Record t : Type := { PeerId : string; Multiaddrs : list (list Byte.byte) }.
End MinerInfo.

End resolver.

Module requesterror.

(** What [errors.As] finds in the error of the location resolver. *)
Inductive Kind : Type :=
| BogonIPError | InvalidIPError | HostLookupError | NoValidMultiAddrError | OtherError.

Record t : Type := { kind : Kind; Error : string }.

End requesterror.

Module task.

Inductive ModuleName : Type := GraphSync | Bitswap | HTTP.

#[global] Instance ModuleName_eq_dec : EqDecision ModuleName.
Proof. solve_decision. Defined.

Inductive ErrorCode : Type := NoValidMultiAddrs | InvalidPeerID.

Module Provider.
Record t : Type := {
  ID : string; PeerID : string; Multiaddrs : list string;
  City : string; Region : string; Country : string; Continent : string
}.
End Provider.

Module Content.
Record t : Type := { CID : string }.
End Content.

Module Task.
Record t : Type := {
  Requester : string;
  Module_ : ModuleName;
  Metadata : gmap string string;
  Provider : Provider.t;
  Content : Content.t;
  CreatedAt : Z;
  Timeout : Z
}.
End Task.

Module Retriever.
Record t : Type := {
  PublicIP : string; City : string; Region : string; Country : string;
  Continent : string; ASN : string; ISP : string; Latitude : string; Longitude : string
}.
End Retriever.

Module RetrievalResult.
Record t : Type := {
  Success : bool; ErrorCode_ : ErrorCode; ErrorMessage : string;
  TTFB : Z; Speed : Z; Duration : Z; Downloaded : Z
}.
End RetrievalResult.

Module Result.
Record t : Type := {
  Task_ : Task.t;
  Retriever : Retriever.t;
  Result : RetrievalResult.t;
  CreatedAt : Z
}.
End Result.

End task.

Module util.

(** How often the clock was read and how often the map was ranged over. *)
Record Calls : Type := { nows : nat; ranges : nat }.

Definition moduleMetadataMap : list (task.ModuleName * gmap string string) :=
  [(task.GraphSync, {[ "assume_label" := "true"; "retrieve_type" := "root_block" ]});
   (task.Bitswap, {[ "assume_label" := "true"; "retrieve_type" := "root_block" ]});
   (task.HTTP, {[ "retrieve_type" := "piece"; "retrieve_size" := "1048576" ]})].

(** The four errors of the location resolver that are reported as results. *)
Definition reported (k : requesterror.Kind) : bool :=
  match k with requesterror.OtherError => false | _ => true end.

Section AddTasks.

Variable ResolveProvider : string -> result resolver.MinerInfo.t.
Variable ResolveMultiaddrsBytes :
  list (list Byte.byte) -> resolver.IPInfo.t * option requesterror.t.
(** [peer.Decode]: the message of its error, if it fails. *)
Variable peer_Decode : string -> option string.
Variable MultiaddrsBytesToStringArraySkippingError : list (list Byte.byte) -> list string.
(** [env.GetDuration(env.FilplusIntegrationTaskTimeout, d)] *)
Variable GetDuration : Z -> Z.
Variable clock : nat -> Z.
(** The order of the n-th [range] over [moduleMetadataMap]. *)
Variable range_order : nat -> list (task.ModuleName * gmap string string).

Definition provider_of (document : DBClaim) (providerInfo : resolver.MinerInfo.t)
    (location : resolver.IPInfo.t) : task.Provider.t :=
  {| task.Provider.ID := MinerAddr document;
     task.Provider.PeerID := resolver.MinerInfo.PeerId providerInfo;
     task.Provider.Multiaddrs :=
       MultiaddrsBytesToStringArraySkippingError (resolver.MinerInfo.Multiaddrs providerInfo);
     task.Provider.City := resolver.IPInfo.City location;
     task.Provider.Region := resolver.IPInfo.Region location;
     task.Provider.Country := resolver.IPInfo.Country location;
     task.Provider.Continent := resolver.IPInfo.Continent location |}.

(** The body of the loop of [addErrorResults]: one result for one entry of
    the map, with a copy of the entry's metadata to which the client is
    added. *)
Definition addErrorResults_step (requester : string) (ipInfo : resolver.IPInfo.t)
    (document : DBClaim) (providerInfo : resolver.MinerInfo.t)
    (location : resolver.IPInfo.t) (errorCode : task.ErrorCode) (errorMessage : string)
    (acc : list task.Result.t * nat) (entry : task.ModuleName * gmap string string)
    : list task.Result.t * nat :=
  let newMetadata := <[ "client" := ClientAddr document ]> entry.2 in
  (acc.1 ++ [ {| task.Result.Task_ :=
                   {| task.Task.Requester := requester;
                      task.Task.Module_ := entry.1;
                      task.Task.Metadata := newMetadata;
                      task.Task.Provider := provider_of document providerInfo location;
                      task.Task.Content := {| task.Content.CID := DataCID document |};
                      task.Task.CreatedAt := clock acc.2;
                      task.Task.Timeout := GetDuration 15000000000 |};
                 task.Result.Retriever :=
                   {| task.Retriever.PublicIP := resolver.IPInfo.IP ipInfo;
                      task.Retriever.City := resolver.IPInfo.City ipInfo;
                      task.Retriever.Region := resolver.IPInfo.Region ipInfo;
                      task.Retriever.Country := resolver.IPInfo.Country ipInfo;
                      task.Retriever.Continent := resolver.IPInfo.Continent ipInfo;
                      task.Retriever.ASN := resolver.IPInfo.ASN ipInfo;
                      task.Retriever.ISP := resolver.IPInfo.ISP ipInfo;
                      task.Retriever.Latitude := resolver.IPInfo.Latitude ipInfo;
                      task.Retriever.Longitude := resolver.IPInfo.Longitude ipInfo |};
                 task.Result.Result :=
                   {| task.RetrievalResult.Success := false;
                      task.RetrievalResult.ErrorCode_ := errorCode;
                      task.RetrievalResult.ErrorMessage := errorMessage;
                      task.RetrievalResult.TTFB := 0;
                      task.RetrievalResult.Speed := 0;
                      task.RetrievalResult.Duration := 0;
                      task.RetrievalResult.Downloaded := 0 |};
                 task.Result.CreatedAt := clock (S acc.2) |} ],
   S (S acc.2)).

Definition addErrorResults (requester : string) (ipInfo : resolver.IPInfo.t)
    (results : list task.Result.t) (document : DBClaim)
    (providerInfo : resolver.MinerInfo.t) (location : resolver.IPInfo.t)
    (errorCode : task.ErrorCode) (errorMessage : string) (c : Calls)
    : list task.Result.t * Calls :=
  let out :=
    foldl (addErrorResults_step requester ipInfo document providerInfo location
             errorCode errorMessage)
          (results, nows c) (range_order (ranges c)) in
  (out.1, {| nows := out.2; ranges := S (ranges c) |}).

Definition new_task (requester : string) (document : DBClaim)
    (providerInfo : resolver.MinerInfo.t) (location : resolver.IPInfo.t) (n : nat)
    : task.Task.t :=
  {| task.Task.Requester := requester;
     task.Task.Module_ := task.HTTP;
     task.Task.Metadata :=
       {[ "client" := ClientAddr document; "retrieve_type" := "piece";
          "retrieve_size" := "1048576" ]};
     task.Task.Provider := provider_of document providerInfo location;
     task.Task.Content := {| task.Content.CID := DataCID document |};
     task.Task.CreatedAt := clock n;
     task.Task.Timeout := GetDuration 15000000000 |}.

(** The state of the loop of [AddTasks]: the two slices and the calls made. *)
Definition Slices : Type := list task.Task.t * list task.Result.t * Calls.

Definition AddTasks_step (requester : string) (ipInfo : resolver.IPInfo.t)
    (st : Slices) (document : DBClaim) : Slices :=
  let '(tasks, results, c) := st in
  match ResolveProvider (MinerAddr document) with
  | Err _ => st
  | Ok providerInfo =>
      match ResolveMultiaddrsBytes (resolver.MinerInfo.Multiaddrs providerInfo) with
      | (location, Some err) =>
          if reported (requesterror.kind err) then
            let out := addErrorResults requester ipInfo results document providerInfo
                         location task.NoValidMultiAddrs (requesterror.Error err) c in
            (tasks, out.1, out.2)
          else st
      | (location, None) =>
          match peer_Decode (resolver.MinerInfo.PeerId providerInfo) with
          | Some msg =>
              let out := addErrorResults requester ipInfo results document providerInfo
                           location task.InvalidPeerID msg c in
              (tasks, out.1, out.2)
          | None =>
              (tasks ++ [new_task requester document providerInfo location (nows c)],
               results, {| nows := S (nows c); ranges := ranges c |})
          end
      end
  end.

Definition AddTasks (requester : string) (ipInfo : resolver.IPInfo.t)
    (documents : list DBClaim) (c : Calls) : Slices :=
  foldl (AddTasks_step requester ipInfo) ([], [], c) documents.

End AddTasks.

End util.

(** *** Vocabulary of the task queue *)

(** What a task says about the document it was made from. *)
Definition task_claim (t : task.Task.t) : string * string * option string :=
  (task.Provider.ID (task.Task.Provider t), task.Content.CID (task.Task.Content t),
   task.Task.Metadata t !! "client").

Definition document_claim (d : DBClaim) : string * string * option string :=
  (MinerAddr d, DataCID d, Some (ClientAddr d)).

Definition result_module (r : task.Result.t) : task.ModuleName :=
  task.Task.Module_ (task.Result.Task_ r).

(** The results of one module. *)
Definition results_of (m : task.ModuleName) (results : list task.Result.t)
    : list task.Result.t :=
  filter (fun r => result_module r = m) results.

(** A result that reports a failure and nothing else. *)
Definition failure (r : task.Result.t) : Prop :=
  task.RetrievalResult.Success (task.Result.Result r) = false
  /\ task.RetrievalResult.TTFB (task.Result.Result r) = 0
  /\ task.RetrievalResult.Speed (task.Result.Result r) = 0
  /\ task.RetrievalResult.Duration (task.Result.Result r) = 0
  /\ task.RetrievalResult.Downloaded (task.Result.Result r) = 0.

(** A provider that can be reached: it resolves, its addresses have a
    location and its peer ID decodes. *)
Definition reachable (ResolveProvider : string -> result resolver.MinerInfo.t)
    (ResolveMultiaddrsBytes : list (list Byte.byte) -> resolver.IPInfo.t * option requesterror.t)
    (peer_Decode : string -> option string) (document : DBClaim) : Prop :=
  exists providerInfo location,
    ResolveProvider (MinerAddr document) = Ok providerInfo
    /\ ResolveMultiaddrsBytes (resolver.MinerInfo.Multiaddrs providerInfo) = (location, None)
    /\ peer_Decode (resolver.MinerInfo.PeerId providerInfo) = None.

(** The metadata that [moduleMetadataMap] holds for a module. *)
Definition module_metadata (m : task.ModuleName) : gmap string string :=
  match list_find (fun e => e.1 = m) util.moduleMetadataMap with
  | Some (_, e) => e.2
  | None => ∅
  end.

(** A result that [addErrorResults] made for a document: it names the
    requester and the document, carries the metadata of its module with the
    client added, and reports a failure. *)
Definition reports (requester : string) (document : DBClaim)
    (order : list (task.ModuleName * gmap string string)) (r : task.Result.t) : Prop :=
  task.Task.Requester (task.Result.Task_ r) = requester
  /\ task.Provider.ID (task.Task.Provider (task.Result.Task_ r)) = MinerAddr document
  /\ task.Content.CID (task.Task.Content (task.Result.Task_ r)) = DataCID document
  /\ (exists entry, entry ∈ order /\ entry.1 = result_module r
        /\ task.Task.Metadata (task.Result.Task_ r)
           = <[ "client" := ClientAddr document ]> entry.2)
  /\ failure r.

(** A dump whose second record has a provider that is no numeral. *)
Definition broken_dump : json :=
  JObject [("jsonrpc", JString "2.0");
           ("result",
            JObject [("17", sample_record (JNumber "1001") (JString "bafyA") "9");
                     ("18", sample_record (JString "12x") (JString "bafyC") "11")]);
           ("id", JNumber "1")].

Definition broken_env : Env :=
  {| fs_stat := sizes_stat [10; 10];
     fs_content := Some broken_dump;
     fs_remove := None;
     api := sample_node;
     db_find := FindOk;
     db_bulk := fun _ => no_fault;
     clock := fun n => 1700000000 + Z.of_nat n |}.

(** A dump file that is there at the existence check and gone at the first
    poll of the stability loop. *)
Definition vanishing_env : Env :=
  {| fs_stat := fun n => match n with O => StatOk 10 | S _ => StatErr ErrNotExist end;
     fs_content := Some sample_dump;
     fs_remove := None;
     api := sample_node;
     db_find := FindOk;
     db_bulk := fun _ => no_fault;
     clock := fun n => 1700000000 + Z.of_nat n |}.

(** Environment variables that set only the two required ones. *)
Definition sample_Getenv (key : string) : string :=
  if String.eqb key "FULLNODE_API_URL" then "ws://127.0.0.1:1234/rpc/v1"
  else if String.eqb key "MONGO_URI" then "mongodb://127.0.0.1:27017"
  else "".

(** Sample resolvers: miner [f01001] is reachable, the peer ID of [f02002]
    does not decode, the addresses of [f03003] are bogons, and no other
    miner resolves. *)
Definition sample_ResolveProvider (addr : string) : result resolver.MinerInfo.t :=
  match addr with
  | "f01001" => Ok {| resolver.MinerInfo.PeerId := "12D3KooWA"; resolver.MinerInfo.Multiaddrs := [[]] |}
  | "f02002" => Ok {| resolver.MinerInfo.PeerId := "bad"; resolver.MinerInfo.Multiaddrs := [[]] |}
  | "f03003" => Ok {| resolver.MinerInfo.PeerId := "12D3KooWC"; resolver.MinerInfo.Multiaddrs := [] |}
  | _ => Err ErrRPC
  end.

Definition sample_location : resolver.IPInfo.t :=
  {| resolver.IPInfo.IP := "192.0.2.1"; resolver.IPInfo.City := "Lyon";
     resolver.IPInfo.Region := "ARA"; resolver.IPInfo.Country := "FR";
     resolver.IPInfo.Continent := "EU"; resolver.IPInfo.ASN := "AS64500";
     resolver.IPInfo.ISP := "isp"; resolver.IPInfo.Latitude := "45.7";
     resolver.IPInfo.Longitude := "4.8" |}.

Definition no_location : resolver.IPInfo.t :=
  {| resolver.IPInfo.IP := ""; resolver.IPInfo.City := ""; resolver.IPInfo.Region := "";
     resolver.IPInfo.Country := ""; resolver.IPInfo.Continent := "";
     resolver.IPInfo.ASN := ""; resolver.IPInfo.ISP := ""; resolver.IPInfo.Latitude := "";
     resolver.IPInfo.Longitude := "" |}.

Definition sample_ResolveMultiaddrsBytes (addrs : list (list Byte.byte))
    : resolver.IPInfo.t * option requesterror.t :=
  match addrs with
  | [] => (no_location,
           Some {| requesterror.kind := requesterror.BogonIPError;
                   requesterror.Error := "bogon IP" |})
  | _ => (sample_location, None)
  end.

Definition sample_peer_Decode (s : string) : option string :=
  if String.eqb s "bad" then Some "failed to parse peer ID" else None.

Definition sample_document (miner cid : string) : DBClaim :=
  {| ClaimID := 1; ProviderID := 1001; ClientID := 77; ClientAddr := "f077"; DataCID := cid;
     Size := 1024; TermMin := 1; TermMax := 2; TermStart := 5; Sector := 9;
     MinerAddr := miner; UpdatedAt := 0; Meta := ∅ |}.

(** Four documents, one for each way through the loop. *)
Definition sample_documents : list DBClaim :=
  [sample_document "f01001" "bafyA"; sample_document "f02002" "bafyB";
   sample_document "f09009" "bafyC"; sample_document "f03003" "bafyD"].

(** [AddTasks] over the sample resolvers, the map being ranged over in the
    reverse of the order it is written in. *)
Definition sample_AddTasks (documents : list DBClaim) : util.Slices :=
  util.AddTasks sample_ResolveProvider sample_ResolveMultiaddrsBytes sample_peer_Decode
    (fun _ => []) (fun d => d) (fun n => 1700000000 + Z.of_nat n)
    (fun _ => rev util.moduleMetadataMap)
    "worker" sample_location documents {| util.nows := 0; util.ranges := 0 |}.

(** * Properties *)

#[local] Set Warnings "-clear-no-such-hyp".

(** ** Sanity checks of the embedding *)

Example FormatUint_1001 : FormatUint 1001 = "1001".
Proof. reflexivity. Qed.

Example FormatUint_max : FormatUint maxUint64 = "18446744073709551615".
Proof. vm_compute. reflexivity. Qed.

Example ParseUint_max : ParseUint "18446744073709551615" = Ok maxUint64.
Proof. vm_compute. reflexivity. Qed.

Example ParseUint_over : ParseUint "18446744073709551616" = Err ErrRange.
Proof. vm_compute. reflexivity. Qed.

Example ParseInt_neg : ParseInt "-9223372036854775808" = Ok (- 2 ^ 63).
Proof. vm_compute. reflexivity. Qed.

Example cid_obj : cidOrObj_UnmarshalJSON (JObject [("/", JString "bafyXYZ")]) = Ok "bafyXYZ".
Proof. vm_compute. reflexivity. Qed.

(** ** Decimal numerals: formatting and parsing are inverse *)

Lemma small_cases (d : Z) :
  0 <= d < 10 -> d = 0 \/ d = 1 \/ d = 2 \/ d = 3 \/ d = 4 \/ d = 5 \/ d = 6 \/ d = 7
                 \/ d = 8 \/ d = 9.
Proof. lia. Qed.

Lemma digit_byte_is_digit d : 0 <= d < 10 -> is_digit (digit_byte d) = true.
Proof. intros H. destruct (small_cases d H) as [->|[->|[->|[->|[->|[->|[->|[->|[->| ->]]]]]]]]]; reflexivity. Qed.

Lemma digit_val_digit_byte d : 0 <= d < 10 -> digit_val (digit_byte d) = d.
Proof. intros H. destruct (small_cases d H) as [->|[->|[->|[->|[->|[->|[->|[->|[->| ->]]]]]]]]]; reflexivity. Qed.

Lemma digit_byte_nonzero d : 1 <= d < 10 -> Ascii.eqb (digit_byte d) "0" = false.
Proof.
  intros H. assert (H' : 0 <= d < 10) by lia.
  destruct (small_cases d H') as [->|[->|[->|[->|[->|[->|[->|[->|[->| ->]]]]]]]]];
    try reflexivity; lia.
Qed.

Lemma is_digit_not_sign c :
  is_digit c = true -> Ascii.eqb c "-" = false /\ Ascii.eqb c "+" = false.
Proof.
  destruct c as [[] [] [] [] [] [] [] []]; vm_compute; intros; try discriminate; auto.
Qed.

Lemma skip_all_digits s : all_digits s = true -> skip_digits s = "".
Proof.
  induction s as [|c s IH]; simpl; [reflexivity|].
  intros [Hc Hs]%andb_true_iff. rewrite Hc. auto.
Qed.

(** The shape of a formatted number: only digits, and no leading zero
    except for zero itself. *)
Lemma formatBits_shape fuel : forall u buf,
  0 <= u < 10 ^ Z.of_nat (S fuel) -> all_digits buf = true ->
  exists c rest, formatBits (S fuel) u buf = String c rest
    /\ is_digit c = true /\ all_digits rest = true
    /\ (1 <= u -> Ascii.eqb c "0" = false)
    /\ (u = 0 -> rest = buf).
Proof.
  induction fuel as [|fuel IH]; intros u buf Hu Hbuf;
    cbn [formatBits]; destruct (u <? 10) eqn:Hlt.
  1, 3: apply Z.ltb_lt in Hlt; exists (digit_byte u), buf;
        repeat split; auto; [apply digit_byte_is_digit; lia
                            |intros; apply digit_byte_nonzero; lia].
  - apply Z.ltb_ge in Hlt. change (10 ^ Z.of_nat 1) with 10 in Hu. lia.
  - apply Z.ltb_ge in Hlt.
    assert (Hq : 1 <= u / 10 < 10 ^ Z.of_nat (S fuel)).
    { split.
      - apply Z.div_le_lower_bound; lia.
      - apply Z.div_lt_upper_bound; [lia|].
        rewrite (Nat2Z.inj_succ (S fuel)), Z.pow_succ_r in Hu by lia. lia. }
    destruct (IH (u / 10) (String (digit_byte (u mod 10)) buf))
      as (c & rest & He & Hc & Hr & Hnz & _).
    + lia.
    + cbn [all_digits]. rewrite digit_byte_is_digit by (apply Z.mod_pos_bound; lia). exact Hbuf.
    + cbn [formatBits] in He. rewrite He.
      exists c, rest. repeat split; auto. { intros _. apply Hnz. lia. } lia.
Qed.

Lemma parse_step q d buf :
  0 <= q -> 0 <= d < 10 -> q * 10 + d <= maxUint64 ->
  parse_digits (String (digit_byte d) buf) q = parse_digits buf (q * 10 + d).
Proof.
  assert (Hmax : maxUint64 = 18446744073709551615) by reflexivity.
  assert (Hcut : cutoff10 = 1844674407370955162) by reflexivity.
  assert (Hpow : 2 ^ 64 = 18446744073709551616) by reflexivity.
  intros Hq Hd Hle. cbn [parse_digits].
  rewrite digit_byte_is_digit, digit_val_digit_byte by assumption.
  replace (cutoff10 <=? q) with false by (symmetry; apply Z.leb_gt; lia).
  rewrite Z.mod_small by lia.
  replace (q * 10 + d <? q * 10) with false by (symmetry; apply Z.ltb_ge; lia).
  replace (maxUint64 <? q * 10 + d) with false by (symmetry; apply Z.ltb_ge; lia).
  reflexivity.
Qed.

Lemma parse_digits_formatBits fuel : forall u buf,
  0 <= u <= maxUint64 -> u < 10 ^ Z.of_nat fuel ->
  parse_digits (formatBits fuel u buf) 0 = parse_digits buf u.
Proof.
  induction fuel as [|fuel IH]; intros u buf Hu Hlt.
  - change (10 ^ Z.of_nat 0) with 1 in Hlt. assert (u = 0) by lia. subst u. reflexivity.
  - cbn [formatBits]. destruct (u <? 10) eqn:H10.
    + apply Z.ltb_lt in H10. rewrite (parse_step 0 u) by lia. f_equal.
    + apply Z.ltb_ge in H10.
      pose proof (Z.div_mod u 10 ltac:(lia)) as Hdm.
      pose proof (Z.mod_pos_bound u 10 ltac:(lia)) as Hm.
      rewrite IH.
      * rewrite parse_step by lia. f_equal. lia.
      * lia.
      * apply Z.div_lt_upper_bound; [lia|].
        rewrite Nat2Z.inj_succ, Z.pow_succ_r in Hlt by lia. lia.
Qed.

Lemma FormatUint_shape u :
  0 <= u <= maxUint64 ->
  exists c rest, FormatUint u = String c rest
    /\ is_digit c = true /\ all_digits rest = true
    /\ (Ascii.eqb c "0" = true -> rest = "").
Proof.
  intros Hu. unfold FormatUint.
  assert (Hmax : maxUint64 = 18446744073709551615) by reflexivity.
  destruct (formatBits_shape 19 u "") as (c & rest & He & Hc & Hr & Hnz & Hz).
  - change (10 ^ Z.of_nat 20) with 100000000000000000000. lia.
  - reflexivity.
  - exists c, rest. repeat split; auto.
    intros H0. destruct (Z.eq_dec u 0) as [->|Hne]; [auto|].
    rewrite Hnz in H0 by lia. discriminate.
Qed.

Lemma ParseUint_FormatUint u : 0 <= u <= maxUint64 -> ParseUint (FormatUint u) = Ok u.
Proof.
  intros Hu. destruct (FormatUint_shape u Hu) as (c & rest & He & _).
  unfold ParseUint. rewrite He, <- He. unfold FormatUint.
  rewrite parse_digits_formatBits; [reflexivity|assumption|].
  assert (Hmax : maxUint64 = 18446744073709551615) by reflexivity.
  change (10 ^ Z.of_nat 20) with 100000000000000000000. lia.
Qed.

Lemma ParseInt_FormatUint i : 0 <= i <= maxInt64 -> ParseInt (FormatUint i) = Ok i.
Proof.
  intros Hi.
  assert (Hmax : maxUint64 = 18446744073709551615) by reflexivity.
  assert (Hmaxi : maxInt64 = 9223372036854775807) by reflexivity.
  assert (Hu : 0 <= i <= maxUint64) by lia.
  destruct (FormatUint_shape i Hu) as (c & rest & He & Hc & _).
  destruct (is_digit_not_sign c Hc) as [Hm Hp].
  unfold ParseInt. rewrite He, Hm, Hp. simpl orb. cbv iota. rewrite <- He.
  rewrite ParseUint_FormatUint by assumption. simpl negb. simpl andb.
  replace (2 ^ 63 <=? i) with false by (symmetry; apply Z.leb_gt; lia).
  reflexivity.
Qed.

Lemma isValidNumber_FormatUint u : 0 <= u <= maxUint64 -> isValidNumber (FormatUint u) = true.
Proof.
  intros Hu. destruct (FormatUint_shape u Hu) as (c & rest & -> & Hc & Hr & Hz).
  destruct (is_digit_not_sign c Hc) as [Hm _].
  unfold isValidNumber. rewrite Hm. destruct (Ascii.eqb c "0") eqn:H0.
  - rewrite Hz by reflexivity. reflexivity.
  - rewrite Hc, skip_all_digits by assumption. reflexivity.
Qed.

(** ** The conditional upsert and the bulk write *)

Lemma update_first_SetOnInsert f c coll :
  update_first f (SetOnInsert c) coll =
  if existsb (matches f) coll then Some (coll, false) else None.
Proof.
  induction coll as [|d rest IH]; cbn [update_first existsb]; [reflexivity|].
  destruct (matches f d); cbn [orb]; [reflexivity|].
  rewrite IH. destruct (existsb (matches f) rest); reflexivity.
Qed.

Lemma exec_upsert c coll :
  exec_model (upsert_model c) coll =
  if present (upsert_model c) coll
  then (coll, {| MatchedCount := 1; ModifiedCount := 0; UpsertedCount := 0 |})
  else (coll ++ [c], {| MatchedCount := 0; ModifiedCount := 0; UpsertedCount := 1 |}).
Proof.
  unfold exec_model, present. cbn [upsert_model Filter Update Upsert].
  rewrite update_first_SetOnInsert.
  destruct (existsb _ coll); reflexivity.
Qed.

Lemma matches_self c : matches (Filter (upsert_model c)) c = true.
Proof.
  unfold matches. cbn [upsert_model Filter f_provider_id f_data_cid f_sector f_term_start].
  rewrite !Z.eqb_refl, String.eqb_refl. reflexivity.
Qed.

Lemma matches_key c d : matches (Filter (upsert_model c)) d = true -> key_of d = key_of c.
Proof.
  unfold matches. cbn [upsert_model Filter f_provider_id f_data_cid f_sector f_term_start].
  rewrite !andb_true_iff. intros [[[H1 H2] H3] H4].
  apply Z.eqb_eq in H1, H3, H4. apply String.eqb_eq in H2.
  unfold key_of. congruence.
Qed.

Lemma present_app m coll added :
  present m coll = true -> present m (coll ++ added) = true.
Proof. unfold present. rewrite existsb_app. intros ->. reflexivity. Qed.

Lemma bulk_exec_spec fate models :
  Forall upsert_shaped models ->
  forall i coll res failed,
  exists added res' failed',
    bulk_exec fate i models coll res failed = (coll ++ added, res', failed')
    /\ UpsertedCount res <= UpsertedCount res' <= UpsertedCount res + Z.of_nat (length added)
    /\ (forall d, d ∈ added -> exists m, m ∈ models /\ d = update_payload (Update m))
    /\ ((forall j, fate j <> Rejected) -> forall m, m ∈ models -> present m (coll ++ added) = true).
Proof.
  induction 1 as [|m models [c ->] _ IH]; intros i coll res failed.
  - exists [], res, failed. rewrite app_nil_r. cbn [bulk_exec length].
    repeat split; try lia; intros; exfalso; eapply not_elem_of_nil; eauto.
  - cbn [bulk_exec]. rewrite exec_upsert.
    destruct (fate i) eqn:Hf.
    + destruct (present (upsert_model c) coll) eqn:Hp.
      * destruct (IH (S i) coll (add_counts res {| MatchedCount := 1; ModifiedCount := 0; UpsertedCount := 0 |}) failed)
          as (added & res' & failed' & -> & Hc & Hpay & Hpres).
        cbn [add_counts UpsertedCount] in Hc.
        exists added, res', failed'. repeat split; try lia.
        -- intros d Hd. destruct (Hpay d Hd) as (m & Hm & ->). exists m. split; [by right|done].
        -- intros Hall m [->|Hm]%elem_of_cons; [by apply present_app|by apply Hpres].
      * destruct (IH (S i) (coll ++ [c]) (add_counts res {| MatchedCount := 0; ModifiedCount := 0; UpsertedCount := 1 |}) failed)
          as (added & res' & failed' & -> & Hc & Hpay & Hpres).
        cbn [add_counts UpsertedCount] in Hc.
        exists (c :: added), res', failed'. rewrite <- app_assoc. cbn [app length].
        repeat split; try lia.
        -- intros d [->|Hd]%elem_of_cons.
           ++ exists (upsert_model c). split; [by left|done].
           ++ destruct (Hpay d Hd) as (m & Hm & ->). exists m. split; [by right|done].
        -- intros Hall m [->|Hm]%elem_of_cons.
           ++ change (coll ++ c :: added) with (coll ++ [c] ++ added). rewrite app_assoc.
              apply present_app. unfold present. rewrite existsb_app. cbn [existsb].
              rewrite matches_self. by rewrite orb_true_r.
           ++ change (coll ++ c :: added) with (coll ++ [c] ++ added). rewrite app_assoc.
              by apply Hpres.
    + destruct (IH (S i) coll res true) as (added & res' & failed' & -> & Hc & Hpay & Hpres).
      exists added, res', failed'. repeat split; try lia.
      * intros d Hd. destruct (Hpay d Hd) as (m & Hm & ->). exists m. split; [by right|done].
      * intros Hall. exfalso. by apply (Hall i).
    + destruct (present (upsert_model c) coll) eqn:Hp.
      * destruct (IH (S i) coll res true) as (added & res' & failed' & -> & Hc & Hpay & Hpres).
        exists added, res', failed'. repeat split; try lia.
        -- intros d Hd. destruct (Hpay d Hd) as (m & Hm & ->). exists m. split; [by right|done].
        -- intros Hall m [->|Hm]%elem_of_cons; [by apply present_app|by apply Hpres].
      * destruct (IH (S i) (coll ++ [c]) res true) as (added & res' & failed' & -> & Hc & Hpay & Hpres).
        exists (c :: added), res', failed'. rewrite <- app_assoc. cbn [app length].
        repeat split; try lia.
        -- intros d [->|Hd]%elem_of_cons.
           ++ exists (upsert_model c). split; [by left|done].
           ++ destruct (Hpay d Hd) as (m & Hm & ->). exists m. split; [by right|done].
        -- intros Hall m [->|Hm]%elem_of_cons.
           ++ change (coll ++ c :: added) with (coll ++ [c] ++ added). rewrite app_assoc.
              apply present_app. unfold present. rewrite existsb_app. cbn [existsb].
              rewrite matches_self. by rewrite orb_true_r.
           ++ change (coll ++ c :: added) with (coll ++ [c] ++ added). rewrite app_assoc.
              by apply Hpres.
Qed.

Lemma sum_credited_app o1 o2 : sum_credited (o1 ++ o2) = sum_credited o1 + sum_credited o2.
Proof.
  unfold sum_credited. induction o1 as [|o o1 IH]; cbn [app map foldr]; lia.
Qed.

Lemma Extends_refl ok coll : Extends ok coll coll [].
Proof.
  split.
  - exists []. rewrite app_nil_r. repeat split; cbn; try lia.
    intros d Hd. exfalso. eapply not_elem_of_nil; eauto.
  - intros _ m Hm. cbn in Hm. exfalso. eapply not_elem_of_nil; eauto.
Qed.

Lemma Extends_trans ok a b c o1 o2 :
  Extends ok a b o1 -> Extends ok b c o2 -> Extends ok a c (o1 ++ o2).
Proof.
  intros [(ad1 & -> & Hc1 & Hp1) Hq1] [(ad2 & -> & Hc2 & Hp2) Hq2]. split.
  - exists (ad1 ++ ad2). rewrite app_assoc, sum_credited_app, length_app, map_app, concat_app.
    repeat split; try lia.
    intros d [Hd|Hd]%elem_of_app.
    + destruct (Hp1 d Hd) as (m & Hm & ->). exists m. split; [|done]. apply elem_of_app. by left.
    + destruct (Hp2 d Hd) as (m & Hm & ->). exists m. split; [|done]. apply elem_of_app. by right.
  - intros Hok m. rewrite map_app, concat_app. intros [Hm|Hm]%elem_of_app.
    + apply present_app. by apply Hq1.
    + by apply Hq2.
Qed.

Lemma BulkWrite_spec flt models coll :
  Forall upsert_shaped models ->
  exists coll' res err,
    BulkWrite flt models coll = (coll', res, err)
    /\ Extends (applies_all flt) coll coll' [(models, res, err)].
Proof.
  intros Hshape. unfold BulkWrite. destruct (refused flt) eqn:Href.
  - exists coll, None, (Some ErrDB). split; [reflexivity|]. split.
    + exists []. rewrite app_nil_r. repeat split; cbn; try lia.
      intros d Hd. exfalso. eapply not_elem_of_nil; eauto.
    + intros [Hr _]. congruence.
  - destruct (bulk_exec_spec (fate flt) models Hshape 0%nat coll no_counts false)
      as (added & res' & failed' & -> & Hc & Hpay & Hpres).
    eexists _, _, _. split; [reflexivity|]. split.
    + exists added. cbn [no_counts UpsertedCount] in Hc.
      unfold sum_credited, credited, models_of. cbn [map foldr concat fst snd].
      rewrite app_nil_r. repeat split; try lia. exact Hpay.
    + intros [_ Hall]. unfold models_of. cbn [map concat fst]. rewrite app_nil_r.
      by apply Hpres.
Qed.

Section ImporterFacts.

Variable env : Env.

Lemma flushBatch_spec s w :
  Forall upsert_shaped (batch s) ->
  exists outs s' w',
    flushBatch env s w = ((s', None), w')
    /\ batch s' = []
    /\ inserted s' = inserted s + sum_credited outs
    /\ concat (map models_of outs) = batch s
    /\ Forall (fun o => models_of o <> []) outs
    /\ w_trace w' = w_trace w ++ flat_map flush_events outs
    /\ w_removed w' = w_removed w
    /\ w_sleeps w' = w_sleeps w
    /\ Extends (writes_succeed env) (w_store w) (w_store w') outs.
Proof.
  intros Hshape. unfold flushBatch.
  destruct (decide (length (batch s) = 0%nat)) as [Hlen|Hlen].
  - exists [], s, w. apply length_zero_iff_nil in Hlen.
    cbn [flat_map map concat]. rewrite app_nil_r, Hlen.
    split_and!; try done.
    + unfold sum_credited. cbn [map foldr]. lia.
    + apply Extends_refl.
  - destruct (BulkWrite_spec (db_bulk env (w_bulks w)) (batch s) (w_store w) Hshape)
      as (coll' & res & err & HBW & Hext).
    exists [(batch s, res, err)].
    unfold mbind, M_bind, coll_BulkWrite. rewrite HBW.
    assert (Hext' : Extends (writes_succeed env) (w_store w) coll' [(batch s, res, err)]).
    { destruct Hext as [H1 H2]. split; [exact H1|]. intros Hok. apply H2, Hok. }
    assert (Hne : Forall (fun o => models_of o <> []) [(batch s, res, err)]).
    { constructor; [|constructor]. unfold models_of. cbn [fst].
      intros Hnil. apply Hlen. by rewrite Hnil. }
    unfold sum_credited, credited, models_of.
    cbn [map foldr concat fst snd flat_map flush_events].
    rewrite !app_nil_r.
    destruct err as [e|]; destruct res as [r|]; eexists _, _;
      (split; [reflexivity|]);
      cbn [batch inserted w_trace w_removed w_sleeps w_store push mret M_ret log_Warnw emit];
      split_and!; try done; try lia.
    all: by rewrite <- app_assoc.
Qed.

Lemma staged_cons_skip keys now c rest :
  key_of c ∈ keys -> staged keys now (c :: rest) = staged keys now rest.
Proof.
  intros H. unfold staged, key_absent. cbn [List.filter].
  rewrite bool_decide_eq_false_2; [reflexivity|]. intros Hn. by apply Hn.
Qed.

Lemma staged_cons_keep keys now c rest :
  key_of c ∉ keys ->
  staged keys now (c :: rest) = upsert_model (with_UpdatedAt now c) :: staged keys now rest.
Proof.
  intros H. unfold staged, key_absent. cbn [List.filter].
  rewrite bool_decide_eq_true_2 by done. reflexivity.
Qed.

Lemma diff_loop_spec keys bulkSize now claims : forall s w,
  Forall upsert_shaped (batch s) ->
  exists outs s' w',
    diff_loop env keys bulkSize now claims s w = ((s', None), w')
    /\ Forall upsert_shaped (batch s')
    /\ inserted s' = inserted s + sum_credited outs
    /\ concat (map models_of outs) ++ batch s' = batch s ++ staged keys now claims
    /\ Forall (fun o => models_of o <> []) outs
    /\ w_trace w' = w_trace w ++ flat_map flush_events outs
    /\ w_removed w' = w_removed w
    /\ w_sleeps w' = w_sleeps w
    /\ Extends (writes_succeed env) (w_store w) (w_store w') outs.
Proof.
  induction claims as [|c rest IH]; intros s w Hshape.
  - exists [], s, w. cbn [diff_loop flat_map map concat app].
    unfold staged. cbn [List.filter map]. rewrite !app_nil_r.
    split_and!; try done.
    + unfold sum_credited. cbn [map foldr]. lia.
    + apply Extends_refl.
  - cbn [diff_loop]. fold (key_of c).
    destruct (decide (key_of c ∈ keys)) as [Hin|Hout].
    + rewrite staged_cons_skip by done. by apply IH.
    + rewrite staged_cons_keep by done.
      set (m := upsert_model (with_UpdatedAt now c)).
      set (s1 := {| batch := batch s ++ [m]; inserted := inserted s;
                    prepared := prepared s + 1 |}).
      assert (Hshape1 : Forall upsert_shaped (batch s1)).
      { cbn [s1 batch]. apply Forall_app. split; [done|].
        constructor; [|constructor]. by exists (with_UpdatedAt now c). }
      destruct (bulkSize <=? Z.of_nat (length (batch s1))).
      * destruct (flushBatch_spec s1 w Hshape1)
          as (o1 & s2 & w2 & Hfl & Hb2 & Hi2 & Hm2 & Hn2 & Ht2 & Hr2 & Hs2 & He2).
        unfold mbind, M_bind. rewrite Hfl.
        assert (Hshape2 : Forall upsert_shaped (batch s2)) by (rewrite Hb2; constructor).
        destruct (IH s2 w2 Hshape2)
          as (o3 & s3 & w3 & Hl & Hsh3 & Hi3 & Hm3 & Hn3 & Ht3 & Hr3 & Hs3 & He3).
        exists (o1 ++ o3), s3, w3. rewrite Hl.
        split_and!; try done.
        -- rewrite Hi3, Hi2, sum_credited_app. cbn [s1 inserted]. lia.
        -- rewrite map_app, concat_app, <- app_assoc, Hm3, Hb2, Hm2.
           cbn [s1 batch app]. by rewrite <- app_assoc.
        -- apply Forall_app. by split.
        -- rewrite Ht3, Ht2, flat_map_app. by rewrite app_assoc.
        -- congruence.
        -- congruence.
        -- eapply Extends_trans; eauto.
      * destruct (IH s1 w Hshape1)
          as (o3 & s3 & w3 & Hl & Hsh3 & Hi3 & Hm3 & Hn3 & Ht3 & Hr3 & Hs3 & He3).
        exists o3, s3, w3. split_and!; try done.
        rewrite Hm3. cbn [s1 batch]. by rewrite <- app_assoc.
Qed.

Lemma insertDiffClaims_spec claims keys bulkSize w :
  exists outs ins w',
    insertDiffClaims env claims keys bulkSize w = ((ins, None), w')
    /\ ins = sum_credited outs
    /\ concat (map models_of outs) = staged keys (clock env (w_nows w)) claims
    /\ Forall (fun o => models_of o <> []) outs
    /\ w_trace w' = w_trace w ++ flat_map flush_events outs
                      ++ (if decide (length claims = 0%nat) then [] else finished_log)
    /\ w_removed w' = w_removed w
    /\ w_sleeps w' = w_sleeps w
    /\ Extends (writes_succeed env) (w_store w) (w_store w') outs.
Proof.
  unfold insertDiffClaims. destruct (decide (length claims = 0%nat)) as [Hlen|Hlen].
  - apply length_zero_iff_nil in Hlen. subst claims.
    exists [], 0, w. cbn [flat_map map concat app]. rewrite app_nil_r.
    split_and!; try done. apply Extends_refl.
  - unfold mbind, M_bind at 1. cbn [time_Now].
    set (w0 := {| w_store := w_store w; w_removed := w_removed w; w_sleeps := w_sleeps w;
                  w_bulks := w_bulks w; w_nows := S (w_nows w); w_trace := w_trace w |}).
    set (bs := if bulkSize <=? 0 then 2000 else bulkSize).
    destruct (diff_loop_spec keys bs (clock env (w_nows w)) claims
                {| batch := []; inserted := 0; prepared := 0 |} w0 ltac:(constructor))
      as (o1 & s1 & w1 & Hl & Hsh1 & Hi1 & Hm1 & Hn1 & Ht1 & Hr1 & Hs1 & He1).
    unfold mbind, M_bind at 1. rewrite Hl.
    destruct (flushBatch_spec s1 w1 Hsh1)
      as (o2 & s2 & w2 & Hfl & Hb2 & Hi2 & Hm2 & Hn2 & Ht2 & Hr2 & Hs2 & He2).
    unfold mbind, M_bind at 1. rewrite Hfl.
    exists (o1 ++ o2), (inserted s2), (push (EvLog Info "diff insert finished") w2).
    split_and!.
    + reflexivity.
    + rewrite Hi2, Hi1, sum_credited_app. cbn [inserted]. lia.
    + rewrite map_app, concat_app, Hm2. cbn [batch app] in Hm1. exact Hm1.
    + apply Forall_app. by split.
    + cbn [push w_trace]. rewrite Ht2, Ht1, flat_map_app. cbn [w0 w_trace finished_log].
      by rewrite <- !app_assoc.
    + cbn [push w_removed]. rewrite Hr2, Hr1. reflexivity.
    + cbn [push w_sleeps]. rewrite Hs2, Hs1. reflexivity.
    + cbn [push w_store]. eapply Extends_trans; eauto.
Qed.

End ImporterFacts.

(** ** The index scan and the filter *)

Lemma scan_keys_ok coll : forall acc,
  scan_keys (map (fun d => Ok (project_key d)) coll) acc = Ok (index_of coll ∪ acc).
Proof.
  unfold index_of.
  induction coll as [|d rest IH]; intros acc; cbn [map scan_keys list_to_set].
  - f_equal. set_solver.
  - rewrite IH. f_equal. unfold key_of. cbn [project_key k_ProviderID k_DataCID k_Sector k_TermStart].
    set_solver.
Qed.

Lemma scan_keys_err docs e : forall acc,
  Forall (fun r => is_ok r = true) docs ->
  scan_keys (docs ++ [Err e]) acc = Err e.
Proof.
  induction docs as [|[d|e'] rest IH]; intros acc Hok; cbn [app scan_keys].
  - reflexivity.
  - apply IH. by inversion Hok.
  - inversion Hok as [|? ? Hd _]. discriminate Hd.
Qed.

Lemma elem_of_index_of k coll : k ∈ index_of coll <-> exists d, d ∈ coll /\ key_of d = k.
Proof.
  unfold index_of. rewrite elem_of_list_to_set, list_elem_of_In, in_map_iff.
  split; intros (d & H1 & H2); exists d; rewrite ?list_elem_of_In in *; auto.
Qed.

Section StageFacts.
Variable Sscan_int64 : string -> option Z.
Variable env : Env.

Lemma loadAllClaimKeysFromDB_spec w :
  exists r,
    loadAllClaimKeysFromDB env w = (r, push EvFind w)
    /\ (db_find env = FindOk -> r = Ok (index_of (w_store w)))
    /\ (forall keys, r = Ok keys -> keys = index_of (w_store w)).
Proof.
  unfold loadAllClaimKeysFromDB, mbind, M_bind, coll_Find, Find.
  destruct (db_find env) as [|e|n e|n e]; cbn [cur_docs cur_Err mret M_ret].
  - rewrite scan_keys_ok, union_empty_r_L. eexists. split; [reflexivity|].
    split; [done|]. intros keys H. by injection H as <-.
  - eexists. split; [reflexivity|]. split; [done|]. intros keys H. discriminate H.
  - rewrite scan_keys_err.
    + eexists. split; [reflexivity|]. split; [done|]. intros keys H. discriminate H.
    + apply Forall_take. rewrite Forall_forall. intros r Hr.
      apply list_elem_of_In, in_map_iff in Hr as (d & <- & _). reflexivity.
  - destruct (scan_keys _ _); eexists; (split; [reflexivity|]);
      (split; [done|]); intros keys H; discriminate H.
Qed.

Lemma elem_of_filter_fold active now l : forall acc c,
  c ∈ foldl (filter_step Sscan_int64 active now) acc l <->
  c ∈ acc \/ exists k rec, (k, rec) ∈ l /\ filecoinClaim.Provider rec ∈ active
                          /\ c = claim_of_entry Sscan_int64 now k rec.
Proof.
  induction l as [|[k rec] l IH]; intros acc c; cbn [foldl].
  - split; [by left|]. intros [H|(k & rec & H & _)]; [done|].
    exfalso. eapply not_elem_of_nil; eauto.
  - rewrite IH. unfold filter_step.
    destruct (decide (filecoinClaim.Provider rec ∈ active)) as [Hin|Hout].
    + rewrite elem_of_app, list_elem_of_singleton. split.
      * intros [[H| ->]|(k' & rec' & H & Ha & He)].
        -- by left.
        -- right. exists k, rec. split_and!; [by left|done|done].
        -- right. exists k', rec'. split_and!; [by right|done|done].
      * intros [H|(k' & rec' & [[= -> ->]|H]%elem_of_cons & Ha & He)].
        -- by left; left.
        -- by left; right.
        -- right. by exists k', rec'.
    + split.
      * intros [H|(k' & rec' & H & Ha & He)]; [by left|].
        right. exists k', rec'. split_and!; [by right|done|done].
      * intros [H|(k' & rec' & [[= -> ->]|H]%elem_of_cons & Ha & He)]; [by left|done|].
        right. by exists k', rec'.
Qed.

Lemma elem_of_filtered active now rpc c :
  c ∈ filtered Sscan_int64 active now rpc <->
  exists k rec, Result rpc !! k = Some rec /\ filecoinClaim.Provider rec ∈ active
                /\ c = claim_of_entry Sscan_int64 now k rec.
Proof.
  unfold filtered. rewrite elem_of_filter_fold. split.
  - intros [H|(k & rec & H & Ha & He)]; [exfalso; eapply not_elem_of_nil; eauto|].
    exists k, rec. by rewrite <- elem_of_map_to_list.
  - intros (k & rec & H & Ha & He). right. exists k, rec.
    by rewrite elem_of_map_to_list.
Qed.

Lemma loadClaimsFromFileFiltered_spec active w :
  exists r w',
    loadClaimsFromFileFiltered Sscan_int64 env active w = (r, w')
    /\ w_store w' = w_store w /\ w_removed w' = w_removed w
    /\ w_sleeps w' = w_sleeps w /\ w_bulks w' = w_bulks w
    /\ (exists evs, w_trace w' = w_trace w ++ EvOpen :: evs
                    /\ (evs = [] \/ evs = [EvDecode]))
    /\ (forall claims, r = Ok claims ->
          exists rpc, Decode_rpcAllClaims (fs_content env) = Ok rpc
                      /\ claims = filtered Sscan_int64 active (clock env (w_nows w)) rpc
                      /\ w_nows w' = S (w_nows w)
                      /\ w_trace w' = w_trace w ++ [EvOpen; EvDecode])
    /\ (readable env w -> forall rpc, Decode_rpcAllClaims (fs_content env) = Ok rpc ->
          r = Ok (filtered Sscan_int64 active (clock env (w_nows w)) rpc)).
Proof.
  unfold loadClaimsFromFileFiltered, mbind, M_bind, os_Open, readable.
  destruct (w_removed w) eqn:Hrm.
  { eexists _, _. split; [reflexivity|]. cbn [push w_store w_removed w_sleeps w_bulks w_trace].
    split_and!; try done.
    - exists []. auto.
    - intros [H _]. discriminate H. }
  destruct (fs_stat env (w_sleeps w)) as [sz|e] eqn:Hst.
  2:{ eexists _, _. split; [reflexivity|]. cbn [push w_store w_removed w_sleeps w_bulks w_trace].
      split_and!; try done.
      - exists []. auto.
      - intros [_ [sz H]]. discriminate H. }
  cbn [emit]. destruct (Decode_rpcAllClaims (fs_content env)) as [rpc|e] eqn:Hd.
  - eexists _, _. split; [reflexivity|].
    cbn [push w_store w_removed w_sleeps w_bulks w_trace w_nows time_Now mret M_ret].
    split_and!; try done.
    + exists [EvDecode]. rewrite <- app_assoc. auto.
    + intros claims [= <-]. exists rpc. rewrite <- app_assoc. done.
    + intros _ rpc' [= <-]. done.
  - eexists _, _. split; [reflexivity|].
    cbn [push w_store w_removed w_sleeps w_bulks w_trace w_nows mret M_ret].
    split_and!; try done.
    exists [EvDecode]. rewrite <- app_assoc. auto.
Qed.

End StageFacts.

(** ** The stability gate *)

Lemma forallb_app_true {A} (f : A -> bool) l1 l2 :
  forallb f l1 = true -> forallb f l2 = true -> forallb f (l1 ++ l2) = true.
Proof. intros H1 H2. rewrite forallb_app, H1, H2. reflexivity. Qed.

Section GateFacts.
Variable Sscan_int64 : string -> option Z.
Variable env : Env.

Lemma stability_loop_spec retries : forall prevSize w,
  w_removed w = false ->
  exists w' evs,
    stability_loop env retries prevSize w
      = ((poll_verdict env retries (w_sleeps w) prevSize).1, w')
    /\ w_sleeps w' = (poll_verdict env retries (w_sleeps w) prevSize).2
    /\ w_store w' = w_store w /\ w_removed w' = false
    /\ w_bulks w' = w_bulks w /\ w_nows w' = w_nows w
    /\ w_trace w' = w_trace w ++ evs /\ forallb is_gate_event evs = true.
Proof.
  induction retries as [|n IH]; intros prev w Hrm.
  - exists w, []. cbn [stability_loop poll_verdict fst snd mret M_ret].
    rewrite app_nil_r. done.
  - cbn [stability_loop poll_verdict].
    unfold mbind, M_bind, time_Sleep, os_Stat.
    cbn [push w_removed w_sleeps w_store w_bulks w_nows w_trace].
    rewrite Hrm. destruct (fs_stat env (S (w_sleeps w))) as [sz|e] eqn:Hst.
    + destruct (sz =? prev).
      * eexists _, [EvSleep; EvStat (StatOk sz)]. split; [reflexivity|].
        cbn [fst snd push w_removed w_sleeps w_store w_bulks w_nows w_trace mret M_ret].
        split_and!; try done. by rewrite <- app_assoc.
      * cbn [log_Infow emit].
        match goal with |- context [stability_loop env n sz ?w0] =>
          destruct (IH sz w0 eq_refl) as (w' & evs & Heq & Hsl & Hst' & Hrm' & Hb & Hn & Ht & Hq)
        end.
        cbn [push w_removed w_sleeps w_store w_bulks w_nows w_trace] in *.
        rewrite Heq.
        exists w', ([EvSleep; EvStat (StatOk sz);
                     EvLog Info "dump file still growing, wait more..."] ++ evs).
        split; [reflexivity|].
        split_and!; try done.
        rewrite Ht, <- !app_assoc. reflexivity.
    + eexists _, [EvSleep; EvStat (StatErr e)]. split; [reflexivity|].
      cbn [fst snd push w_removed w_sleeps w_store w_bulks w_nows w_trace mret M_ret].
      split_and!; try done. by rewrite <- app_assoc.
Qed.

Lemma run_gate bulkSize store :
  exists wq, untouched store wq
    /\ runFromTodayDumpOnce Sscan_int64 env bulkSize (boot store) =
       match fs_stat env 0 with
       | StatErr e => (if IsNotExist e then None else Some (Wrapped "stat dump file" e), wq)
       | StatOk prevSize =>
           match (poll_verdict env stableCheckRetries 0 prevSize).1 with
           | Err e => (Some e, wq)
           | Ok false => (None, wq)
           | Ok true => after_gate Sscan_int64 env bulkSize wq
           end
       end
    /\ (forall prevSize, fs_stat env 0 = StatOk prevSize ->
          w_sleeps wq = (poll_verdict env stableCheckRetries 0 prevSize).2).
Proof.
  unfold runFromTodayDumpOnce, mbind, M_bind, os_Stat, log_Infow at 1, emit.
  cbn [boot push w_removed w_sleeps].
  destruct (fs_stat env 0) as [s0|e] eqn:H0.
  - match goal with |- context [stability_loop env stableCheckRetries s0 ?w0] =>
      destruct (stability_loop_spec stableCheckRetries s0 w0 eq_refl)
        as (w' & evs & Heq & Hsl & Hst & Hrm & Hb & Hn & Ht & Hq)
    end.
    cbn [boot push w_removed w_sleeps w_store w_bulks w_nows w_trace app] in *.
    rewrite Heq.
    destruct (poll_verdict env stableCheckRetries 0 s0) as [[[|]|e] last] eqn:Hpv; cbn [fst snd] in *.
    + exists w'. split_and!; [|reflexivity|by intros ? [= <-]; rewrite Hpv].
      unfold untouched. split_and!; try done. rewrite Ht. exact Hq.
    + exists (push (EvLog Warn "dump file not stable, skip this run") w').
      split_and!; [|reflexivity|by intros ? [= <-]; rewrite Hpv].
      unfold untouched. cbn [log_Warnw emit push w_removed w_sleeps w_store w_bulks w_nows w_trace].
      split_and!; try done. rewrite Ht.
      change (EvLog Info "run start" :: EvStat (StatOk s0) :: evs)
        with ([EvLog Info "run start"; EvStat (StatOk s0)] ++ evs).
      rewrite <- app_assoc. apply forallb_app_true; [done|]. by apply forallb_app_true.
    + exists w'. split_and!; [|reflexivity|by intros ? [= <-]; rewrite Hpv].
      unfold untouched. split_and!; try done. rewrite Ht. exact Hq.
  - destruct (IsNotExist e); eexists; (split_and!; [|reflexivity|by intros ? [=]]);
      unfold untouched;
      cbn [log_Infow emit mret M_ret push w_removed w_sleeps w_store w_bulks w_nows w_trace app];
      done.
Qed.

Lemma poll_stable retries : forall last prev k,
  fs_stat env last = StatOk prev -> (k < retries)%nat ->
  settled env (last + k) -> (forall j, (j < k)%nat -> changing env (last + j)) ->
  poll_verdict env retries last prev = (Ok true, S (last + k)).
Proof.
  induction retries as [|n IH]; intros last prev k Hprev Hk Hset Hch; [lia|].
  cbn [poll_verdict]. destruct k as [|k].
  - destruct Hset as (a & Ha & Hb). rewrite Nat.add_0_r in *.
    rewrite Hb. assert (a = prev) by congruence. subst a. by rewrite Z.eqb_refl.
  - destruct (Hch 0%nat ltac:(lia)) as (a & b & Ha & Hb & Hne). rewrite Nat.add_0_r in *.
    rewrite Hb. assert (a = prev) by congruence. subst a.
    rewrite (proj2 (Z.eqb_neq b prev) Hne).
    rewrite (IH (S last) b k Hb ltac:(lia)).
    + f_equal. lia.
    + by replace (S last + k)%nat with (last + S k)%nat by lia.
    + intros j Hj. replace (S last + j)%nat with (last + S j)%nat by lia. apply Hch. lia.
Qed.

Lemma poll_never retries : forall last prev,
  fs_stat env last = StatOk prev ->
  (forall j, (j < retries)%nat -> changing env (last + j)) ->
  poll_verdict env retries last prev = (Ok false, (last + retries)%nat).
Proof.
  induction retries as [|n IH]; intros last prev Hprev Hch; cbn [poll_verdict].
  - by rewrite Nat.add_0_r.
  - destruct (Hch 0%nat ltac:(lia)) as (a & b & Ha & Hb & Hne). rewrite Nat.add_0_r in *.
    rewrite Hb. assert (a = prev) by congruence. subst a.
    rewrite (proj2 (Z.eqb_neq b prev) Hne).
    rewrite (IH (S last) b Hb).
    + f_equal. lia.
    + intros j Hj. replace (S last + j)%nat with (last + S j)%nat by lia. apply Hch. lia.
Qed.

Lemma poll_true_inv retries : forall last prev l,
  fs_stat env last = StatOk prev ->
  poll_verdict env retries last prev = (Ok true, l) ->
  exists k, (k < retries)%nat /\ l = S (last + k)
            /\ settled env (last + k)
            /\ forall j, (j < k)%nat -> changing env (last + j).
Proof.
  induction retries as [|n IH]; intros last prev l Hprev Hv; cbn [poll_verdict] in Hv.
  - discriminate Hv.
  - destruct (fs_stat env (S last)) as [sz|e] eqn:Hst; [|discriminate Hv].
    destruct (sz =? prev) eqn:Heq.
    + apply Z.eqb_eq in Heq. subst sz. injection Hv as <-.
      exists 0%nat. rewrite Nat.add_0_r. split_and!; [lia|done| |intros j Hj; lia].
      by exists prev.
    + apply Z.eqb_neq in Heq.
      destruct (IH (S last) sz l Hst Hv) as (k & Hk & -> & Hset & Hch).
      exists (S k). split_and!; [lia|f_equal; lia| |].
      * by replace (last + S k)%nat with (S last + k)%nat by lia.
      * intros [|j] Hj.
        -- rewrite Nat.add_0_r. by exists prev, sz.
        -- replace (last + S j)%nat with (S last + j)%nat by lia. apply Hch. lia.
Qed.

End GateFacts.

(** ** Observations on traces *)

Lemma bulk_outcomes_app t1 t2 :
  bulk_outcomes (t1 ++ t2) = bulk_outcomes t1 ++ bulk_outcomes t2.
Proof. unfold bulk_outcomes. apply omap_app. Qed.

Lemma bulk_outcomes_flush outs : bulk_outcomes (flat_map flush_events outs) = outs.
Proof.
  induction outs as [|[[models res] err] outs IH]; [reflexivity|].
  cbn [flat_map]. rewrite bulk_outcomes_app, IH.
  destruct err; reflexivity.
Qed.

Lemma cleaned_flush outs : cleaned (flat_map flush_events outs) = false.
Proof.
  induction outs as [|[[models res] err] outs IH]; [reflexivity|].
  cbn [flat_map]. unfold cleaned in *. rewrite existsb_app, IH.
  destruct err; reflexivity.
Qed.

Lemma gate_trace_quiet t :
  forallb is_gate_event t = true ->
  bulk_outcomes t = [] /\ parsed t = false /\ scanned t = false /\ cleaned t = false.
Proof.
  induction t as [|ev t IH]; [done|].
  cbn [forallb]. intros [Hev Ht]%andb_true_iff.
  destruct (IH Ht) as (Hb & Hp & Hs & Hc).
  unfold bulk_outcomes, parsed, scanned, cleaned in *.
  destruct ev; try discriminate Hev; simpl; auto.
Qed.

Lemma nonempty_batches_nil (outs : list bulk_outcome) :
  Forall (fun o => models_of o <> []) outs ->
  concat (map models_of outs) = [] -> outs = [].
Proof.
  intros Hne Hnil. destruct outs as [|o outs]; [reflexivity|].
  inversion Hne as [|? ? Ho _]. cbn [map concat] in Hnil.
  apply app_eq_nil in Hnil as [Hnil _]. by destruct Ho.
Qed.

Lemma elem_of_staged keys now claims m :
  m ∈ staged keys now claims <->
  exists c, c ∈ claims /\ (key_of c ∉ keys) /\ m = upsert_model (with_UpdatedAt now c).
Proof.
  unfold staged. rewrite list_elem_of_In, in_map_iff. split.
  - intros (c & <- & [Hc Hk]%filter_In). exists c.
    rewrite list_elem_of_In. split_and!; [done| |done].
    unfold key_absent in Hk. by apply bool_decide_eq_true in Hk.
  - intros (c & Hc & Hk & ->). exists c. split; [done|].
    apply filter_In. rewrite <- list_elem_of_In. split; [done|].
    unfold key_absent. by apply bool_decide_eq_true.
Qed.

Lemma staged_nil keys now claims :
  (forall c, c ∈ claims -> key_of c ∈ keys) -> staged keys now claims = [].
Proof.
  intros Hall. induction claims as [|c rest IH]; [reflexivity|].
  rewrite staged_cons_skip.
  - apply IH. intros c' Hc'. apply Hall. by right.
  - apply Hall. by left.
Qed.

Lemma key_of_with_UpdatedAt now c : key_of (with_UpdatedAt now c) = key_of c.
Proof. reflexivity. Qed.

Lemma present_key m coll :
  upsert_shaped m -> present m coll = true ->
  key_of (update_payload (Update m)) ∈ index_of coll.
Proof.
  intros [c ->]. unfold present. rewrite existsb_exists.
  intros (d & Hd & Hm). apply matches_key in Hm.
  apply elem_of_index_of. exists d. by rewrite list_elem_of_In.
Qed.

Lemma bulk_outcomes_snoc t ev :
  bulk_outcomes (t ++ [ev]) = bulk_outcomes t ++ from_option (fun o => [o]) [] (outcome_of ev).
Proof. rewrite bulk_outcomes_app. by destruct ev. Qed.

Lemma bulk_outcomes_one ev :
  bulk_outcomes [ev] = from_option (fun o => [o]) [] (outcome_of ev).
Proof. by destruct ev. Qed.

Lemma cleaned_app t1 t2 : cleaned (t1 ++ t2) = cleaned t1 || cleaned t2.
Proof. apply existsb_app. Qed.

Lemma parsed_app t1 t2 : parsed (t1 ++ t2) = parsed t1 || parsed t2.
Proof. apply existsb_app. Qed.

Lemma scanned_app t1 t2 : scanned (t1 ++ t2) = scanned t1 || scanned t2.
Proof. apply existsb_app. Qed.

Section RunFacts.
Variable Sscan_int64 : string -> option Z.
Variable env : Env.

Lemma ingest_spec active bulkSize w :
  exists r w' outs,
    ingest Sscan_int64 env active bulkSize w = (r, w')
    /\ bulk_outcomes (w_trace w') = bulk_outcomes (w_trace w) ++ outs
    /\ Forall (fun o => models_of o <> []) outs
    /\ Extends (writes_succeed env) (w_store w) (w_store w') outs
    /\ parsed (w_trace w') = true
    /\ w_sleeps w' = w_sleeps w
    /\ (((exists e, r = Some e) /\ outs = [] /\ w_store w' = w_store w
         /\ cleaned (w_trace w') = cleaned (w_trace w)
         /\ w_removed w' = w_removed w)
        \/ (r = None /\ cleaned (w_trace w') = true
            /\ w_removed w' = match fs_remove env with
                              | None => true | Some _ => w_removed w end
            /\ exists rpc,
                 Decode_rpcAllClaims (fs_content env) = Ok rpc
                 /\ concat (map models_of outs)
                    = staged (index_of (w_store w)) (clock env (S (w_nows w)))
                        (filtered Sscan_int64 active (clock env (w_nows w)) rpc))).
Proof.
  destruct (loadClaimsFromFileFiltered_spec Sscan_int64 env active w)
    as (r1 & w1 & H1 & Hst1 & Hrm1 & Hsl1 & Hb1 & (evs1 & Ht1 & Hevs1) & Hok1 & _).
  unfold ingest, mbind, M_bind. rewrite H1.
  assert (Hq1 : bulk_outcomes (w_trace w1) = bulk_outcomes (w_trace w)
                /\ cleaned (w_trace w1) = cleaned (w_trace w)
                /\ parsed (w_trace w1) = true).
  { rewrite Ht1, bulk_outcomes_app, cleaned_app, parsed_app.
    destruct Hevs1 as [-> | ->]; cbn; by rewrite app_nil_r, !orb_false_r, ?orb_true_r. }
  destruct Hq1 as (Hbo1 & Hcl1 & Hpa1).
  destruct r1 as [claims|e].
  { destruct (Hok1 claims eq_refl) as (rpc & Hdec & Hclaims & Hnow1 & _).
    cbn [log_Infow emit].
    destruct (loadAllClaimKeysFromDB_spec env
                (push (EvLog Info "claims loaded from file (filtered by active providers)") w1))
      as (r2 & H2 & _ & Hkeys).
    rewrite H2. destruct r2 as [keys|e].
    { specialize (Hkeys keys eq_refl). cbn [push w_store] in Hkeys. rewrite Hst1 in Hkeys.
      match goal with |- context [insertDiffClaims env claims keys bulkSize ?w4] =>
        destruct (insertDiffClaims_spec env claims keys bulkSize w4)
          as (outs & ins & w5 & H5 & Hins & Hmod & Hne & Ht5 & Hrm5 & Hsl5 & Hext)
      end.
      rewrite H5. cbn [push w_trace w_store w_sleeps w_removed w_nows] in *.
      set (fin := if decide (length claims = 0%nat) then [] else finished_log) in *.
      assert (Hfin : bulk_outcomes fin = [] /\ cleaned fin = false /\ parsed fin = false).
      { unfold fin. by destruct (decide _). }
      destruct Hfin as (Hbof & Hclf & Hpaf).
      set (logs := match fs_remove env with
                   | Some _ => EvLog Warn "failed to remove dump file"
                   | None => EvLog Info "dump file removed"
                   end).
      exists None.
      exists (push (EvLog Info "run end") (push logs
                (push (EvRemove (fs_remove env))
                   {| w_store := w_store w5;
                      w_removed := match fs_remove env with
                                   | None => true | Some _ => w_removed w5 end;
                      w_sleeps := w_sleeps w5; w_bulks := w_bulks w5; w_nows := w_nows w5;
                      w_trace := w_trace w5 |}))).
      exists outs.
      split.
      { unfold os_Remove, logs. destruct (fs_remove env); reflexivity. }
      cbn [push w_trace w_store w_sleeps w_removed].
      assert (Hlogs : outcome_of logs = None /\ is_remove logs = false /\ is_parse logs = false).
      { unfold logs. by destruct (fs_remove env). }
      destruct Hlogs as (Hlo & Hlr & Hlp).
      split_and!.
      - rewrite Ht5, !bulk_outcomes_app, !bulk_outcomes_one, bulk_outcomes_flush.
        rewrite Hbof, Hlo, Hbo1. cbn [outcome_of from_option].
        by rewrite !app_nil_r.
      - exact Hne.
      - rewrite Hst1 in Hext. exact Hext.
      - rewrite !parsed_app, Ht5, !parsed_app, Hpa1. reflexivity.
      - congruence.
      - right. split_and!.
        + reflexivity.
        + rewrite !cleaned_app. cbn [cleaned existsb is_remove].
          by rewrite !orb_true_r.
        + destruct (fs_remove env); congruence.
        + exists rpc. split; [done|]. rewrite Hmod, Hkeys, Hnow1, Hclaims. reflexivity. }
    eexists (Some _), _, []. cbn [mret M_ret]. split; [reflexivity|].
    cbn [push w_trace w_store w_sleeps w_removed].
    rewrite !bulk_outcomes_app, !bulk_outcomes_one, !cleaned_app, !parsed_app, Hbo1, Hcl1, Hpa1.
    cbn [outcome_of from_option cleaned existsb is_remove orb]. rewrite !orb_false_r, !app_nil_r.
    split_and!; try done.
    - rewrite Hst1. apply Extends_refl.
    - left. split_and!; try done. by eexists. }
  exists (Some e), w1, []. cbn [mret M_ret]. rewrite Hbo1, Hcl1, Hpa1, app_nil_r.
  split_and!; try done.
  - rewrite Hst1. apply Extends_refl.
  - left. split_and!; try done. by exists e.
Qed.

End RunFacts.

(** ** Summary of a run *)

Lemma untouched_quiet store w : untouched store w -> quiet store w.
Proof.
  intros (Hs & Hr & _ & _ & Hg). destruct (gate_trace_quiet _ Hg) as (H1 & H2 & H3 & H4).
  by split_and!.
Qed.

Lemma quiet_log store w level msg : quiet store w -> quiet store (push (EvLog level msg) w).
Proof.
  intros (Hs & Hr & H1 & H2 & H3 & H4). unfold quiet. cbn [push w_store w_removed w_trace].
  rewrite bulk_outcomes_app, parsed_app, scanned_app, cleaned_app, H1, H2, H3, H4.
  by split_and!.
Qed.

Section RunSummary.
Variable Sscan_int64 : string -> option Z.
Variable env : Env.

Lemma dump_stable_gate :
  dump_stable env ->
  exists prevSize k, fs_stat env 0 = StatOk prevSize /\ (k < stableCheckRetries)%nat
    /\ poll_verdict env stableCheckRetries 0 prevSize = (Ok true, S k)
    /\ settled env k.
Proof.
  intros (k & Hk & Hset & Hch).
  assert (H0 : exists prev, fs_stat env 0 = StatOk prev).
  { destruct k as [|k].
    - destruct Hset as (a & Ha & _). by exists a.
    - destruct (Hch 0%nat ltac:(lia)) as (a & b & Ha & _). by exists a. }
  destruct H0 as (prev & H0). exists prev, k. split_and!; try done.
  apply (poll_stable env stableCheckRetries 0 prev k H0 Hk Hset Hch).
Qed.

Lemma dump_never_stable_gate :
  dump_never_stable env ->
  exists prevSize, fs_stat env 0 = StatOk prevSize
    /\ poll_verdict env stableCheckRetries 0 prevSize = (Ok false, stableCheckRetries).
Proof.
  intros Hch.
  destruct (Hch 0%nat ltac:(unfold stableCheckRetries; lia)) as (a & b & Ha & _).
  exists a. split; [done|].
  apply (poll_never env stableCheckRetries 0 a Ha Hch).
Qed.

Lemma early_exit_stable :
  dump_stable env ->
  early_exit env =
    match loadActiveProviders (api env) with
    | Err e => Some (Some (Wrapped "load active providers" e))
    | Ok active => if decide (size active = 0%nat) then Some None else None
    end.
Proof.
  intros (prev & k & H0 & _ & Hv & _)%dump_stable_gate.
  unfold early_exit. by rewrite H0, Hv.
Qed.

Lemma early_exit_never_stable : dump_never_stable env -> early_exit env = Some None.
Proof.
  intros (prev & H0 & Hv)%dump_never_stable_gate.
  unfold early_exit. by rewrite H0, Hv.
Qed.

Lemma early_exit_absent : dump_absent env -> early_exit env = Some None.
Proof. unfold dump_absent, early_exit. by intros ->. Qed.

Lemma early_exit_None :
  early_exit env = None ->
  dump_stable env
  /\ exists active, loadActiveProviders (api env) = Ok active /\ size active <> 0%nat.
Proof.
  unfold early_exit. destruct (fs_stat env 0) as [prev|e] eqn:H0; [|done].
  destruct (poll_verdict env stableCheckRetries 0 prev) as [[[|]|e] last] eqn:Hv;
    cbn [fst]; try done.
  destruct (loadActiveProviders (api env)) as [active|e]; [|done].
  destruct (decide (size active = 0%nat)); [done|]. intros _. split; [|by exists active].
  destruct (poll_true_inv env stableCheckRetries 0 prev last H0 Hv)
    as (k & Hk & _ & Hset & Hch).
  by exists k.
Qed.

Lemma run_spec bulkSize store :
  exists r w' outs,
    runFromTodayDumpOnce Sscan_int64 env bulkSize (boot store) = (r, w')
    /\ bulk_outcomes (w_trace w') = outs
    /\ Forall (fun o => models_of o <> []) outs
    /\ Extends (writes_succeed env) store (w_store w') outs
    /\ match early_exit env with
       | Some r0 => r = r0 /\ quiet store w'
       | None =>
           parsed (w_trace w') = true
           /\ exists active,
                loadActiveProviders (api env) = Ok active
                /\ (((exists e, r = Some e) /\ outs = [] /\ w_store w' = store
                     /\ cleaned (w_trace w') = false /\ w_removed w' = false)
                    \/ (r = None /\ cleaned (w_trace w') = true
                        /\ w_removed w' = match fs_remove env with
                                          | None => true | Some _ => false end
                        /\ exists rpc now now',
                             Decode_rpcAllClaims (fs_content env) = Ok rpc
                             /\ concat (map models_of outs)
                                = staged (index_of store) now'
                                    (filtered Sscan_int64 active now rpc)))
       end.
Proof.
  destruct (run_gate Sscan_int64 env bulkSize store) as (wq & Hun & Hrun & _).
  pose proof (untouched_quiet _ _ Hun) as Hq.
  assert (Hstop : forall r0 : option error, exists (r : option error) w' outs,
            (r0, wq) = (r, w') /\ bulk_outcomes (w_trace w') = outs
            /\ Forall (fun o => models_of o <> []) outs
            /\ Extends (writes_succeed env) store (w_store w') outs
            /\ r = r0 /\ quiet store w').
  { intros r0. exists r0, wq, []. destruct Hq as (Hs & Hr & H1 & H2 & H3 & H4).
    split_and!; try done. rewrite Hs. apply Extends_refl. }
  rewrite Hrun. unfold early_exit.
  destruct (fs_stat env 0) as [prev|e]; [|apply Hstop].
  destruct ((poll_verdict env stableCheckRetries 0 prev).1) as [[|]|e]; try apply Hstop.
  unfold after_gate, mbind, M_bind. cbn [log_Infow emit].
  pose proof (quiet_log store wq Info "using stable dump file" Hq) as Hq1.
  set (w1 := push (EvLog Info "using stable dump file") wq) in *.
  destruct (loadActiveProviders (api env)) as [active|e].
  2:{ exists (Some (Wrapped "load active providers" e)), w1, [].
      destruct Hq1 as (Hs & Hr & H1 & H2 & H3 & H4).
      split_and!; try done. rewrite Hs. apply Extends_refl. }
  destruct (decide (size active = 0%nat)) as [Hz|Hnz].
  { pose proof (quiet_log store w1 Warn "no active providers found; nothing to do" Hq1) as Hq2.
    eexists None, _, []. cbn [log_Warnw emit mret M_ret].
    destruct Hq2 as (Hs & Hr & H1 & H2 & H3 & H4).
    split_and!; try done. rewrite Hs. apply Extends_refl. }
  destruct (ingest_spec Sscan_int64 env active bulkSize w1)
    as (r & w' & outs & Hin & Hbo & Hne & Hext & Hpa & _ & Hcases).
  destruct Hq1 as (Hs & Hr & H1 & H2 & H3 & H4).
  rewrite H1 in Hbo. cbn [app] in Hbo. rewrite Hs in Hext.
  exists r, w', outs. split_and!; try done.
  exists active. split; [done|].
  destruct Hcases as [(He & Ho & Hst & Hcl & Hrm)|(Hr0 & Hcl & Hrm & rpc & Hdec & Hmod)].
  - left. split_and!; try done; congruence.
  - right. split_and!; try done.
    + rewrite Hrm, Hr. reflexivity.
    + rewrite Hs in Hmod. by exists rpc, (clock env (w_nows w1)), (clock env (S (w_nows w1))).
Qed.

End RunSummary.

(** ** Active providers and matching documents *)

Lemma Extends_nil ok a b outs :
  concat (map models_of outs) = [] -> Extends ok a b outs -> b = a.
Proof.
  intros Hnil [(added & -> & _ & Hpay) _]. rewrite Hnil in Hpay.
  destruct added as [|d added]; [by rewrite app_nil_r|].
  destruct (Hpay d ltac:(by left)) as (m & Hm & _).
  exfalso. eapply not_elem_of_nil; eauto.
Qed.

Lemma index_of_app a b : index_of (a ++ b) = index_of a ∪ index_of b.
Proof. unfold index_of. rewrite map_app, list_to_set_app_L. reflexivity. Qed.

Lemma active_step_spec api tsk acc m id :
  id ∈ active_step api tsk acc m <-> id ∈ acc \/ resolves api tsk m id.
Proof.
  unfold active_step, resolves.
  destruct (StateMinerPower api m tsk) as [mp|e].
  2:{ split; [by left|]. intros [H|(mp & a & H & _)]; [done|discriminate H]. }
  destruct (hasNonZeroPower mp) eqn:Hp; cbn [negb].
  2:{ split; [by left|]. intros [H|(mp' & a & H & Hp' & _)]; [done|].
      injection H as <-. congruence. }
  destruct (StateLookupID api m tsk) as [a|e].
  2:{ split; [by left|]. intros [H|(mp' & a & _ & _ & H & _)]; [done|discriminate H]. }
  destruct (IDFromAddress a) as [id'|e] eqn:Hid.
  2:{ split; [by left|]. intros [H|(mp' & a' & _ & _ & H & H')]; [done|].
      injection H as <-. congruence. }
  rewrite elem_of_union, elem_of_singleton. split.
  - intros [->|H]; [right|by left]. by exists mp, a.
  - intros [H|(mp' & a' & _ & _ & H & H')]; [by right|].
    injection H as <-. left. congruence.
Qed.

Lemma active_fold_spec api tsk miners : forall acc id,
  id ∈ foldl (active_step api tsk) acc miners <->
  id ∈ acc \/ exists m, m ∈ miners /\ resolves api tsk m id.
Proof.
  induction miners as [|m miners IH]; intros acc id; cbn [foldl].
  - split; [by left|]. intros [H|(m & Hm & _)]; [done|].
    exfalso. eapply not_elem_of_nil; eauto.
  - rewrite IH, active_step_spec. split.
    + intros [[H|H]|(m' & Hm' & H)].
      * by left.
      * right. exists m. split; [by left|done].
      * right. exists m'. split; [by right|done].
    + intros [H|(m' & [->|Hm']%elem_of_cons & H)].
      * by left; left.
      * by left; right.
      * right. by exists m'.
Qed.

Lemma exec_upsert_match c coll d :
  d ∈ coll -> matches (Filter (upsert_model c)) d = true ->
  exec_model (upsert_model c) coll
  = (coll, {| MatchedCount := 1; ModifiedCount := 0; UpsertedCount := 0 |}).
Proof.
  intros Hd Hm. rewrite exec_upsert.
  replace (present (upsert_model c) coll) with true; [reflexivity|].
  symmetry. unfold present. apply existsb_exists. exists d.
  by rewrite <- list_elem_of_In.
Qed.

(** ** The claims of the specification *)

Lemma quiet_run_facts store (w : World) :
  quiet store w ->
  parsed (w_trace w) = false /\ scanned (w_trace w) = false
  /\ bulk_outcomes (w_trace w) = [] /\ cleaned (w_trace w) = false
  /\ w_store w = store /\ w_removed w = false.
Proof. intros (Hs & Hr & H1 & H2 & H3 & H4). by split_and!. Qed.

Lemma key_of_claim_of_entry S now now' k rec :
  key_of (claim_of_entry S now k rec) = key_of (claim_of_entry S now' k rec).
Proof. reflexivity. Qed.

(** C4 (lenient decode equivalence).  For every string [s], the content
    identifier decodes to [s] from the JSON string and from the object that
    holds it under the key "/"; and for every integer in the range of the
    field, a numeric field decodes to it from the JSON number and from the
    JSON string of its decimal numeral. *)
Theorem lenient_decode_equivalence (s : string) (n i : Z) :
  0 <= n <= maxUint64 -> 0 <= i <= maxInt64 ->
  (cidOrObj_UnmarshalJSON (JString s) = Ok s
   /\ cidOrObj_UnmarshalJSON (JObject [("/", JString s)]) = Ok s)
  /\ (u64OrStr_UnmarshalJSON (JNumber (FormatUint n)) = Ok n
      /\ u64OrStr_UnmarshalJSON (JString (FormatUint n)) = Ok n)
  /\ (i64OrStr_UnmarshalJSON (JNumber (FormatUint i)) = Ok i
      /\ i64OrStr_UnmarshalJSON (JString (FormatUint i)) = Ok i).
Proof.
  intros Hn Hi.
  assert (Hi' : 0 <= i <= maxUint64).
  { assert (maxUint64 = 18446744073709551615) by reflexivity.
    assert (maxInt64 = 9223372036854775807) by reflexivity. lia. }
  split; [split; reflexivity|]. split; split.
  - unfold u64OrStr_UnmarshalJSON, json_Unmarshal_uint64, json_Unmarshal_string; cbn [starts_with_quote negb].
    rewrite isValidNumber_FormatUint, ParseUint_FormatUint by assumption. reflexivity.
  - unfold u64OrStr_UnmarshalJSON, json_Unmarshal_uint64, json_Unmarshal_string; cbn [starts_with_quote negb]. rewrite ParseUint_FormatUint by assumption. reflexivity.
  - unfold i64OrStr_UnmarshalJSON, json_Unmarshal_int64, json_Unmarshal_string; cbn [starts_with_quote negb].
    rewrite isValidNumber_FormatUint, ParseInt_FormatUint by assumption. reflexivity.
  - unfold i64OrStr_UnmarshalJSON, json_Unmarshal_int64, json_Unmarshal_string; cbn [starts_with_quote negb]. rewrite ParseInt_FormatUint by assumption. reflexivity.
Qed.

Section Claims.
Variable Sscan_int64 : string -> option Z.

(** C1 (idempotence).  Take a first run that ingested the dump (it parsed
    the file and returned no error) and whose bulk writes the store applied.
    Every key the first run wrote is in the index that a second run builds
    from the store the first run left; and a second run over the same dump
    content with the same active providers, whatever else happens to it,
    submits no bulk write at all and leaves the store as it found it. *)
Theorem idempotence (env1 env2 : Env) (bulkSize1 bulkSize2 : Z) (store : list DBClaim)
    (r1 : option error) (w1 : World) :
  runFromTodayDumpOnce Sscan_int64 env1 bulkSize1 (boot store) = (r1, w1) ->
  parsed (w_trace w1) = true -> r1 = None ->
  writes_succeed env1 ->
  fs_content env2 = fs_content env1 ->
  loadActiveProviders (api env2) = loadActiveProviders (api env1) ->
  (forall m, m ∈ written (w_trace w1) ->
     key_of (update_payload (Update m)) ∈ index_of (w_store w1))
  /\ exists r2 w2,
       runFromTodayDumpOnce Sscan_int64 env2 bulkSize2 (boot (w_store w1)) = (r2, w2)
       /\ bulk_outcomes (w_trace w2) = []
       /\ w_store w2 = w_store w1.
Proof.
  intros Hrun1 Hparsed -> Hok Hcontent Hactive.
  destruct (run_spec Sscan_int64 env1 bulkSize1 store)
    as (r & w & outs1 & Hrun & Hbo1 & Hne1 & Hext1 & Hcase1).
  rewrite Hrun1 in Hrun. injection Hrun as <- <-.
  destruct (early_exit env1) as [r0|].
  { destruct Hcase1 as (_ & Hq). apply quiet_run_facts in Hq as (Hp & _). congruence. }
  destruct Hcase1 as (_ & active & Hact1 & [((e & He) & _)|(_ & _ & _ & Hdone)]); [done|].
  destruct Hdone as (rpc & n1 & n1' & Hdec1 & Hmod1).
  destruct Hext1 as [(added1 & Hst1 & _ & _) Hpres1].
  assert (Hshape1 : forall m, m ∈ concat (map models_of outs1) -> upsert_shaped m).
  { intros m. rewrite Hmod1. intros (c & _ & _ & ->)%elem_of_staged. by eexists. }
  assert (Hwritten : forall m, m ∈ written (w_trace w1) ->
            key_of (update_payload (Update m)) ∈ index_of (w_store w1)).
  { unfold written. rewrite Hbo1. intros m Hm.
    apply present_key; [by apply Hshape1|by apply Hpres1]. }
  split; [exact Hwritten|].
  assert (Hcovered : forall now c, c ∈ filtered Sscan_int64 active now rpc ->
            key_of c ∈ index_of (w_store w1)).
  { intros now c (k & rec & Hk & Hin & ->)%elem_of_filtered.
    rewrite (key_of_claim_of_entry Sscan_int64 now n1 k rec).
    set (c1 := claim_of_entry Sscan_int64 n1 k rec).
    assert (Hc1 : c1 ∈ filtered Sscan_int64 active n1 rpc).
    { apply elem_of_filtered. by exists k, rec. }
    destruct (decide (key_of c1 ∈ index_of store)) as [Hold|Hnew].
    - rewrite Hst1, index_of_app. set_solver.
    - assert (Hm : upsert_model (with_UpdatedAt n1' c1) ∈ written (w_trace w1)).
      { unfold written. rewrite Hbo1, Hmod1. apply elem_of_staged. by exists c1. }
      apply Hwritten in Hm. exact Hm. }
  destruct (run_spec Sscan_int64 env2 bulkSize2 (w_store w1))
    as (r2 & w2 & outs2 & Hrun2 & Hbo2 & Hne2 & Hext2 & Hcase2).
  exists r2, w2. split; [exact Hrun2|].
  destruct (early_exit env2) as [r0|].
  { destruct Hcase2 as (_ & Hq). by apply quiet_run_facts in Hq as (_ & _ & ? & _ & ? & _). }
  destruct Hcase2 as (_ & active2 & Hact2 & [(_ & Ho & Hs & _)|(_ & _ & _ & Hdone2)]).
  { by rewrite Hbo2, Ho. }
  destruct Hdone2 as (rpc2 & n2 & n2' & Hdec2 & Hmod2).
  assert (active2 = active) by congruence. assert (rpc2 = rpc) by congruence. subst.
  rewrite staged_nil in Hmod2 by (apply Hcovered).
  pose proof (nonempty_batches_nil _ Hne2 Hmod2) as Hnil.
  split; [done|]. by apply (Extends_nil _ _ _ _ Hmod2 Hext2).
Qed.

(** C2 (insert-only semantics).  In every run, each write model that reaches
    the store is an upsert whose update clause is [$setOnInsert]; executing
    it against a collection that holds a document with the same uniqueness
    tuple leaves the whole collection as it is, every field of the matching
    document and its [UpdatedAt] included; and whatever the store does with
    the bulk writes, the documents it held before the run are still there,
    unchanged and in place, after it. *)
Theorem insert_only_semantics (env : Env) (bulkSize : Z) (store : list DBClaim) :
  exists r w' added,
    runFromTodayDumpOnce Sscan_int64 env bulkSize (boot store) = (r, w')
    /\ w_store w' = store ++ added
    /\ forall m, m ∈ written (w_trace w') ->
         exists c, m = upsert_model c
           /\ forall coll d, d ∈ coll ->
                ProviderID d = ProviderID c -> DataCID d = DataCID c ->
                Sector d = Sector c -> TermStart d = TermStart c ->
                exec_model m coll
                = (coll, {| MatchedCount := 1; ModifiedCount := 0; UpsertedCount := 0 |}).
Proof.
  destruct (run_spec Sscan_int64 env bulkSize store)
    as (r & w' & outs & Hrun & Hbo & Hne & Hext & Hcase).
  destruct Hext as [(added & Hst & _ & _) _].
  exists r, w', added. split_and!; [done|done|].
  unfold written. rewrite Hbo. intros m Hm.
  assert (Hshape : exists c, m = upsert_model c).
  { destruct (early_exit env) as [r0|].
    - destruct Hcase as (_ & Hq). apply quiet_run_facts in Hq as (_ & _ & Hb & _).
      rewrite Hbo in Hb. rewrite Hb in Hm. by apply not_elem_of_nil in Hm.
    - destruct Hcase as (_ & active & _ & [(_ & -> & _)|(_ & _ & _ & Hdone)]).
      + by apply not_elem_of_nil in Hm.
      + destruct Hdone as (rpc & n & n' & _ & Hmod). rewrite Hmod in Hm.
        apply elem_of_staged in Hm as (c & _ & _ & ->). by eexists. }
  destruct Hshape as (c & ->). exists c. split; [reflexivity|].
  intros coll d Hd H1 H2 H3 H4. apply (exec_upsert_match c coll d Hd).
  unfold matches. cbn [upsert_model Filter f_provider_id f_data_cid f_sector f_term_start].
  rewrite H1, H2, H3, H4, !Z.eqb_refl, String.eqb_refl. reflexivity.
Qed.

(** C3 (filter correctness).  In every run, a document is added to the store
    only as the payload of a write model of that run, and every write model
    carries a claim built from a record of the dump whose provider is a
    member of the active provider set computed in that same run.  A record
    whose provider is not in the set is dropped by the filter without an
    error: the list of claims is left as it was. *)
Theorem filter_correctness (env : Env) (bulkSize : Z) (store : list DBClaim) :
  exists r w' added,
    runFromTodayDumpOnce Sscan_int64 env bulkSize (boot store) = (r, w')
    /\ w_store w' = store ++ added
    /\ (forall d, d ∈ added ->
          exists m, m ∈ written (w_trace w') /\ d = update_payload (Update m))
    /\ (forall m, m ∈ written (w_trace w') ->
          exists active rpc k rec now now',
            loadActiveProviders (api env) = Ok active
            /\ Decode_rpcAllClaims (fs_content env) = Ok rpc
            /\ Result rpc !! k = Some rec
            /\ filecoinClaim.Provider rec ∈ active
            /\ ProviderID (update_payload (Update m)) = to_int64 (filecoinClaim.Provider rec)
            /\ m = upsert_model (with_UpdatedAt now' (claim_of_entry Sscan_int64 now k rec)))
    /\ (forall active now out k rec,
          filecoinClaim.Provider rec ∉ active ->
          filter_step Sscan_int64 active now out (k, rec) = out).
Proof.
  destruct (run_spec Sscan_int64 env bulkSize store)
    as (r & w' & outs & Hrun & Hbo & Hne & Hext & Hcase).
  destruct Hext as [(added & Hst & _ & Hpay) _].
  exists r, w', added. unfold written. rewrite Hbo. split_and!; [done|done|done| |].
  - intros m Hm. destruct (early_exit env) as [r0|].
    + destruct Hcase as (_ & Hq). apply quiet_run_facts in Hq as (_ & _ & Hb & _).
      rewrite Hbo in Hb. rewrite Hb in Hm. by apply not_elem_of_nil in Hm.
    + destruct Hcase as (_ & active & Hact & [(_ & -> & _)|(_ & _ & _ & Hdone)]).
      * by apply not_elem_of_nil in Hm.
      * destruct Hdone as (rpc & n & n' & Hdec & Hmod). rewrite Hmod in Hm.
        apply elem_of_staged in Hm as (c & Hc & _ & ->).
        apply elem_of_filtered in Hc as (k & rec & Hk & Hin & ->).
        exists active, rpc, k, rec, n, n'. by split_and!.
  - intros active now out k rec Hout. unfold filter_step.
    by destruct (decide (filecoinClaim.Provider rec ∈ active)).
Qed.

(** C5, as amended (stability gate).  A run opens the dump file only if two
    consecutive polls saw the same size, every pair of polls before them
    having differed, all within the retry budget.  When every two consecutive
    polls of the budget differ, the run is skipped: it returns no error,
    opens nothing, and neither asks for the file to be deleted nor deletes
    it. *)
Theorem stability_gate (env : Env) (bulkSize : Z) (store : list DBClaim) :
  exists r w',
    runFromTodayDumpOnce Sscan_int64 env bulkSize (boot store) = (r, w')
    /\ (parsed (w_trace w') = true -> dump_stable env)
    /\ (dump_never_stable env ->
        r = None /\ parsed (w_trace w') = false /\ cleaned (w_trace w') = false
        /\ w_removed w' = false).
Proof.
  destruct (run_spec Sscan_int64 env bulkSize store)
    as (r & w' & outs & Hrun & Hbo & Hne & Hext & Hcase).
  exists r, w'. split; [done|]. split.
  - intros Hp. destruct (early_exit env) as [r0|] eqn:He.
    + destruct Hcase as (_ & Hq). apply quiet_run_facts in Hq as (Hp' & _). congruence.
    + by apply early_exit_None in He as [? _].
  - intros Hnever. rewrite (early_exit_never_stable env Hnever) in Hcase.
    destruct Hcase as (-> & Hq). apply quiet_run_facts in Hq as (? & _ & _ & ? & _ & ?).
    done.
Qed.

(** C6, as amended (batch-failure containment).  [insertDiffClaims] never
    returns an error.  Every staged claim is submitted in one of the bulk
    writes it makes, each bulk write that reports an error is followed by a
    warning in the log, and the later batches are still submitted.  The
    count it returns is the sum of the upserted counts of the bulk writes
    that returned a result, those that also reported an error included; it
    is never larger than the number of documents added to the store. *)
Theorem batch_failure_containment (env : Env) (claims : list DBClaim)
    (existingKeys : gset string) (bulkSize : Z) (w : World) :
  exists outs ins w' added,
    insertDiffClaims env claims existingKeys bulkSize w = ((ins, None), w')
    /\ w_trace w' = w_trace w ++ flat_map flush_events outs
                      ++ (if decide (length claims = 0%nat) then [] else finished_log)
    /\ concat (map models_of outs) = staged existingKeys (clock env (w_nows w)) claims
    /\ ins = sum_credited outs
    /\ w_store w' = w_store w ++ added
    /\ 0 <= ins <= Z.of_nat (length added).
Proof.
  destruct (insertDiffClaims_spec env claims existingKeys bulkSize w)
    as (outs & ins & w' & Hrun & Hins & Hmod & Hne & Ht & _ & _ & Hext).
  destruct Hext as [(added & Hst & Hcount & _) _].
  subst ins. exists outs, (sum_credited outs), w', added. split_and!; try done; lia.
Qed.

(** C7 (active-provider filter error handling).  When the chain head and the
    miner list are obtained, [loadActiveProviders] succeeds whatever the
    lookups of the individual miners return, and its result holds exactly
    the ids of the miners whose own lookups all succeed and show power: a
    miner whose power lookup or id resolution fails is left out and nothing
    else changes.  When the chain head or the miner list cannot be obtained,
    a run whose dump file is stable returns an error, without opening the
    dump, writing to the store or deleting the file. *)
Theorem active_provider_error_handling (env : Env) (bulkSize : Z) (store : list DBClaim) :
  (forall head miners,
      ChainHead (api env) = Ok head -> StateListMiners (api env) (Key head) = Ok miners ->
      exists active,
        loadActiveProviders (api env) = Ok active
        /\ forall id, id ∈ active <->
             exists m, m ∈ miners /\ resolves (api env) (Key head) m id)
  /\ (dump_stable env ->
      (exists e, ChainHead (api env) = Err e)
      \/ (exists head e, ChainHead (api env) = Ok head
                          /\ StateListMiners (api env) (Key head) = Err e) ->
      exists e w',
        runFromTodayDumpOnce Sscan_int64 env bulkSize (boot store) = (Some e, w')
        /\ parsed (w_trace w') = false /\ bulk_outcomes (w_trace w') = []
        /\ w_store w' = store /\ w_removed w' = false).
Proof.
  split.
  - intros head miners Hhead Hminers. unfold loadActiveProviders.
    rewrite Hhead, Hminers. eexists. split; [reflexivity|].
    intros id. rewrite active_fold_spec. split; [|by right].
    intros [H|H]; [|done]. by apply not_elem_of_empty in H.
  - intros Hstable Hfail.
    assert (Herr : exists e, loadActiveProviders (api env) = Err e).
    { unfold loadActiveProviders.
      destruct Hfail as [(e & ->)|(head & e & -> & ->)]; by eexists. }
    destruct Herr as (e & Herr).
    destruct (run_spec Sscan_int64 env bulkSize store)
      as (r & w' & outs & Hrun & Hbo & Hne & Hext & Hcase).
    rewrite (early_exit_stable env Hstable), Herr in Hcase.
    destruct Hcase as (-> & Hq). apply quiet_run_facts in Hq as (? & _ & ? & _ & ? & ?).
    by eexists _, w'.
Qed.

(** C8 (skippable runs are not failures).  When the dump file is absent, or
    its size differs between every two consecutive polls of the retry
    budget, the run returns no error, and it has neither opened the file,
    nor submitted a bulk write or changed the store, nor asked for the file
    to be deleted. *)
Theorem skippable_runs_not_failures (env : Env) (bulkSize : Z) (store : list DBClaim) :
  dump_absent env \/ dump_never_stable env ->
  exists w',
    runFromTodayDumpOnce Sscan_int64 env bulkSize (boot store) = (None, w')
    /\ parsed (w_trace w') = false /\ bulk_outcomes (w_trace w') = []
    /\ w_store w' = store /\ cleaned (w_trace w') = false /\ w_removed w' = false.
Proof.
  intros Hskip.
  assert (He : early_exit env = Some None).
  { destruct Hskip; [by apply early_exit_absent|by apply early_exit_never_stable]. }
  destruct (run_spec Sscan_int64 env bulkSize store)
    as (r & w' & outs & Hrun & Hbo & Hne & Hext & Hcase).
  rewrite He in Hcase. destruct Hcase as (-> & Hq).
  apply quiet_run_facts in Hq as (? & _ & ? & ? & ? & ?). by exists w'.
Qed.

(** C9 (an empty active-provider set short-circuits the run).  When the dump
    file is stable and the active provider set is loaded but empty, the run
    returns no error at once: the dump is not opened, the collection is not
    scanned, no bulk write is submitted, the store is unchanged, and the file
    is neither deleted nor asked to be. *)
Theorem empty_active_set_short_circuits (env : Env) (bulkSize : Z) (store : list DBClaim)
    (active : gset Z) :
  dump_stable env ->
  loadActiveProviders (api env) = Ok active -> size active = 0%nat ->
  exists w',
    runFromTodayDumpOnce Sscan_int64 env bulkSize (boot store) = (None, w')
    /\ parsed (w_trace w') = false /\ scanned (w_trace w') = false
    /\ bulk_outcomes (w_trace w') = [] /\ w_store w' = store
    /\ cleaned (w_trace w') = false /\ w_removed w' = false.
Proof.
  intros Hstable Hact Hempty.
  destruct (run_spec Sscan_int64 env bulkSize store)
    as (r & w' & outs & Hrun & Hbo & Hne & Hext & Hcase).
  rewrite (early_exit_stable env Hstable), Hact in Hcase.
  destruct (decide (size active = 0%nat)); [|done].
  destruct Hcase as (-> & Hq).
  apply quiet_run_facts in Hq as (? & ? & ? & ? & ? & ?). by exists w'.
Qed.

(** C10 (non-numeric claim-id keys).  When the dump decodes and holds, under
    a key that does not scan as an integer, a record whose provider is
    active, loading the claims succeeds and the claim of that record is among
    them, with claim id 0 and the fields of the record. *)
Theorem non_numeric_claim_id (env : Env) (active : gset Z) (w : World)
    (rpc : rpcAllClaims) (k : string) (rec : filecoinClaim.t) :
  readable env w ->
  Decode_rpcAllClaims (fs_content env) = Ok rpc ->
  Result rpc !! k = Some rec ->
  filecoinClaim.Provider rec ∈ active ->
  Sscan_int64 k = None ->
  exists claims w' c,
    loadClaimsFromFileFiltered Sscan_int64 env active w = (Ok claims, w')
    /\ c ∈ claims
    /\ ClaimID c = 0
    /\ ProviderID c = to_int64 (filecoinClaim.Provider rec)
    /\ DataCID c = filecoinClaim.Data rec
    /\ Sector c = filecoinClaim.Sector rec
    /\ TermStart c = filecoinClaim.TermStart rec.
Proof.
  intros Hread Hdec Hk Hin Hscan.
  destruct (loadClaimsFromFileFiltered_spec Sscan_int64 env active w)
    as (r & w' & Hrun & _ & _ & _ & _ & _ & _ & Hcomplete).
  rewrite (Hcomplete Hread rpc Hdec) in Hrun.
  eexists _, w', (claim_of_entry Sscan_int64 (clock env (w_nows w)) k rec).
  split; [exact Hrun|]. split.
  - apply elem_of_filtered. by exists k, rec.
  - unfold claim_of_entry. rewrite Hscan. by split_and!.
Qed.

End Claims.

(** ** The claims on the sample data *)

Lemma stable_env_stable (node : FullNode) (bulk : nat -> BulkFault) :
  dump_stable (sample_env [10; 10] node bulk).
Proof.
  exists 0%nat. split; [unfold stableCheckRetries; lia|]. split.
  - exists 10. split; reflexivity.
  - intros j Hj. lia.
Qed.

Lemma growing_env_never_stable : dump_never_stable growing_env.
Proof.
  intros j Hj. unfold stableCheckRetries in Hj.
  destruct j as [|[|[|j]]]; [| | |lia].
  - exists 10, 20. split_and!; [reflexivity|reflexivity|lia].
  - exists 20, 30. split_and!; [reflexivity|reflexivity|lia].
  - exists 30, 40. split_and!; [reflexivity|reflexivity|lia].
Qed.

Lemma no_fault_writes_succeed sizes node : writes_succeed (sample_env sizes node (fun _ => no_fault)).
Proof. intros n. split; [reflexivity|]. intros i. discriminate. Qed.

(** C1 on the sample data: a second run over the store that a first run
    left submits nothing. *)
Lemma idempotence_witness :
  exists r2 w2,
    runFromTodayDumpOnce sample_Sscan stable_env 2000
      (boot (w_store (runFromTodayDumpOnce sample_Sscan stable_env 2000 (boot [])).2))
    = (r2, w2)
    /\ bulk_outcomes (w_trace w2) = []
    /\ w_store w2 = w_store (runFromTodayDumpOnce sample_Sscan stable_env 2000 (boot [])).2.
Proof.
  refine (proj2 (idempotence sample_Sscan stable_env stable_env 2000 2000 [] None
                   (runFromTodayDumpOnce sample_Sscan stable_env 2000 (boot [])).2
                   _ _ eq_refl _ eq_refl eq_refl)).
  - vm_compute. reflexivity.
  - vm_compute. reflexivity.
  - apply no_fault_writes_succeed.
Defined.

(** C2 on the sample data: a run over a store that already holds one of the
    claims of the dump. *)
Lemma insert_only_semantics_witness :
  length (written (w_trace (runFromTodayDumpOnce sample_Sscan stable_env 2000
                              (boot [sample_claim "bafyA"])).2)) = 1%nat
  /\ exists r w' added,
       runFromTodayDumpOnce sample_Sscan stable_env 2000 (boot [sample_claim "bafyA"]) = (r, w')
       /\ w_store w' = [sample_claim "bafyA"] ++ added
       /\ forall m, m ∈ written (w_trace w') ->
            exists c, m = upsert_model c
              /\ forall coll d, d ∈ coll ->
                   ProviderID d = ProviderID c -> DataCID d = DataCID c ->
                   Sector d = Sector c -> TermStart d = TermStart c ->
                   exec_model m coll
                   = (coll, {| MatchedCount := 1; ModifiedCount := 0; UpsertedCount := 0 |}).
Proof.
  split; [vm_compute; reflexivity|].
  exact (insert_only_semantics sample_Sscan stable_env 2000 [sample_claim "bafyA"]).
Defined.

(** C3 on the sample data: the two write models of the run carry the claims
    of provider 1001, the only active one. *)
Lemma filter_correctness_witness :
  map (fun m => ProviderID (update_payload (Update m)))
      (written (w_trace (runFromTodayDumpOnce sample_Sscan stable_env 2000 (boot [])).2))
  = [1001; 1001]
  /\ exists r w' added,
       runFromTodayDumpOnce sample_Sscan stable_env 2000 (boot []) = (r, w')
       /\ w_store w' = [] ++ added
       /\ (forall d, d ∈ added ->
             exists m, m ∈ written (w_trace w') /\ d = update_payload (Update m))
       /\ (forall m, m ∈ written (w_trace w') ->
             exists active rpc k rec now now',
               loadActiveProviders (api stable_env) = Ok active
               /\ Decode_rpcAllClaims (fs_content stable_env) = Ok rpc
               /\ Result rpc !! k = Some rec
               /\ filecoinClaim.Provider rec ∈ active
               /\ ProviderID (update_payload (Update m))
                  = to_int64 (filecoinClaim.Provider rec)
               /\ m = upsert_model (with_UpdatedAt now' (claim_of_entry sample_Sscan now k rec)))
       /\ (forall active now out k rec,
             filecoinClaim.Provider rec ∉ active ->
             filter_step sample_Sscan active now out (k, rec) = out).
Proof.
  split; [vm_compute; reflexivity|].
  exact (filter_correctness sample_Sscan stable_env 2000 []).
Defined.

(** C4 on a sample identifier and a sample number. *)
Lemma lenient_decode_equivalence_witness :
  (cidOrObj_UnmarshalJSON (JString "bafyXYZ") = Ok "bafyXYZ"
   /\ cidOrObj_UnmarshalJSON (JObject [("/", JString "bafyXYZ")]) = Ok "bafyXYZ")
  /\ (u64OrStr_UnmarshalJSON (JNumber (FormatUint 12345)) = Ok 12345
      /\ u64OrStr_UnmarshalJSON (JString (FormatUint 12345)) = Ok 12345)
  /\ (i64OrStr_UnmarshalJSON (JNumber (FormatUint 12345)) = Ok 12345
      /\ i64OrStr_UnmarshalJSON (JString (FormatUint 12345)) = Ok 12345).
Proof.
  apply (lenient_decode_equivalence "bafyXYZ" 12345 12345).
  - unfold maxUint64. lia.
  - unfold maxInt64. lia.
Defined.

(** C5 as stated, refuted: the size changes between the first two polls, and
    the run still opens the dump file, and deletes it afterwards. *)
Lemma stability_gate_counterexample :
  changing settling_env 0
  /\ parsed (w_trace (runFromTodayDumpOnce sample_Sscan settling_env 2000 (boot [])).2) = true
  /\ w_removed (runFromTodayDumpOnce sample_Sscan settling_env 2000 (boot [])).2 = true.
Proof.
  split.
  - exists 10, 20. split_and!; [reflexivity|reflexivity|lia].
  - split; vm_compute; reflexivity.
Qed.

(** C5 as amended, on the sample data: the dump that settles is stable, and
    the run over the dump that keeps growing is skipped. *)
Lemma stability_gate_witness :
  dump_stable settling_env
  /\ exists r w',
       runFromTodayDumpOnce sample_Sscan growing_env 2000 (boot []) = (r, w')
       /\ r = None /\ parsed (w_trace w') = false /\ cleaned (w_trace w') = false
       /\ w_removed w' = false.
Proof.
  split.
  - destruct (stability_gate sample_Sscan settling_env 2000 []) as (r & w' & Hrun & Hopen & _).
    apply Hopen.
    replace w' with (runFromTodayDumpOnce sample_Sscan settling_env 2000 (boot [])).2
      by (rewrite Hrun; reflexivity).
    vm_compute. reflexivity.
  - destruct (stability_gate sample_Sscan growing_env 2000 []) as (r & w' & Hrun & _ & Hskip).
    exists r, w'. split; [exact Hrun|]. apply Hskip, growing_env_never_stable.
Defined.

(** C6 as stated, refuted: the only bulk write reports an error, and the
    document it inserted is credited all the same. *)
Lemma batch_failure_counterexample :
  (insertDiffClaims rejecting_env [sample_claim "bafyA"; sample_claim "bafyB"] ∅ 2000
     (boot [])).1 = (1, None)
  /\ map snd (bulk_outcomes (w_trace
       (insertDiffClaims rejecting_env [sample_claim "bafyA"; sample_claim "bafyB"] ∅ 2000
          (boot [])).2)) = [Some ErrDB].
Proof. split; vm_compute; reflexivity. Qed.

(** C7 on the sample data: the sample node, two of whose miners fail their
    lookups, and a run against the node that is down. *)
Lemma active_provider_error_handling_witness :
  (exists active,
      loadActiveProviders (api stable_env) = Ok active
      /\ forall id, id ∈ active <->
           exists m, m ∈ [KeyAddress "a"; KeyAddress "b"; IDAddress 2002; KeyAddress "d"]
                     /\ resolves (api stable_env) ["head"] m id)
  /\ exists e w',
       runFromTodayDumpOnce sample_Sscan node_down_env 2000 (boot []) = (Some e, w')
       /\ parsed (w_trace w') = false /\ bulk_outcomes (w_trace w') = []
       /\ w_store w' = [] /\ w_removed w' = false.
Proof.
  split.
  - exact (proj1 (active_provider_error_handling sample_Sscan stable_env 2000 [])
             {| Key := ["head"]; Height := 100 |} _ eq_refl eq_refl).
  - apply (proj2 (active_provider_error_handling sample_Sscan node_down_env 2000 [])).
    + apply stable_env_stable.
    + left. exists ErrRPC. reflexivity.
Defined.

(** C8 on the sample data: no dump file, and a dump file that keeps
    growing. *)
Lemma skippable_runs_not_failures_witness :
  (exists w',
      runFromTodayDumpOnce sample_Sscan absent_env 2000 (boot []) = (None, w')
      /\ parsed (w_trace w') = false /\ bulk_outcomes (w_trace w') = []
      /\ w_store w' = [] /\ cleaned (w_trace w') = false /\ w_removed w' = false)
  /\ exists w',
       runFromTodayDumpOnce sample_Sscan growing_env 2000 (boot []) = (None, w')
       /\ parsed (w_trace w') = false /\ bulk_outcomes (w_trace w') = []
       /\ w_store w' = [] /\ cleaned (w_trace w') = false /\ w_removed w' = false.
Proof.
  split.
  - apply (skippable_runs_not_failures sample_Sscan absent_env 2000 []).
    left. reflexivity.
  - apply (skippable_runs_not_failures sample_Sscan growing_env 2000 []).
    right. apply growing_env_never_stable.
Defined.

(** C9 on the sample data: a node whose miners all lack power. *)
Lemma empty_active_set_short_circuits_witness :
  exists w',
    runFromTodayDumpOnce sample_Sscan idle_env 2000 (boot []) = (None, w')
    /\ parsed (w_trace w') = false /\ scanned (w_trace w') = false
    /\ bulk_outcomes (w_trace w') = [] /\ w_store w' = []
    /\ cleaned (w_trace w') = false /\ w_removed w' = false.
Proof.
  apply (empty_active_set_short_circuits sample_Sscan idle_env 2000 [] ∅).
  - apply stable_env_stable.
  - reflexivity.
  - reflexivity.
Defined.

(** C10 on the sample data: the record under the key "abc". *)
Lemma non_numeric_claim_id_witness :
  exists claims w' c,
    loadClaimsFromFileFiltered sample_Sscan stable_env {[ 1001 ]} (boot []) = (Ok claims, w')
    /\ c ∈ claims
    /\ ClaimID c = 0
    /\ ProviderID c = to_int64 1001
    /\ DataCID c = "bafyB"
    /\ Sector c = 10
    /\ TermStart c = 5.
Proof.
  apply (non_numeric_claim_id sample_Sscan stable_env {[ 1001 ]} (boot []) sample_rpc "abc"
           (filecoinClaim.mk 1001 77 "bafyB" 1024 1 2 5 10)).
  - split; [reflexivity|]. exists 10. reflexivity.
  - vm_compute. reflexivity.
  - vm_compute. reflexivity.
  - apply elem_of_singleton. reflexivity.
  - vm_compute. reflexivity.
Defined.

(** ** Ranges of the decoded numbers *)

Lemma digit_val_range c : is_digit c = true -> 0 <= digit_val c <= 9.
Proof.
  destruct c as [[] [] [] [] [] [] [] []]; vm_compute; intros H; try discriminate H;
    split; discriminate.
Qed.

Lemma parse_digits_range s : forall n x,
  0 <= n <= maxUint64 -> parse_digits s n = Ok x -> n <= x <= maxUint64.
Proof.
  assert (Hmax : maxUint64 = 18446744073709551615) by reflexivity.
  assert (Hcut : cutoff10 = 1844674407370955162) by reflexivity.
  assert (Hpow : 2 ^ 64 = 18446744073709551616) by reflexivity.
  induction s as [|c s IH]; intros n x Hn; cbn [parse_digits].
  - intros [= <-]. lia.
  - destruct (is_digit c) eqn:Hc; [|discriminate].
    pose proof (digit_val_range c Hc) as Hd.
    destruct (cutoff10 <=? n) eqn:Hcutoff; [discriminate|].
    apply Z.leb_gt in Hcutoff.
    destruct (Z_lt_dec (n * 10 + digit_val c) (2 ^ 64)) as [Hsmall|Hwrap].
    + rewrite Z.mod_small by lia.
      destruct ((n * 10 + digit_val c <? n * 10) || (maxUint64 <? n * 10 + digit_val c))
        eqn:Hov; [discriminate|].
      apply orb_false_iff in Hov as [_ Hle]. apply Z.ltb_ge in Hle.
      intros Hx. apply IH in Hx; lia.
    + replace ((n * 10 + digit_val c) mod 2 ^ 64) with (n * 10 + digit_val c - 2 ^ 64).
      2:{ apply Z.mod_unique with (q := 1); lia. }
      replace (n * 10 + digit_val c - 2 ^ 64 <? n * 10) with true
        by (symmetry; apply Z.ltb_lt; lia).
      discriminate.
Qed.

Lemma ParseUint_range s x : ParseUint s = Ok x -> is_uint64 x.
Proof.
  assert (Hmax : maxUint64 = 18446744073709551615) by reflexivity.
  unfold ParseUint, is_uint64. destruct s as [|c s]; [discriminate|].
  intros Hx. apply parse_digits_range in Hx; lia.
Qed.

Lemma ParseInt_range s x : ParseInt s = Ok x -> is_int64 x.
Proof.
  assert (Hmaxi : maxInt64 = 9223372036854775807) by reflexivity.
  assert (Hpow : 2 ^ 63 = 9223372036854775808) by reflexivity.
  unfold ParseInt, is_int64. destruct s as [|c s]; [discriminate|].
  destruct (ParseUint _) as [un|e] eqn:Hun; [|by destruct e].
  apply ParseUint_range in Hun. unfold is_uint64 in Hun.
  destruct (Ascii.eqb c "-"); cbn [negb andb].
  - destruct (2 ^ 63 <? un) eqn:Hlt; [discriminate|]. apply Z.ltb_ge in Hlt.
    intros [= <-]. lia.
  - destruct (2 ^ 63 <=? un) eqn:Hle; [discriminate|]. apply Z.leb_gt in Hle.
    intros [= <-]. lia.
Qed.

Lemma u64OrStr_range b x : u64OrStr_UnmarshalJSON b = Ok x -> is_uint64 x.
Proof.
  unfold u64OrStr_UnmarshalJSON.
  destruct b as [|bb|lit|s|items|members]; cbn [starts_with_quote negb json_Unmarshal_uint64
    json_Unmarshal_string]; try discriminate.
  - intros [= <-]. unfold is_uint64. by vm_compute.
  - destruct (isValidNumber lit); [|discriminate].
    destruct (ParseUint lit) as [n|e] eqn:Hn; [|discriminate].
    intros [= <-]. by apply ParseUint_range in Hn.
  - destruct (ParseUint s) as [n|e] eqn:Hn; [|discriminate].
    intros [= <-]. by apply ParseUint_range in Hn.
Qed.

Lemma i64OrStr_range b x : i64OrStr_UnmarshalJSON b = Ok x -> is_int64 x.
Proof.
  unfold i64OrStr_UnmarshalJSON.
  destruct b as [|bb|lit|s|items|members]; cbn [starts_with_quote negb json_Unmarshal_int64
    json_Unmarshal_string]; try discriminate.
  - intros [= <-]. unfold is_int64. by vm_compute.
  - destruct (isValidNumber lit); [|discriminate].
    destruct (ParseInt lit) as [n|e] eqn:Hn; [|discriminate].
    intros [= <-]. by apply ParseInt_range in Hn.
  - destruct (ParseInt s) as [n|e] eqn:Hn; [|discriminate].
    intros [= <-]. by apply ParseInt_range in Hn.
Qed.

Lemma FormatInt_nonneg i : 0 <= i -> FormatInt i = FormatUint i.
Proof. intros Hi. unfold FormatInt. by rewrite (proj2 (Z.ltb_ge i 0) Hi). Qed.

Lemma FormatInt_neg i : i < 0 -> FormatInt i = String "-" (FormatUint (- i)).
Proof. intros Hi. unfold FormatInt. by rewrite (proj2 (Z.ltb_lt i 0) Hi). Qed.

Lemma ParseInt_FormatInt i : is_int64 i -> ParseInt (FormatInt i) = Ok i.
Proof.
  assert (Hmax : maxUint64 = 18446744073709551615) by reflexivity.
  assert (Hmaxi : maxInt64 = 9223372036854775807) by reflexivity.
  assert (Hpow : 2 ^ 63 = 9223372036854775808) by reflexivity.
  unfold is_int64. intros Hi. destruct (Z_lt_dec i 0) as [Hneg|Hpos].
  - rewrite FormatInt_neg by done. unfold ParseInt.
    change (Ascii.eqb "-" "-") with true. change (Ascii.eqb "-" "+") with false.
    cbn [orb negb andb]. rewrite ParseUint_FormatUint by lia.
    replace (2 ^ 63 <? - i) with false by (symmetry; apply Z.ltb_ge; lia).
    f_equal. lia.
  - rewrite FormatInt_nonneg by lia. apply ParseInt_FormatUint. lia.
Qed.

Lemma isValidNumber_FormatInt i : is_int64 i -> isValidNumber (FormatInt i) = true.
Proof.
  assert (Hmax : maxUint64 = 18446744073709551615) by reflexivity.
  assert (Hmaxi : maxInt64 = 9223372036854775807) by reflexivity.
  assert (Hpow : 2 ^ 63 = 9223372036854775808) by reflexivity.
  unfold is_int64. intros Hi. destruct (Z_lt_dec i 0) as [Hneg|Hpos].
  - rewrite FormatInt_neg by done.
    assert (Hu : 0 <= - i <= maxUint64) by lia.
    pose proof (isValidNumber_FormatUint (- i) Hu) as Hv.
    destruct (FormatUint_shape (- i) Hu) as (c & rest & He & Hc & _).
    destruct (is_digit_not_sign c Hc) as [Hm _].
    unfold isValidNumber in *. change (Ascii.eqb "-" "-") with true. cbv iota.
    rewrite He in *. by rewrite Hm in Hv.
  - rewrite FormatInt_nonneg by lia. apply isValidNumber_FormatUint. lia.
Qed.

Lemma ParseUint_minus rest : ParseUint (String "-" rest) = Err ErrSyntax.
Proof. reflexivity. Qed.

Lemma ParseUint_overflow n :
  maxUint64 < n < 10 ^ 20 -> ParseUint (FormatUint n) = Err ErrRange.
Proof.
  assert (Hmax : maxUint64 = 18446744073709551615) by reflexivity.
  assert (Hcut : cutoff10 = 1844674407370955162) by reflexivity.
  assert (Hpow : 2 ^ 64 = 18446744073709551616) by reflexivity.
  assert (Hten : 10 ^ 20 = 100000000000000000000) by reflexivity.
  intros Hn.
  pose proof (Z.div_mod n 10 ltac:(lia)) as Hdm.
  pose proof (Z.mod_pos_bound n 10 ltac:(lia)) as Hm.
  assert (Hfmt : FormatUint n = formatBits 19 (n / 10) (String (digit_byte (n mod 10)) "")).
  { unfold FormatUint. change 20%nat with (S 19). cbn [formatBits].
    by replace (n <? 10) with false by (symmetry; apply Z.ltb_ge; lia). }
  assert (Hq : 0 <= n / 10 <= maxUint64) by lia.
  assert (Hne : exists c rest, FormatUint n = String c rest).
  { rewrite Hfmt. destruct (formatBits_shape 18 (n / 10) (String (digit_byte (n mod 10)) ""))
      as (c & rest & He & _).
    - change (10 ^ Z.of_nat 19) with 10000000000000000000. lia.
    - cbn [all_digits]. by rewrite digit_byte_is_digit by lia.
    - by exists c, rest. }
  destruct Hne as (c & rest & He). unfold ParseUint. rewrite He, <- He, Hfmt.
  rewrite parse_digits_formatBits.
  2: done.
  2:{ change (10 ^ Z.of_nat 19) with 10000000000000000000. lia. }
  cbn [parse_digits]. rewrite digit_byte_is_digit, digit_val_digit_byte by lia.
  destruct (cutoff10 <=? n / 10) eqn:Hc; [reflexivity|]. apply Z.leb_gt in Hc.
  replace ((n / 10 * 10 + n mod 10) mod 2 ^ 64) with (n / 10 * 10 + n mod 10 - 2 ^ 64).
  2:{ apply Z.mod_unique with (q := 1); lia. }
  replace (n / 10 * 10 + n mod 10 - 2 ^ 64 <? n / 10 * 10) with true
    by (symmetry; apply Z.ltb_lt; lia).
  reflexivity.
Qed.

Lemma isValidNumber_numeral n : 0 <= n < 10 ^ 20 -> isValidNumber (FormatUint n) = true.
Proof.
  intros Hn. unfold FormatUint.
  destruct (formatBits_shape 19 n "") as (c & rest & He & Hc & Hr & Hnz & Hz).
  { change (10 ^ Z.of_nat 20) with (10 ^ 20). lia. }
  { reflexivity. }
  change 20%nat with (S 19). rewrite He.
  destruct (is_digit_not_sign c Hc) as [Hm _].
  unfold isValidNumber. rewrite Hm. destruct (Ascii.eqb c "0") eqn:H0.
  - destruct (Z.eq_dec n 0) as [->|Hne]; [by rewrite Hz|].
    specialize (Hnz ltac:(lia)). discriminate Hnz.
  - by rewrite Hc, skip_all_digits.
Qed.

(** ** Injectivity of the claim key *)

Lemma append_cons c s t : String c s +:+ t = String c (s +:+ t).
Proof. reflexivity. Qed.

Lemma append_nil_l t : "" +:+ t = t.
Proof. reflexivity. Qed.

Lemma append_assoc s t u : (s +:+ t) +:+ u = s +:+ (t +:+ u).
Proof.
  induction s as [|c s IH]; [reflexivity|].
  rewrite !append_cons. by rewrite IH.
Qed.

Lemma no_bar_app_bar a b : no_bar (a +:+ String "|" b) = false.
Proof.
  induction a as [|c a IH].
  - reflexivity.
  - rewrite append_cons. cbn [no_bar]. rewrite IH. apply andb_false_r.
Qed.

Lemma split_first a1 a2 r1 r2 :
  no_bar a1 = true -> no_bar a2 = true ->
  a1 +:+ String "|" r1 = a2 +:+ String "|" r2 -> a1 = a2 /\ r1 = r2.
Proof.
  revert a2. induction a1 as [|c a1 IH]; intros [|c2 a2] H1 H2; rewrite ?append_cons, ?append_nil_l.
  - by intros [= ->].
  - intros [= <- _]. cbn [no_bar] in H2. discriminate H2.
  - intros [= -> _]. cbn [no_bar] in H1. discriminate H1.
  - intros [= -> He]. cbn [no_bar] in H1, H2.
    apply andb_true_iff in H1 as [_ H1]. apply andb_true_iff in H2 as [_ H2].
    destruct (IH a2 H1 H2 He) as [-> ->]. done.
Qed.

Lemma split_last d1 d2 x1 x2 :
  no_bar x1 = true -> no_bar x2 = true ->
  d1 +:+ String "|" x1 = d2 +:+ String "|" x2 -> d1 = d2 /\ x1 = x2.
Proof.
  intros H1 H2. revert d2.
  induction d1 as [|c d1 IH]; intros [|c2 d2]; rewrite ?append_cons, ?append_nil_l.
  - by intros [= ->].
  - intros [= <- He]. rewrite He, no_bar_app_bar in H1. discriminate H1.
  - intros [= -> He]. rewrite <- He, no_bar_app_bar in H2. discriminate H2.
  - intros [= -> He]. destruct (IH d2 He) as [-> ->]. done.
Qed.

Lemma is_digit_not_bar c : is_digit c = true -> Ascii.eqb c "|" = false.
Proof.
  destruct c as [[] [] [] [] [] [] [] []]; vm_compute; intros; try discriminate; auto.
Qed.

Lemma all_digits_no_bar s : all_digits s = true -> no_bar s = true.
Proof.
  induction s as [|c s IH]; [done|]. cbn [all_digits no_bar].
  intros [Hc Hs]%andb_true_iff. by rewrite (is_digit_not_bar c Hc), IH.
Qed.

Lemma no_bar_FormatUint u : is_uint64 u -> no_bar (FormatUint u) = true.
Proof.
  intros Hu. destruct (FormatUint_shape u Hu) as (c & rest & -> & Hc & Hr & _).
  cbn [no_bar]. by rewrite (is_digit_not_bar c Hc), all_digits_no_bar.
Qed.

Lemma no_bar_FormatInt i : is_int64 i -> no_bar (FormatInt i) = true.
Proof.
  assert (Hmax : maxUint64 = 18446744073709551615) by reflexivity.
  assert (Hmaxi : maxInt64 = 9223372036854775807) by reflexivity.
  assert (Hpow : 2 ^ 63 = 9223372036854775808) by reflexivity.
  unfold is_int64. intros Hi. destruct (Z_lt_dec i 0) as [Hneg|Hpos].
  - rewrite FormatInt_neg by done. cbn [no_bar].
    change (Ascii.eqb "-" "|") with false. cbn [negb andb].
    apply no_bar_FormatUint. unfold is_uint64. lia.
  - rewrite FormatInt_nonneg by lia. apply no_bar_FormatUint. unfold is_uint64. lia.
Qed.

Lemma FormatUint_inj u v : is_uint64 u -> is_uint64 v -> FormatUint u = FormatUint v -> u = v.
Proof.
  intros Hu Hv He. pose proof (ParseUint_FormatUint u Hu) as H1.
  rewrite He, (ParseUint_FormatUint v Hv) in H1. congruence.
Qed.

Lemma FormatInt_inj i j : is_int64 i -> is_int64 j -> FormatInt i = FormatInt j -> i = j.
Proof.
  intros Hi Hj He. pose proof (ParseInt_FormatInt i Hi) as H1.
  rewrite He, (ParseInt_FormatInt j Hj) in H1. congruence.
Qed.

Lemma bar_app x : "|" +:+ x = String "|" x.
Proof. reflexivity. Qed.

Lemma bar_assoc d s r : (d +:+ String "|" s) +:+ r = d +:+ String "|" (s +:+ r).
Proof. by rewrite append_assoc, append_cons. Qed.

Lemma claimKey_inj p d s t p' d' s' t' :
  is_int64 p -> is_uint64 s -> is_int64 t ->
  is_int64 p' -> is_uint64 s' -> is_int64 t' ->
  claimKey p d s t = claimKey p' d' s' t' ->
  p = p' /\ d = d' /\ s = s' /\ t = t'.
Proof.
  intros Hp Hs Ht Hp' Hs' Ht'. unfold claimKey. rewrite !bar_app. intros He.
  apply split_first in He as [Hpp He]; [|by apply no_bar_FormatInt..].
  rewrite <- (bar_assoc d (FormatUint s)), <- (bar_assoc d' (FormatUint s')) in He.
  apply split_last in He as [He Htt]; [|by apply no_bar_FormatInt..].
  apply split_last in He as [Hdd Hss]; [|by apply no_bar_FormatUint..].
  split_and!.
  - by apply FormatInt_inj.
  - done.
  - by apply FormatUint_inj.
  - by apply FormatInt_inj.
Qed.

Lemma key_of_inj c d : tuple_fits c -> tuple_fits d -> key_of c = key_of d -> tuple_of c = tuple_of d.
Proof.
  intros (H1 & H2 & H3) (H1' & H2' & H3') He. unfold key_of in He.
  apply claimKey_inj in He as (E1 & E2 & E3 & E4); try done.
  unfold tuple_of. congruence.
Qed.

Lemma matches_tuple c d :
  matches (Filter (upsert_model c)) d = true <-> tuple_of d = tuple_of c.
Proof.
  unfold matches, tuple_of.
  cbn [upsert_model Filter f_provider_id f_data_cid f_sector f_term_start].
  rewrite !andb_true_iff, !Z.eqb_eq, String.eqb_eq. split.
  - intros [[[-> ->] ->] ->]. done.
  - intros [= -> -> -> ->]. done.
Qed.

(** ** Decoded records fit their Go types *)

Lemma to_int64_range x : is_int64 (to_int64 x).
Proof.
  assert (Hmaxi : maxInt64 = 9223372036854775807) by reflexivity.
  assert (Hpow : 2 ^ 63 = 9223372036854775808) by reflexivity.
  assert (Hpow' : 2 ^ 64 = 18446744073709551616) by reflexivity.
  unfold is_int64, to_int64.
  pose proof (Z.mod_pos_bound (x + 2 ^ 63) (2 ^ 64) ltac:(lia)). lia.
Qed.

Lemma to_int64_small x : 0 <= x <= maxInt64 -> to_int64 x = x.
Proof.
  assert (Hmaxi : maxInt64 = 9223372036854775807) by reflexivity.
  assert (Hpow : 2 ^ 63 = 9223372036854775808) by reflexivity.
  assert (Hpow' : 2 ^ 64 = 18446744073709551616) by reflexivity.
  intros Hx. unfold to_int64. rewrite Z.mod_small by lia. lia.
Qed.

Lemma to_int64_large x : maxInt64 < x <= maxUint64 -> to_int64 x = x - 2 ^ 64.
Proof.
  assert (Hmax : maxUint64 = 18446744073709551615) by reflexivity.
  assert (Hmaxi : maxInt64 = 9223372036854775807) by reflexivity.
  assert (Hpow : 2 ^ 63 = 9223372036854775808) by reflexivity.
  assert (Hpow' : 2 ^ 64 = 18446744073709551616) by reflexivity.
  intros Hx. unfold to_int64.
  replace ((x + 2 ^ 63) mod 2 ^ 64) with (x + 2 ^ 63 - 2 ^ 64); [lia|].
  apply Z.mod_unique with (q := 1); lia.
Qed.

Lemma to_uint64_to_int64 x : is_uint64 x -> to_uint64 (to_int64 x) = x.
Proof.
  assert (Hmax : maxUint64 = 18446744073709551615) by reflexivity.
  assert (Hmaxi : maxInt64 = 9223372036854775807) by reflexivity.
  assert (Hpow' : 2 ^ 64 = 18446744073709551616) by reflexivity.
  unfold is_uint64. intros Hx. unfold to_uint64.
  destruct (Z_le_dec x maxInt64).
  - rewrite to_int64_small by lia. apply Z.mod_small. lia.
  - rewrite to_int64_large by lia. symmetry. apply Z.mod_unique with (q := -1); lia.
Qed.

Lemma decode_members_inv {S : Type} (P : S -> Prop) (step : S -> string * json -> result S) :
  (forall s kv s', P s -> step s kv = Ok s' -> P s') ->
  forall members s s', P s -> decode_members step s members = Ok s' -> P s'.
Proof.
  intros Hstep. induction members as [|kv rest IH]; intros s s' Hs; cbn [decode_members].
  - by intros [= <-].
  - destruct (step s kv) as [s1|e] eqn:H1; [|discriminate].
    apply IH. by eapply Hstep.
Qed.

Lemma decode_claim_member_fits c kv c' :
  record_fits c -> decode_claim_member c kv = Ok c' -> record_fits c'.
Proof.
  destruct c as [p cl d sz tmin tmax ts sec], kv as [k v].
  unfold record_fits, decode_claim_member.
  cbn [filecoinClaim.Provider filecoinClaim.Client filecoinClaim.Data filecoinClaim.Size
       filecoinClaim.TermMin filecoinClaim.TermMax filecoinClaim.TermStart filecoinClaim.Sector].
  intros (H1 & H2 & H3 & H4 & H5 & H6 & H7).
  repeat match goal with
  | |- context [if EqualFold k ?f then _ else _] => destruct (EqualFold k f)
  end;
  try (destruct (u64OrStr_UnmarshalJSON v) as [x|e] eqn:Hx; [|discriminate];
       apply u64OrStr_range in Hx; intros [= <-];
       cbn [filecoinClaim.Provider filecoinClaim.Client filecoinClaim.Data filecoinClaim.Size
            filecoinClaim.TermMin filecoinClaim.TermMax filecoinClaim.TermStart
            filecoinClaim.Sector]; by split_and!);
  try (destruct (i64OrStr_UnmarshalJSON v) as [x|e] eqn:Hx; [|discriminate];
       apply i64OrStr_range in Hx; intros [= <-];
       cbn [filecoinClaim.Provider filecoinClaim.Client filecoinClaim.Data filecoinClaim.Size
            filecoinClaim.TermMin filecoinClaim.TermMax filecoinClaim.TermStart
            filecoinClaim.Sector]; by split_and!);
  try (destruct (cidOrObj_UnmarshalJSON v) as [x|e] eqn:Hx; [|discriminate];
       intros [= <-];
       cbn [filecoinClaim.Provider filecoinClaim.Client filecoinClaim.Data filecoinClaim.Size
            filecoinClaim.TermMin filecoinClaim.TermMax filecoinClaim.TermStart
            filecoinClaim.Sector]; by split_and!).
  intros [= <-]. by split_and!.
Qed.

Lemma zero_fits : record_fits filecoinClaim.zero.
Proof. unfold record_fits, is_uint64, is_int64. cbn. by vm_compute. Qed.

Lemma decode_filecoinClaim_fits v c : decode_filecoinClaim v = Ok c -> record_fits c.
Proof.
  destruct v as [|b|lit|s|items|members]; cbn [decode_filecoinClaim]; try discriminate.
  - intros [= <-]. apply zero_fits.
  - by destruct (isValidNumber lit).
  - apply (decode_members_inv record_fits); [apply decode_claim_member_fits|apply zero_fits].
Qed.

Lemma Decode_rpcAllClaims_fits content rpc :
  Decode_rpcAllClaims content = Ok rpc ->
  forall k c, Result rpc !! k = Some c -> record_fits c.
Proof.
  set (P := fun r : rpcAllClaims => map_Forall (fun _ c => record_fits c) (Result r)).
  assert (Hentry : forall m kv m',
            map_Forall (fun _ c => record_fits c) m -> decode_result_entry m kv = Ok m' ->
            map_Forall (fun _ c => record_fits c) m').
  { intros m kv m' Hm. unfold decode_result_entry.
    destruct (decode_filecoinClaim kv.2) as [c|e] eqn:Hc; [|discriminate].
    intros [= <-]. apply map_Forall_insert_2; [|done]. by apply decode_filecoinClaim_fits in Hc. }
  assert (Hstep : forall r kv r', P r -> decode_rpc_member r kv = Ok r' -> P r').
  { intros r [k v] r' Hr. unfold decode_rpc_member.
    destruct (EqualFold k "jsonrpc").
    { destruct v; try (intros [= <-]; exact Hr);
        cbn [json_Unmarshal_string]; try discriminate.
      - by destruct (isValidNumber lit). }
    destruct (EqualFold k "result").
    { destruct v as [|b|lit|s|items|entries]; try discriminate.
      - intros [= <-]. unfold P. cbn [Result]. apply map_Forall_empty.
      - by destruct (isValidNumber lit).
      - destruct (decode_members decode_result_entry (Result r) entries) as [m|e] eqn:Hm;
          [|discriminate].
        intros [= <-]. unfold P. cbn [Result].
        by apply (decode_members_inv _ _ Hentry entries (Result r) m). }
    destruct (EqualFold k "id"); intros [= <-]; exact Hr. }
  assert (H0 : P {| JSONRPC := ""; Result := ∅; ID := None |}) by apply map_Forall_empty.
  intros Hdec. assert (HP : P rpc); [|exact HP].
  unfold Decode_rpcAllClaims in Hdec.
  destruct content as [[|b|lit|s|items|members]|]; try discriminate.
  - by injection Hdec as <-.
  - by destruct (isValidNumber lit).
  - by apply (decode_members_inv P _ Hstep members _ rpc H0).
Qed.

Lemma claim_of_entry_fits S now k rec :
  record_fits rec -> tuple_fits (claim_of_entry S now k rec).
Proof.
  intros (H1 & _ & _ & _ & _ & H6 & H7). unfold tuple_fits, claim_of_entry.
  cbn [ProviderID Sector TermStart]. split_and!; [apply to_int64_range|done|done].
Qed.

(** ** Invariants of the collection *)

Lemma present_tuple c coll :
  present (upsert_model c) coll = true <-> tuple_of c ∈ map tuple_of coll.
Proof.
  unfold present. rewrite existsb_exists, list_elem_of_In, in_map_iff. split.
  - intros (d & Hd & Hm). exists d. split; [|done]. by apply matches_tuple.
  - intros (d & Ht & Hd). exists d. split; [done|]. by apply matches_tuple.
Qed.

Lemma exec_upsert_unique c coll :
  unique_tuples coll -> unique_tuples (exec_model (upsert_model c) coll).1.
Proof.
  unfold unique_tuples. intros Hnd. rewrite exec_upsert.
  destruct (present (upsert_model c) coll) eqn:Hp; cbn [fst]; [done|].
  rewrite map_app. cbn [map]. apply NoDup_app. split_and!; [done| |apply NoDup_singleton].
  intros t Ht ->%list_elem_of_singleton.
  apply present_tuple in Ht. congruence.
Qed.

Section Preservation.
Variable I : list DBClaim -> Prop.
Hypothesis I_upsert : forall c coll, I coll -> I (exec_model (upsert_model c) coll).1.

Lemma bulk_exec_preserves fate models :
  Forall upsert_shaped models ->
  forall i coll res failed, I coll -> I (bulk_exec fate i models coll res failed).1.1.
Proof.
  induction 1 as [|m models [c ->] _ IH]; intros i coll res failed Hc; cbn [bulk_exec].
  - done.
  - pose proof (I_upsert c coll Hc) as Hc'.
    destruct (exec_model (upsert_model c) coll) as [coll' r]. cbn [fst] in Hc'.
    destruct (fate i); by apply IH.
Qed.

Lemma BulkWrite_preserves flt models coll :
  Forall upsert_shaped models -> I coll -> I (BulkWrite flt models coll).1.1.
Proof.
  intros Hm Hc. unfold BulkWrite. destruct (refused flt); [done|].
  pose proof (bulk_exec_preserves (fate flt) models Hm 0%nat coll no_counts false Hc) as H.
  by destruct (bulk_exec _ _ _ _ _ _) as [[coll' res] failed].
Qed.

Variable env : Env.

Lemma flushBatch_preserves s w :
  Forall upsert_shaped (batch s) -> I (w_store w) ->
  I (w_store (flushBatch env s w).2) /\ batch (flushBatch env s w).1.1 = [].
Proof.
  intros Hm Hc. unfold flushBatch.
  destruct (decide (length (batch s) = 0%nat)) as [Hz|Hnz].
  - cbn [mret M_ret fst snd]. split; [done|]. by apply length_zero_iff_nil.
  - unfold mbind, M_bind, coll_BulkWrite.
    pose proof (BulkWrite_preserves (db_bulk env (w_bulks w)) (batch s) (w_store w) Hm Hc) as H.
    destruct (BulkWrite _ _ _) as [[coll' res] err]. cbn [fst] in H.
    by destruct err, res.
Qed.

Lemma diff_loop_preserves keys bulkSize now claims : forall s w,
  Forall upsert_shaped (batch s) -> I (w_store w) ->
  I (w_store (diff_loop env keys bulkSize now claims s w).2)
  /\ Forall upsert_shaped (batch (diff_loop env keys bulkSize now claims s w).1.1).
Proof.
  induction claims as [|c rest IH]; intros s w Hm Hc; cbn [diff_loop].
  - done.
  - destruct (decide (_ ∈ keys)); [by apply IH|].
    set (s1 := {| batch := batch s ++ [upsert_model (with_UpdatedAt now c)];
                  inserted := inserted s; prepared := prepared s + 1 |}).
    assert (Hm1 : Forall upsert_shaped (batch s1)).
    { cbn [s1 batch]. apply Forall_app. split; [done|]. constructor; [|constructor].
      by eexists. }
    destruct (bulkSize <=? Z.of_nat (length (batch s1))); [|by apply IH].
    unfold mbind, M_bind.
    destruct (flushBatch_preserves s1 w Hm1 Hc) as [Hc2 Hb2].
    destruct (flushBatch env s1 w) as [[s2 err] w2]. cbn [fst snd] in *.
    assert (Hm2 : Forall upsert_shaped (batch s2)) by (rewrite Hb2; constructor).
    destruct err; [done|]. by apply IH.
Qed.

Lemma insertDiffClaims_preserves claims keys bulkSize w :
  I (w_store w) -> I (w_store (insertDiffClaims env claims keys bulkSize w).2).
Proof.
  intros Hc. unfold insertDiffClaims.
  destruct (decide (length claims = 0%nat)); [done|].
  unfold mbind, M_bind. cbn [time_Now].
  match goal with |- context [diff_loop env keys ?bs ?now claims ?s0 ?w0] =>
    destruct (diff_loop_preserves keys bs now claims s0 w0 ltac:(constructor) Hc) as [H1 H2];
    destruct (diff_loop env keys bs now claims s0 w0) as [[s1 err] w1]
  end.
  cbn [fst snd] in *. destruct err; [done|].
  destruct (flushBatch_preserves s1 w1 H2 H1) as [H3 _].
  destruct (flushBatch env s1 w1) as [[s2 err] w2]. cbn [fst snd] in *.
  by destruct err.
Qed.

End Preservation.

Lemma stability_loop_store env retries : forall prev w,
  w_store (stability_loop env retries prev w).2 = w_store w.
Proof.
  induction retries as [|n IH]; intros prev w; cbn [stability_loop]; [done|].
  unfold mbind, M_bind, time_Sleep, os_Stat. cbn [push w_removed w_sleeps].
  destruct (if w_removed w then _ else _) as [sz|e]; [|done].
  destruct (sz =? prev); [done|]. cbn [log_Infow emit]. by rewrite IH.
Qed.

Lemma loadClaimsFromFileFiltered_store S env active w :
  w_store (loadClaimsFromFileFiltered S env active w).2 = w_store w.
Proof.
  destruct (loadClaimsFromFileFiltered_spec S env active w) as (r & w' & -> & H & _). done.
Qed.

Lemma loadAllClaimKeysFromDB_store env w :
  w_store (loadAllClaimKeysFromDB env w).2 = w_store w.
Proof.
  destruct (loadAllClaimKeysFromDB_spec env w) as (r & -> & _). done.
Qed.

Lemma run_preserves (I : list DBClaim -> Prop) S env bulkSize store :
  (forall c coll, I coll -> I (exec_model (upsert_model c) coll).1) ->
  I store -> I (w_store (runFromTodayDumpOnce S env bulkSize (boot store)).2).
Proof.
  intros HI Hs.
  destruct (run_gate S env bulkSize store) as (wq & (Hst & _) & Hrun & _).
  rewrite Hrun. rewrite <- Hst in Hs.
  destruct (fs_stat env 0) as [prev|e]; [|done].
  destruct ((poll_verdict env stableCheckRetries 0 prev).1) as [[|]|e]; try done.
  unfold after_gate, mbind, M_bind. cbn [log_Infow emit].
  destruct (loadActiveProviders (api env)) as [active|e]; [|done].
  destruct (decide (size active = 0%nat)); [done|].
  unfold ingest, mbind, M_bind.
  pose proof (loadClaimsFromFileFiltered_store S env active
                (push (EvLog Info "using stable dump file") wq)) as H1.
  destruct (loadClaimsFromFileFiltered _ _ _ _) as [[claims|e] w1]; cbn [snd] in H1;
    [|cbn [mret M_ret snd]; by rewrite H1].
  cbn [log_Infow emit].
  pose proof (loadAllClaimKeysFromDB_store env
                (push (EvLog Info "claims loaded from file (filtered by active providers)") w1))
    as H2.
  destruct (loadAllClaimKeysFromDB _ _) as [[keys|e] w2]; cbn [snd push w_store] in H2;
    [|cbn [mret M_ret snd]; by rewrite H2, H1].
  assert (Hs2 : I (w_store (push (EvLog Info "loaded db claim keys") w2))).
  { cbn [push w_store]. by rewrite H2, H1. }
  pose proof (insertDiffClaims_preserves I HI env claims keys bulkSize _ Hs2) as H3.
  destruct (insertDiffClaims _ _ _ _ _) as [[added err] w3]. cbn [snd] in H3.
  destruct err; [done|].
  unfold os_Remove. by destruct (fs_remove env).
Qed.

(** ** Sizes of the batches *)

Section Batches.
Variable env : Env.

Lemma flushBatch_nonempty s w :
  batch s <> [] ->
  exists res err,
    bulk_outcomes (w_trace (flushBatch env s w).2)
    = bulk_outcomes (w_trace w) ++ [(batch s, res, err)]
    /\ batch (flushBatch env s w).1.1 = []
    /\ (flushBatch env s w).1.2 = None.
Proof.
  intros Hne. unfold flushBatch.
  destruct (decide (length (batch s) = 0%nat)) as [Hz|Hnz].
  { by apply length_zero_iff_nil in Hz. }
  unfold mbind, M_bind, coll_BulkWrite.
  destruct (BulkWrite _ _ _) as [[coll' res] err]. exists res, err.
  destruct err, res; cbn [fst snd batch log_Warnw emit mret M_ret push w_trace];
    rewrite ?bulk_outcomes_app, ?bulk_outcomes_one; cbn [outcome_of from_option];
    by rewrite ?app_nil_r.
Qed.

Lemma flushBatch_empty s w : batch s = [] -> flushBatch env s w = ((s, None), w).
Proof.
  intros He. unfold flushBatch. rewrite He.
  by destruct (decide (length (@nil UpdateOneModel) = 0%nat)).
Qed.

Lemma diff_loop_sizes keys bs now claims : 0 < bs -> forall s w,
  Z.of_nat (length (batch s)) < bs ->
  exists full,
    bulk_outcomes (w_trace (diff_loop env keys bs now claims s w).2)
    = bulk_outcomes (w_trace w) ++ full
    /\ Forall (fun o => batch_len o = bs) full
    /\ Z.of_nat (length (batch (diff_loop env keys bs now claims s w).1.1)) < bs
    /\ (diff_loop env keys bs now claims s w).1.2 = None.
Proof.
  intros Hbs. induction claims as [|c rest IH]; intros s w Hlen; cbn [diff_loop].
  - exists []. rewrite app_nil_r. by split_and!.
  - destruct (decide (_ ∈ keys)); [by apply IH|].
    set (s1 := {| batch := batch s ++ [upsert_model (with_UpdatedAt now c)];
                  inserted := inserted s; prepared := prepared s + 1 |}).
    assert (Hlen1 : Z.of_nat (length (batch s1)) = Z.of_nat (length (batch s)) + 1).
    { cbn [s1 batch]. rewrite length_app. cbn [length]. lia. }
    destruct (bs <=? Z.of_nat (length (batch s1))) eqn:Hfull.
    + apply Z.leb_le in Hfull. unfold mbind, M_bind.
      assert (Hne : batch s1 <> []).
      { intros Hnil. rewrite Hnil in Hlen1. cbn [length] in Hlen1. lia. }
      destruct (flushBatch_nonempty s1 w Hne) as (res & err & Ht & Hb & Herr).
      destruct (flushBatch env s1 w) as [[s2 err2] w2]. cbn [fst snd] in *. subst err2.
      destruct (IH s2 w2) as (full & Ht' & Hall & Hlen' & Hnone).
      { rewrite Hb. cbn [length]. lia. }
      exists ((batch s1, res, err) :: full). rewrite Ht', Ht, <- app_assoc.
      split_and!; try done. constructor; [|done].
      unfold batch_len, models_of. cbn [fst]. lia.
    + apply Z.leb_gt in Hfull. apply IH. lia.
Qed.

Lemma insertDiffClaims_sizes claims keys bulkSize w :
  exists full tail,
    bulk_outcomes (w_trace (insertDiffClaims env claims keys bulkSize w).2)
    = bulk_outcomes (w_trace w) ++ full ++ tail
    /\ Forall (fun o => batch_len o = effective_bulkSize bulkSize) full
    /\ (tail = [] \/ exists o, tail = [o] /\ 0 < batch_len o < effective_bulkSize bulkSize).
Proof.
  unfold insertDiffClaims.
  destruct (decide (length claims = 0%nat)).
  { exists [], []. cbn [mret M_ret snd app]. rewrite app_nil_r. split_and!; [done|done|by left]. }
  fold (effective_bulkSize bulkSize).
  assert (Hbs : 0 < effective_bulkSize bulkSize).
  { unfold effective_bulkSize. destruct (bulkSize <=? 0) eqn:H; [lia|]. by apply Z.leb_gt in H. }
  unfold mbind, M_bind. cbn [time_Now].
  match goal with |- context [diff_loop env keys ?bs ?now claims ?s0 ?w0] =>
    destruct (diff_loop_sizes keys bs now claims Hbs s0 w0 ltac:(cbn [batch length]; lia))
      as (full & Ht & Hall & Hlen & Hnone);
    destruct (diff_loop env keys bs now claims s0 w0) as [[s1 err] w1]
  end.
  cbn [fst snd w_trace] in *. subst err. exists full.
  destruct (batch s1) as [|m b1] eqn:Hb.
  - rewrite (flushBatch_empty s1 w1 Hb). exists [].
    cbn [log_Infow emit mret M_ret snd push w_trace].
    rewrite bulk_outcomes_app, bulk_outcomes_one, Ht. cbn [outcome_of from_option].
    rewrite !app_nil_r. split_and!; [done|done|by left].
  - assert (Hne : batch s1 <> []) by (by rewrite Hb).
    destruct (flushBatch_nonempty s1 w1 Hne) as (res & err & Ht2 & Hb2 & Herr).
    destruct (flushBatch env s1 w1) as [[s2 err2] w2]. cbn [fst snd] in *. subst err2.
    exists [(batch s1, res, err)].
    cbn [log_Infow emit mret M_ret snd push w_trace].
    rewrite bulk_outcomes_app, bulk_outcomes_one, Ht2, Ht. cbn [outcome_of from_option].
    rewrite !app_nil_r, <- app_assoc. split_and!; [done|done|].
    right. eexists. split; [reflexivity|]. unfold batch_len, models_of. cbn [fst].
    rewrite Hb in *. cbn [length] in *. lia.
Qed.

End Batches.

(** ** The result of a run *)

Lemma scan_keys_take coll n acc :
  exists keys, scan_keys (take n (map (fun d => Ok (project_key d)) coll)) acc = Ok keys.
Proof.
  replace (take n (map (fun d => Ok (project_key d)) coll))
    with (map (fun d : DBClaim => Ok (project_key d)) (take n coll)).
  - rewrite scan_keys_ok. by eexists.
  - revert n. induction coll as [|d coll IH]; intros [|n]; cbn [map take]; try done.
    by rewrite IH.
Qed.

Lemma loadAllClaimKeysFromDB_result env w :
  loadAllClaimKeysFromDB env w
  = (match find_error (db_find env) with
     | None => Ok (index_of (w_store w))
     | Some e => Err e
     end, push EvFind w).
Proof.
  unfold loadAllClaimKeysFromDB, mbind, M_bind, coll_Find, Find.
  destruct (db_find env) as [|e|n e|n e]; cbn [cur_docs cur_Err mret M_ret find_error].
  - by rewrite scan_keys_ok, union_empty_r_L.
  - done.
  - rewrite scan_keys_err; [done|].
    apply Forall_take. rewrite Forall_forall. intros r Hr.
    apply list_elem_of_In, in_map_iff in Hr as (d & <- & _). reflexivity.
  - by destruct (scan_keys_take (w_store w) n ∅) as (keys & ->).
Qed.

Section Outcome.
Variable Sscan_int64 : string -> option Z.
Variable env : Env.

Lemma loadClaimsFromFileFiltered_result active w :
  readable env w ->
  (loadClaimsFromFileFiltered Sscan_int64 env active w).1
  = match Decode_rpcAllClaims (fs_content env) with
    | Ok rpc => Ok (filtered Sscan_int64 active (clock env (w_nows w)) rpc)
    | Err e => Err (Wrapped "decode" e)
    end.
Proof.
  intros [Hrm (sz & Hst)].
  unfold loadClaimsFromFileFiltered, mbind, M_bind, os_Open. rewrite Hrm, Hst.
  cbn [emit]. by destruct (Decode_rpcAllClaims (fs_content env)).
Qed.

Lemma ingest_result active bulkSize w :
  readable env w ->
  (ingest Sscan_int64 env active bulkSize w).1
  = match Decode_rpcAllClaims (fs_content env) with
    | Err e => Some (Wrapped "decode" e)
    | Ok _ =>
        match find_error (db_find env) with
        | Some e => Some (Wrapped "load db keys" e)
        | None => None
        end
    end.
Proof.
  intros Hread. pose proof (loadClaimsFromFileFiltered_result active w Hread) as H1.
  unfold ingest, mbind, M_bind.
  destruct (loadClaimsFromFileFiltered Sscan_int64 env active w) as [r1 w1]. cbn [fst] in H1.
  subst r1. destruct (Decode_rpcAllClaims (fs_content env)) as [rpc|e]; [|done].
  cbn [log_Infow emit]. rewrite loadAllClaimKeysFromDB_result.
  destruct (find_error (db_find env)) as [e|]; [done|].
  match goal with |- context [insertDiffClaims env ?cl ?keys bulkSize ?w4] =>
    destruct (insertDiffClaims_spec env cl keys bulkSize w4) as (outs & ins & w5 & -> & _)
  end.
  unfold os_Remove. by destruct (fs_remove env).
Qed.

Lemma run_readable_gate bulkSize store :
  early_exit env = None ->
  exists wq active,
    loadActiveProviders (api env) = Ok active
    /\ readable env wq /\ w_store wq = store /\ w_nows wq = 0%nat
    /\ runFromTodayDumpOnce Sscan_int64 env bulkSize (boot store)
       = ingest Sscan_int64 env active bulkSize wq.
Proof.
  intros He.
  destruct (run_gate Sscan_int64 env bulkSize store)
    as (wq & (Hst & Hrm & _ & Hnow & _) & Hrun & Hsl).
  unfold early_exit in He. rewrite Hrun.
  destruct (fs_stat env 0) as [prev|e] eqn:H0; [|done].
  specialize (Hsl prev eq_refl).
  destruct (poll_verdict env stableCheckRetries 0 prev) as [[[|]|e] last] eqn:Hv;
    cbn [fst snd] in *; try done.
  destruct (poll_true_inv env stableCheckRetries 0 prev last H0 Hv)
    as (k & _ & -> & (a & _ & Ha) & _).
  unfold after_gate, mbind, M_bind. cbn [log_Infow emit].
  destruct (loadActiveProviders (api env)) as [active|e]; [|done].
  destruct (decide (size active = 0%nat)); [done|].
  eexists _, active. split_and!; [done| | | |reflexivity].
  - split; [done|]. cbn [push w_sleeps]. rewrite Hsl. by exists a.
  - done.
  - done.
Qed.

Lemma run_result_correct bulkSize store :
  (runFromTodayDumpOnce Sscan_int64 env bulkSize (boot store)).1 = run_result env.
Proof.
  unfold run_result. destruct (early_exit env) as [r0|] eqn:He.
  - destruct (run_spec Sscan_int64 env bulkSize store) as (r & w' & outs & -> & _ & _ & _ & H).
    rewrite He in H. by destruct H as [-> _].
  - destruct (run_readable_gate bulkSize store He)
      as (wq & active & _ & Hread & _ & _ & ->).
    by apply ingest_result.
Qed.

End Outcome.

(** ** Tuples and polling *)

Lemma tuple_of_claim_of_entry S now k rec :
  tuple_of (claim_of_entry S now k rec)
  = (to_int64 (filecoinClaim.Provider rec), filecoinClaim.Data rec,
     filecoinClaim.Sector rec, filecoinClaim.TermStart rec).
Proof. reflexivity. Qed.

Lemma poll_fails env retries : forall last prev k e,
  fs_stat env last = StatOk prev -> (k < retries)%nat ->
  (forall j, (j < k)%nat -> changing env (last + j)) ->
  fs_stat env (S (last + k)) = StatErr e ->
  poll_verdict env retries last prev
  = (Err (Wrapped "stat dump file during stability check" e), S (last + k)).
Proof.
  induction retries as [|n IH]; intros last prev k e Hprev Hk Hch He; [lia|].
  cbn [poll_verdict]. destruct k as [|k].
  - rewrite Nat.add_0_r in He. by rewrite He, Nat.add_0_r.
  - destruct (Hch 0%nat ltac:(lia)) as (a & b & Ha & Hb & Hne). rewrite Nat.add_0_r in *.
    rewrite Hb. assert (a = prev) by congruence. subst a.
    rewrite (proj2 (Z.eqb_neq b prev) Hne).
    rewrite (IH (S last) b k e Hb ltac:(lia)).
    + f_equal. f_equal. lia.
    + intros j Hj. replace (S last + j)%nat with (last + S j)%nat by lia. apply Hch. lia.
    + by replace (S (S last + k)) with (S (last + S k)) by lia.
Qed.

Lemma poll_verdict_bound env retries : forall last prev,
  (last < (poll_verdict env retries last prev).2 <= last + retries)%nat
  \/ (retries = 0%nat /\ (poll_verdict env retries last prev).2 = last).
Proof.
  induction retries as [|n IH]; intros last prev; cbn [poll_verdict]; [by right|].
  left. destruct (fs_stat env (S last)) as [sz|e]; cbn [snd]; [|lia].
  destruct (sz =? prev); cbn [snd]; [lia|].
  destruct (IH (S last) sz) as [H|[-> H]]; [lia|]. cbn [poll_verdict snd]. lia.
Qed.

Section Runs.
Variable Sscan_int64 : string -> option Z.
Variable env : Env.

Lemma run_sleeps bulkSize store :
  w_sleeps (runFromTodayDumpOnce Sscan_int64 env bulkSize (boot store)).2
  = match fs_stat env 0 with
    | StatErr _ => 0%nat
    | StatOk prev => (poll_verdict env stableCheckRetries 0 prev).2
    end.
Proof.
  destruct (fs_stat env 0) as [prev|e] eqn:H0.
  - destruct (run_gate Sscan_int64 env bulkSize store) as (wq & _ & Hrun & Hsl).
    rewrite Hrun, H0. rewrite H0 in Hsl. specialize (Hsl prev eq_refl).
    destruct ((poll_verdict env stableCheckRetries 0 prev).1) as [[|]|e]; try done.
    unfold after_gate, mbind, M_bind. cbn [log_Infow emit].
    destruct (loadActiveProviders (api env)) as [active|e]; [|done].
    destruct (decide (size active = 0%nat)); [done|].
    match goal with |- context [ingest Sscan_int64 env active bulkSize ?w1] =>
      destruct (ingest_spec Sscan_int64 env active bulkSize w1)
        as (r & w' & outs & -> & _ & _ & _ & _ & Hs & _)
    end.
    cbn [snd]. by rewrite Hs.
  - unfold runFromTodayDumpOnce, mbind, M_bind, os_Stat, log_Infow at 1, emit.
    cbn [boot push w_removed w_sleeps]. rewrite H0.
    by destruct (IsNotExist e).
Qed.

End Runs.

(** ** Records that do not decode *)

Lemma decode_members_fails {S : Type} (step : S -> string * json -> result S) members kv :
  kv ∈ members -> (forall s, exists e, step s kv = Err e) ->
  forall s, exists e, decode_members step s members = Err e.
Proof.
  intros Hin Hfail. induction members as [|kv' rest IH]; intros s.
  - by apply not_elem_of_nil in Hin.
  - cbn [decode_members]. destruct (step s kv') as [s'|e] eqn:Hs; [|by exists e].
    apply elem_of_cons in Hin as [->|Hin].
    + destruct (Hfail s) as (e & He). congruence.
    + by apply IH.
Qed.

Lemma EqualFold_result_not_jsonrpc k :
  EqualFold k "result" = true -> EqualFold k "jsonrpc" = false.
Proof.
  unfold EqualFold. change (lower "result") with "result".
  change (lower "jsonrpc") with "jsonrpc".
  intros ->%String.eqb_eq. reflexivity.
Qed.

Lemma Decode_rpcAllClaims_bad_record members kr entries k v e :
  (kr, JObject entries) ∈ members -> EqualFold kr "result" = true ->
  (k, v) ∈ entries -> decode_filecoinClaim v = Err e ->
  exists e', Decode_rpcAllClaims (Some (JObject members)) = Err e'.
Proof.
  intros Hres Hfold Hentry Hbad. cbn [Decode_rpcAllClaims].
  apply (decode_members_fails decode_rpc_member members (kr, JObject entries) Hres).
  intros r. unfold decode_rpc_member.
  rewrite (EqualFold_result_not_jsonrpc kr Hfold), Hfold.
  destruct (decode_members_fails decode_result_entry entries (k, v) Hentry) with (s := Result r)
    as (e' & ->).
  - intros m. unfold decode_result_entry. cbn [snd]. rewrite Hbad. by eexists.
  - by eexists.
Qed.

(** ** Epochs and wall-clock time *)

Lemma wrap64_small x : - 2 ^ 63 <= x < 2 ^ 63 -> model.wrap64 x = x.
Proof.
  assert (Hpow : 2 ^ 63 = 9223372036854775808) by reflexivity.
  assert (Hpow' : 2 ^ 64 = 18446744073709551616) by reflexivity.
  intros Hx. unfold model.wrap64. rewrite Z.mod_small by lia. lia.
Qed.

Lemma wrap32_small x : - 2 ^ 31 <= x < 2 ^ 31 -> model.wrap32 x = x.
Proof.
  assert (Hpow : 2 ^ 31 = 2147483648) by reflexivity.
  assert (Hpow' : 2 ^ 32 = 4294967296) by reflexivity.
  intros Hx. unfold model.wrap32. rewrite Z.mod_small by lia. lia.
Qed.

Lemma IsZero_time_Unix sec : model.IsZero (model.time_Unix sec) = (sec =? -62135596800).
Proof. unfold model.IsZero, model.time_Unix. cbn [model.unix model.nsec]. apply andb_true_r. Qed.

Lemma EpochToTime64_unix e :
  0 <= e <= (maxInt64 - model.filecoinGenesisUnix) / 30 ->
  model.EpochToTime64 e = model.time_Unix (e * 30 + 1598306400).
Proof.
  assert (Hmaxi : maxInt64 = 9223372036854775807) by reflexivity.
  assert (Hpow : 2 ^ 63 = 9223372036854775808) by reflexivity.
  unfold model.filecoinGenesisUnix. rewrite Hmaxi.
  change ((9223372036854775807 - 1598306400) / 30) with 307445734508548980.
  intros He. unfold model.EpochToTime64, model.epochDurationSec, model.filecoinGenesisUnix.
  replace (e <? 0) with false by (symmetry; apply Z.ltb_ge; lia).
  rewrite (wrap64_small (e * 30)) by lia. rewrite wrap64_small by lia. reflexivity.
Qed.

Lemma epoch_roundtrip64 e :
  0 <= e <= (maxInt64 - model.filecoinGenesisUnix) / 30 ->
  model.TimeToEpoch64 (model.EpochToTime64 e) = e.
Proof.
  assert (Hmaxi : maxInt64 = 9223372036854775807) by reflexivity.
  assert (Hpow : 2 ^ 63 = 9223372036854775808) by reflexivity.
  intros He. rewrite (EpochToTime64_unix e He).
  unfold model.filecoinGenesisUnix in He. rewrite Hmaxi in He.
  change ((9223372036854775807 - 1598306400) / 30) with 307445734508548980 in He.
  unfold model.TimeToEpoch64. rewrite IsZero_time_Unix.
  replace (e * 30 + 1598306400 =? -62135596800) with false by (symmetry; apply Z.eqb_neq; lia).
  unfold model.time_Unix, model.filecoinGenesisUnix, model.epochDurationSec. cbn [model.unix].
  rewrite wrap64_small by lia.
  replace (e * 30 + 1598306400 - 1598306400) with (e * 30) by lia.
  apply Z.quot_mul. lia.
Qed.

Lemma time_epoch_floor64 t :
  model.filecoinGenesisUnix <= model.unix t <= maxInt64 ->
  0 <= model.TimeToEpoch64 t
  /\ model.unix (model.EpochToTime64 (model.TimeToEpoch64 t)) <= model.unix t
     < model.unix (model.EpochToTime64 (model.TimeToEpoch64 t)) + 30.
Proof.
  assert (Hmaxi : maxInt64 = 9223372036854775807) by reflexivity.
  assert (Hpow : 2 ^ 63 = 9223372036854775808) by reflexivity.
  unfold model.filecoinGenesisUnix. intros Ht.
  assert (He : model.TimeToEpoch64 t = (model.unix t - 1598306400) / 30).
  { unfold model.TimeToEpoch64, model.IsZero.
    replace (model.unix t =? -62135596800) with false by (symmetry; apply Z.eqb_neq; lia).
    cbn [andb]. unfold model.filecoinGenesisUnix, model.epochDurationSec.
    rewrite wrap64_small by lia. apply Z.quot_div_nonneg; lia. }
  rewrite He.
  pose proof (Z.div_mod (model.unix t - 1598306400) 30 ltac:(lia)) as Hdm.
  pose proof (Z.mod_pos_bound (model.unix t - 1598306400) 30 ltac:(lia)) as Hm.
  assert (Hq : 0 <= (model.unix t - 1598306400) / 30) by (apply Z.div_pos; lia).
  rewrite EpochToTime64_unix.
  - unfold model.time_Unix. cbn [model.unix]. lia.
  - split; [done|]. unfold model.filecoinGenesisUnix. rewrite Hmaxi.
    apply Z.div_le_mono; lia.
Qed.

Lemma negative_epoch_collapses e : e < 0 -> model.TimeToEpoch64 (model.EpochToTime64 e) = -1.
Proof.
  intros He. unfold model.EpochToTime64.
  by replace (e <? 0) with true by (symmetry; apply Z.ltb_lt; lia).
Qed.

Lemma just_before_genesis t :
  model.filecoinGenesisUnix - 30 < model.unix t < model.filecoinGenesisUnix ->
  model.TimeToEpoch64 t = 0.
Proof.
  assert (Hpow : 2 ^ 63 = 9223372036854775808) by reflexivity.
  unfold model.filecoinGenesisUnix. intros Ht.
  unfold model.TimeToEpoch64, model.IsZero.
  replace (model.unix t =? -62135596800) with false by (symmetry; apply Z.eqb_neq; lia).
  cbn [andb]. unfold model.filecoinGenesisUnix, model.epochDurationSec.
  rewrite wrap64_small by lia.
  apply Z.quot_small_iff; lia.
Qed.

Lemma EpochToTime_agrees e :
  0 <= e <= model.maxEpoch32 -> model.EpochToTime e = model.EpochToTime64 e.
Proof.
  assert (Hmaxi : maxInt64 = 9223372036854775807) by reflexivity.
  assert (Hpow : 2 ^ 31 = 2147483648) by reflexivity.
  unfold model.maxEpoch32. intros He.
  rewrite EpochToTime64_unix.
  2:{ unfold model.filecoinGenesisUnix. rewrite Hmaxi.
      change ((9223372036854775807 - 1598306400) / 30) with 307445734508548980. lia. }
  unfold model.EpochToTime.
  replace (e <? 0) with false by (symmetry; apply Z.ltb_ge; lia).
  rewrite (wrap32_small (e * 30)) by lia. rewrite wrap32_small by lia. reflexivity.
Qed.

(** ** Configuration, scheduling and paging *)

Lemma mustEnv_default Getenv key def :
  def <> "" -> exists v, mustEnv Getenv key def = Some v /\ v <> "".
Proof.
  intros Hdef. unfold mustEnv. destruct (String.eqb (Getenv key) "") eqn:Hv.
  - apply String.eqb_neq in Hdef. rewrite Hdef. cbn [negb]. exists def.
    split; [done|]. by apply String.eqb_neq.
  - exists (Getenv key). split; [done|]. by apply String.eqb_neq.
Qed.

Lemma mustEnv_required Getenv key :
  mustEnv Getenv key "" = if String.eqb (Getenv key) "" then None else Some (Getenv key).
Proof. unfold mustEnv. by destruct (String.eqb (Getenv key) ""). Qed.

Lemma loadCfg_spec Getenv Sscan_int :
  match loadCfg Getenv Sscan_int with
  | None => Getenv "FULLNODE_API_URL" = "" \/ Getenv "MONGO_URI" = ""
  | Some c =>
      Getenv "FULLNODE_API_URL" <> "" /\ Getenv "MONGO_URI" <> ""
      /\ LotusURL c = Getenv "FULLNODE_API_URL" /\ MongoURI c = Getenv "MONGO_URI"
      /\ MongoDB c <> "" /\ MongoColl c <> ""
      /\ (Getenv "MONGO_DB" = "" -> MongoDB c = "filstats")
      /\ (Getenv "MONGO_CLAIMS_COLL" = "" -> MongoColl c = "claims")
      /\ (Getenv "CLAIMS_BULK_SIZE" = "" -> BulkSize c = 2000)
      /\ (Getenv "RUN_EVERY_HOURS" = "" -> RunEveryHours c = 1)
  end.
Proof.
  unfold loadCfg. rewrite !mustEnv_required.
  destruct (String.eqb (Getenv "FULLNODE_API_URL") "") eqn:H1.
  { left. by apply String.eqb_eq. }
  destruct (String.eqb (Getenv "MONGO_URI") "") eqn:H2.
  { right. by apply String.eqb_eq. }
  destruct (mustEnv_default Getenv "MONGO_DB" "filstats" ltac:(done)) as (db & Hdb & Hdbne).
  destruct (mustEnv_default Getenv "MONGO_CLAIMS_COLL" "claims" ltac:(done)) as (co & Hco & Hcone).
  rewrite Hdb, Hco. cbn [LotusURL MongoURI MongoDB MongoColl BulkSize RunEveryHours].
  apply String.eqb_neq in H1, H2. split_and!; try done.
  - intros He. unfold mustEnv in Hdb. rewrite He in Hdb. cbn in Hdb. congruence.
  - intros He. unfold mustEnv in Hco. rewrite He in Hco. cbn in Hco. congruence.
  - intros He. unfold envInt. by rewrite He.
  - intros He. unfold envInt. by rewrite He.
Qed.

Lemma effective_bulkSize_pos bulkSize : 1 <= effective_bulkSize bulkSize.
Proof.
  unfold effective_bulkSize. destruct (bulkSize <=? 0) eqn:H; [lia|].
  apply Z.leb_gt in H. lia.
Qed.

Lemma interval_hours_pos c : 1 <= interval_hours c.
Proof.
  unfold interval_hours. destruct (RunEveryHours c <=? 0) eqn:H; [lia|].
  apply Z.leb_gt in H. lia.
Qed.

Lemma ticker_period_exact c :
  RunEveryHours c <= 2562047 ->
  ticker_period c = interval_hours c * 3600000000000 /\ 0 < ticker_period c.
Proof.
  assert (Hmaxi : maxInt64 = 9223372036854775807) by reflexivity.
  assert (Hpow' : 2 ^ 64 = 18446744073709551616) by reflexivity.
  intros Hle. pose proof (interval_hours_pos c) as Hpos.
  assert (Hi : interval_hours c <= 2562047).
  { unfold interval_hours. destruct (RunEveryHours c <=? 0); lia. }
  unfold ticker_period, to_uint64. rewrite Z.mod_small by lia.
  rewrite to_int64_small by lia. lia.
Qed.

Section SchedulerFacts.
Variable Sscan_int64 : string -> option Z.
Variable envs : nat -> Env.
Variable bulkSize : Z.

Lemma scheduler_loop_results signals : forall n store results,
  length (scheduler_loop Sscan_int64 envs bulkSize signals n store results).2
  = (length results + ticks_served signals)%nat.
Proof.
  induction signals as [|[|] rest IH]; intros n store results;
    cbn [scheduler_loop ticks_served snd]; try lia.
  destruct (runFromTodayDumpOnce _ _ _ _) as [r w]. rewrite IH, length_app. cbn [length]. lia.
Qed.

Lemma scheduler_loop_preserves (I : list DBClaim -> Prop) signals :
  (forall c coll, I coll -> I (exec_model (upsert_model c) coll).1) ->
  forall n store results,
  I store -> I (scheduler_loop Sscan_int64 envs bulkSize signals n store results).1.
Proof.
  intros HI. induction signals as [|[|] rest IH]; intros n store results Hs;
    cbn [scheduler_loop fst]; try done.
  pose proof (run_preserves I Sscan_int64 (envs n) bulkSize store HI Hs) as H.
  destruct (runFromTodayDumpOnce _ _ _ _) as [r w]. by apply IH.
Qed.

Lemma main_runs_preserves (I : list DBClaim -> Prop) signals store :
  (forall c coll, I coll -> I (exec_model (upsert_model c) coll).1) ->
  I store -> I (main_runs Sscan_int64 envs bulkSize signals store).1.
Proof.
  intros HI Hs. unfold main_runs.
  pose proof (run_preserves I Sscan_int64 (envs 0) bulkSize store HI Hs) as H.
  destruct (runFromTodayDumpOnce _ _ _ _) as [r w]. by apply scheduler_loop_preserves.
Qed.

End SchedulerFacts.

Lemma exec_upsert_extends store c coll :
  (exists added, coll = store ++ added) ->
  exists added, (exec_model (upsert_model c) coll).1 = store ++ added.
Proof.
  intros (added & ->). rewrite exec_upsert.
  destruct (present _ _); cbn [fst]; [by exists added|].
  exists (added ++ [c]). by rewrite app_assoc.
Qed.

Lemma parsePage_bounds pStr psStr :
  1 <= (stats.parsePage pStr psStr).1 <= maxInt64
  /\ 1 <= (stats.parsePage pStr psStr).2 <= stats.maxPageSize.
Proof.
  unfold stats.parsePage, stats.Atoi, stats.maxPageSize, stats.defaultPageSize. cbn [fst snd].
  assert (Hmaxi : maxInt64 = 9223372036854775807) by reflexivity.
  split.
  - destruct (ParseInt pStr) as [v|e] eqn:Hv; [|lia].
    apply ParseInt_range in Hv. unfold is_int64 in Hv.
    destruct (0 <? v) eqn:Hp; [|lia]. apply Z.ltb_lt in Hp. lia.
  - destruct (ParseInt psStr) as [v|e] eqn:Hv; [|lia].
    destruct ((0 <? v) && (v <=? 200)) eqn:Hp; [|lia].
    apply andb_true_iff in Hp as [H1 H2]. apply Z.ltb_lt in H1. apply Z.leb_le in H2. lia.
Qed.

Lemma window_exact page pageSize :
  1 <= page <= maxInt64 / stats.maxPageSize -> 1 <= pageSize <= stats.maxPageSize ->
  (stats.window page pageSize).1 = (page - 1) * pageSize
  /\ (stats.window page pageSize).2 - (stats.window page pageSize).1 + 1 = pageSize
  /\ 0 <= (stats.window page pageSize).1.
Proof.
  assert (Hmaxi : maxInt64 = 9223372036854775807) by reflexivity.
  assert (Hpow : 2 ^ 63 = 9223372036854775808) by reflexivity.
  unfold stats.maxPageSize. rewrite Hmaxi.
  change (9223372036854775807 / 200) with 46116860184273879.
  intros Hp Hs. unfold stats.window. cbn [fst snd].
  assert (Hb : 0 <= (page - 1) * pageSize <= 46116860184273878 * 200) by nia.
  rewrite (wrap64_small ((page - 1) * pageSize)) by lia.
  rewrite (wrap64_small ((page - 1) * pageSize + pageSize)) by lia.
  rewrite wrap64_small by lia. lia.
Qed.

(** ** The loop of AddTasks *)

Section AddTasksFacts.

Variable ResolveProvider : string -> result resolver.MinerInfo.t.
Variable ResolveMultiaddrsBytes :
  list (list Byte.byte) -> resolver.IPInfo.t * option requesterror.t.
Variable peer_Decode : string -> option string.
Variable MultiaddrsBytesToStringArraySkippingError : list (list Byte.byte) -> list string.
Variable GetDuration : Z -> Z.
Variable clock : nat -> Z.
Variable range_order : nat -> list (task.ModuleName * gmap string string).

Abbreviation addErrorResults :=
  (util.addErrorResults MultiaddrsBytesToStringArraySkippingError GetDuration clock range_order).
Abbreviation AddTasks_step :=
  (util.AddTasks_step ResolveProvider ResolveMultiaddrsBytes peer_Decode
     MultiaddrsBytesToStringArraySkippingError GetDuration clock range_order).
Abbreviation AddTasks :=
  (util.AddTasks ResolveProvider ResolveMultiaddrsBytes peer_Decode
     MultiaddrsBytesToStringArraySkippingError GetDuration clock range_order).
Abbreviation reachable := (reachable ResolveProvider ResolveMultiaddrsBytes peer_Decode).

Lemma addErrorResults_fold requester ipInfo document providerInfo location code msg order :
  forall acc,
  exists new,
    (foldl (util.addErrorResults_step MultiaddrsBytesToStringArraySkippingError GetDuration
              clock requester ipInfo document providerInfo location code msg) acc order).1
    = acc.1 ++ new
    /\ map result_module new = map fst order
    /\ Forall (fun r => exists entry, entry ∈ order /\ entry.1 = result_module r
                 /\ task.Task.Requester (task.Result.Task_ r) = requester
                 /\ task.Provider.ID (task.Task.Provider (task.Result.Task_ r))
                    = MinerAddr document
                 /\ task.Content.CID (task.Task.Content (task.Result.Task_ r))
                    = DataCID document
                 /\ task.Task.Metadata (task.Result.Task_ r)
                    = <[ "client" := ClientAddr document ]> entry.2
                 /\ task.RetrievalResult.ErrorCode_ (task.Result.Result r) = code
                 /\ task.RetrievalResult.ErrorMessage (task.Result.Result r) = msg
                 /\ failure r) new.
Proof.
  induction order as [|entry order IH]; intros acc; cbn [foldl].
  - exists []. by rewrite app_nil_r.
  - destruct (IH (util.addErrorResults_step MultiaddrsBytesToStringArraySkippingError
                    GetDuration clock requester ipInfo document providerInfo location
                    code msg acc entry)) as (new & Heq & Hmod & Hall).
    eexists (_ :: new). split_and!.
    + rewrite Heq. cbn [util.addErrorResults_step fst]. rewrite <- app_assoc. reflexivity.
    + cbn [map]. rewrite Hmod. reflexivity.
    + constructor.
      * exists entry. split; [by left|]. by split_and!.
      * eapply Forall_impl; [exact Hall|]. cbn beta.
        intros r (entry' & Hin & Hrest). exists entry'. split; [by right|done].
Qed.

Lemma addErrorResults_spec requester ipInfo results document providerInfo location code msg c :
  exists new,
    (addErrorResults requester ipInfo results document providerInfo location code msg c).1
    = results ++ new
    /\ map result_module new = map fst (range_order (util.ranges c))
    /\ Forall (fun r => reports requester document (range_order (util.ranges c)) r
                 /\ task.RetrievalResult.ErrorCode_ (task.Result.Result r) = code
                 /\ task.RetrievalResult.ErrorMessage (task.Result.Result r) = msg) new.
Proof.
  unfold util.addErrorResults. cbn [fst].
  destruct (addErrorResults_fold requester ipInfo document providerInfo location code msg
              (range_order (util.ranges c)) (results, util.nows c))
    as (new & Heq & Hmod & Hall).
  exists new. split_and!; [exact Heq|exact Hmod|].
  eapply Forall_impl; [exact Hall|]. cbn beta.
  intros r (entry & Hin & Hm & Hreq & Hid & Hcid & Hmeta & Hcode & Hmsg & Hfail).
  split_and!; try done. unfold reports. split_and!; try done.
  exists entry. by split_and!.
Qed.

(** The three ways a document leaves the loop of [AddTasks]: dropped, turned
    into one result per entry of the map, or turned into a task. *)
Lemma AddTasks_step_cases requester ipInfo tasks results c document :
  (~ reachable document
   /\ AddTasks_step requester ipInfo (tasks, results, c) document = (tasks, results, c))
  \/ (~ reachable document
      /\ is_ok (ResolveProvider (MinerAddr document)) = true
      /\ exists new code msg,
           (AddTasks_step requester ipInfo (tasks, results, c) document).1
           = (tasks, results ++ new)
           /\ map result_module new = map fst (range_order (util.ranges c))
           /\ Forall (fun r => reports requester document (range_order (util.ranges c)) r
                        /\ task.RetrievalResult.ErrorCode_ (task.Result.Result r) = code
                        /\ task.RetrievalResult.ErrorMessage (task.Result.Result r) = msg)
                     new)
  \/ (exists providerInfo location,
        ResolveProvider (MinerAddr document) = Ok providerInfo
        /\ ResolveMultiaddrsBytes (resolver.MinerInfo.Multiaddrs providerInfo)
           = (location, None)
        /\ peer_Decode (resolver.MinerInfo.PeerId providerInfo) = None
        /\ (AddTasks_step requester ipInfo (tasks, results, c) document).1
           = (tasks ++ [util.new_task MultiaddrsBytesToStringArraySkippingError GetDuration
                          clock requester document providerInfo location (util.nows c)],
              results)).
Proof.
  unfold util.AddTasks_step.
  destruct (ResolveProvider (MinerAddr document)) as [providerInfo|e] eqn:Hp.
  2:{ left. split; [|reflexivity]. intros (p & l & H & _). congruence. }
  destruct (ResolveMultiaddrsBytes (resolver.MinerInfo.Multiaddrs providerInfo))
    as [location [err|]] eqn:Hl.
  - assert (Hun : ~ reachable document).
    { intros (p & l & H1 & H2 & _). rewrite Hp in H1. injection H1 as <-. congruence. }
    destruct (util.reported (requesterror.kind err)).
    + right; left. split; [exact Hun|]. split; [reflexivity|].
      destruct (addErrorResults_spec requester ipInfo results document providerInfo location
                  task.NoValidMultiAddrs (requesterror.Error err) c) as (new & Heq & Hrest).
      exists new, task.NoValidMultiAddrs, (requesterror.Error err).
      cbn [fst]. rewrite Heq. split; [reflexivity|exact Hrest].
    + left. split; [exact Hun|reflexivity].
  - destruct (peer_Decode (resolver.MinerInfo.PeerId providerInfo)) as [msg|] eqn:Hd.
    + assert (Hun : ~ reachable document).
      { intros (p & l & H1 & _ & H3). rewrite Hp in H1. injection H1 as <-. congruence. }
      right; left. split; [exact Hun|]. split; [reflexivity|].
      destruct (addErrorResults_spec requester ipInfo results document providerInfo location
                  task.InvalidPeerID msg c) as (new & Heq & Hrest).
      exists new, task.InvalidPeerID, msg.
      cbn [fst]. rewrite Heq. split; [reflexivity|exact Hrest].
    + right; right. exists providerInfo, location. by split_and!.
Qed.

(** A property of the slices that holds of the empty ones and that every
    turn of the loop keeps, for the documents seen so far, holds when
    [AddTasks] returns. *)
Lemma AddTasks_invariant (I : list DBClaim -> list task.Task.t -> list task.Result.t -> Prop)
    requester ipInfo documents c :
  I [] [] [] ->
  (forall seen document tasks results c',
     I seen tasks results ->
     I (seen ++ [document])
       (AddTasks_step requester ipInfo (tasks, results, c') document).1.1
       (AddTasks_step requester ipInfo (tasks, results, c') document).1.2) ->
  I documents (AddTasks requester ipInfo documents c).1.1
    (AddTasks requester ipInfo documents c).1.2.
Proof.
  intros Hinit Hstep. unfold util.AddTasks.
  induction documents as [|document documents IH] using rev_ind; [exact Hinit|].
  rewrite foldl_app. cbn [foldl].
  destruct (foldl _ _ documents) as [[tasks results] c'].
  by apply Hstep.
Qed.

End AddTasksFacts.

Lemma moduleMetadataMap_lookup entry :
  entry ∈ util.moduleMetadataMap -> entry.2 = module_metadata entry.1.
Proof.
  unfold util.moduleMetadataMap.
  intros H. repeat (apply elem_of_cons in H as [->|H]; [reflexivity|]).
  by apply elem_of_nil in H.
Qed.

Lemma results_of_app m a b : results_of m (a ++ b) = results_of m a ++ results_of m b.
Proof. unfold results_of. by rewrite filter_app. Qed.

Lemma results_of_length m (new : list task.Result.t) order :
  map result_module new = map fst order -> order ≡ₚ util.moduleMetadataMap ->
  length (results_of m new) = 1%nat.
Proof.
  intros Hmod Hperm.
  assert (Hlen : length (results_of m new)
                 = length (filter (fun x => x = m) (map result_module new))).
  { clear. unfold results_of. induction new as [|r new IH]; [reflexivity|].
    cbn [map]. rewrite !filter_cons. destruct (decide (result_module r = m)).
    - cbn [length]. by rewrite IH.
    - exact IH. }
  rewrite Hlen, Hmod, Hperm. by destruct m.
Qed.

(** ** Further properties of the importer, the model package and the statistics service *)

Lemma failed_run_facts Sscan_int64 env bulkSize store e w' :
  runFromTodayDumpOnce Sscan_int64 env bulkSize (boot store) = (Some e, w') ->
  bulk_outcomes (w_trace w') = [] /\ w_store w' = store
  /\ cleaned (w_trace w') = false /\ w_removed w' = false.
Proof.
  intros Hrun.
  destruct (run_spec Sscan_int64 env bulkSize store)
    as (r & w & outs & Hrun' & Hbo & _ & _ & Hcase).
  rewrite Hrun in Hrun'. injection Hrun' as <- <-.
  destruct (early_exit env) as [r0|].
  - destruct Hcase as (_ & Hq). by apply quiet_run_facts in Hq as (_ & _ & ? & ? & ? & ?).
  - destruct Hcase as (_ & active & _ & [(_ & -> & ? & ? & ?)|(? & _)]); [|done].
    by rewrite Hbo.
Qed.

(** X1.  [i64OrStr] decodes every [int64], negative ones included, from the
    JSON number and from the JSON string of its decimal numeral. *)
Theorem signed_numerals_decode (i : Z) :
  is_int64 i ->
  i64OrStr_UnmarshalJSON (JNumber (FormatInt i)) = Ok i
  /\ i64OrStr_UnmarshalJSON (JString (FormatInt i)) = Ok i.
Proof.
  intros Hi. unfold i64OrStr_UnmarshalJSON, json_Unmarshal_int64, json_Unmarshal_string.
  cbn [starts_with_quote negb].
  by rewrite isValidNumber_FormatInt, ParseInt_FormatInt.
Qed.

Lemma signed_numerals_decode_witness :
  i64OrStr_UnmarshalJSON (JNumber (FormatInt (- 2 ^ 63))) = Ok (- 2 ^ 63)
  /\ i64OrStr_UnmarshalJSON (JString (FormatInt (- 2 ^ 63))) = Ok (- 2 ^ 63).
Proof. apply (signed_numerals_decode (- 2 ^ 63)). unfold is_int64, maxInt64. lia. Defined.

(** X2.  [u64OrStr] rejects the numeral of a negative integer: the string
    form with strconv's syntax error, the number form with a type error of
    the JSON decoder. *)
Theorem u64OrStr_rejects_negative (i : Z) :
  - 2 ^ 63 <= i < 0 ->
  u64OrStr_UnmarshalJSON (JString (FormatInt i)) = Err ErrSyntax
  /\ u64OrStr_UnmarshalJSON (JNumber (FormatInt i)) = Err UnmarshalTypeError.
Proof.
  intros Hi.
  assert (Hint : is_int64 i) by (unfold is_int64, maxInt64; lia).
  pose proof (isValidNumber_FormatInt i Hint) as Hvalid.
  rewrite FormatInt_neg in * by lia.
  unfold u64OrStr_UnmarshalJSON, json_Unmarshal_uint64, json_Unmarshal_string.
  cbn [starts_with_quote negb]. by rewrite Hvalid, ParseUint_minus.
Qed.

Lemma u64OrStr_rejects_negative_witness :
  u64OrStr_UnmarshalJSON (JString (FormatInt (-5))) = Err ErrSyntax
  /\ u64OrStr_UnmarshalJSON (JNumber (FormatInt (-5))) = Err UnmarshalTypeError.
Proof. apply (u64OrStr_rejects_negative (-5)). lia. Defined.

(** X3.  [u64OrStr] rejects a decimal numeral of up to 20 digits whose value
    is above the largest [uint64] rather than wrapping it: the string form
    with strconv's range error, the number form with a type error. *)
Theorem u64OrStr_rejects_overflow (n : Z) :
  maxUint64 < n < 10 ^ 20 ->
  u64OrStr_UnmarshalJSON (JString (FormatUint n)) = Err ErrRange
  /\ u64OrStr_UnmarshalJSON (JNumber (FormatUint n)) = Err UnmarshalTypeError.
Proof.
  intros Hn. unfold u64OrStr_UnmarshalJSON, json_Unmarshal_uint64, json_Unmarshal_string.
  cbn [starts_with_quote negb]. rewrite (ParseUint_overflow n Hn).
  rewrite isValidNumber_numeral; [done|].
  assert (maxUint64 = 18446744073709551615) by reflexivity. lia.
Qed.

Lemma u64OrStr_rejects_overflow_witness :
  u64OrStr_UnmarshalJSON (JString (FormatUint (2 ^ 64))) = Err ErrRange
  /\ u64OrStr_UnmarshalJSON (JNumber (FormatUint (2 ^ 64))) = Err UnmarshalTypeError.
Proof. apply (u64OrStr_rejects_overflow (2 ^ 64)). unfold maxUint64. lia. Defined.

(** X4.  Whatever JSON value they are given, the numeric decoders return
    only values of their Go type: [u64OrStr] a [uint64], [i64OrStr] an
    [int64]. *)
Theorem decoded_numbers_fit (b : json) (x : Z) :
  (u64OrStr_UnmarshalJSON b = Ok x -> is_uint64 x)
  /\ (i64OrStr_UnmarshalJSON b = Ok x -> is_int64 x).
Proof. split; [apply u64OrStr_range|apply i64OrStr_range]. Qed.

Lemma decoded_numbers_fit_witness : is_uint64 maxUint64 /\ is_int64 (- 2 ^ 63).
Proof.
  split.
  - apply (proj1 (decoded_numbers_fit (JString "18446744073709551615") maxUint64)).
    vm_compute. reflexivity.
  - apply (proj2 (decoded_numbers_fit (JNumber "-9223372036854775808") (- 2 ^ 63))).
    vm_compute. reflexivity.
Defined.

(** X5.  Every record of a dump that decodes has fields that fit their Go
    types, and so do the fields of the uniqueness tuple of the claim built
    from it. *)
Theorem decoded_dump_fits (Sscan_int64 : string -> option Z) (content : option json)
    (rpc : rpcAllClaims) (k : string) (rec : filecoinClaim.t) (now : Z) :
  Decode_rpcAllClaims content = Ok rpc -> Result rpc !! k = Some rec ->
  record_fits rec /\ tuple_fits (claim_of_entry Sscan_int64 now k rec).
Proof.
  intros Hdec Hk. pose proof (Decode_rpcAllClaims_fits content rpc Hdec k rec Hk) as Hfit.
  split; [done|]. by apply claim_of_entry_fits.
Qed.

Lemma decoded_dump_fits_witness :
  record_fits (filecoinClaim.mk 1001 77 "bafyB" 1024 1 2 5 10)
  /\ tuple_fits (claim_of_entry sample_Sscan 0 "abc" (filecoinClaim.mk 1001 77 "bafyB" 1024 1 2 5 10)).
Proof.
  apply (decoded_dump_fits sample_Sscan (Some sample_dump) sample_rpc "abc").
  - vm_compute. reflexivity.
  - vm_compute. reflexivity.
Defined.

(** X6.  [claimKey] is injective on tuples whose numbers fit their Go types:
    two tuples with the same key are the same tuple, whatever characters the
    content identifier holds. *)
Theorem claimKey_injective (p : Z) (d : string) (s t : Z) (p' : Z) (d' : string) (s' t' : Z) :
  is_int64 p -> is_uint64 s -> is_int64 t ->
  is_int64 p' -> is_uint64 s' -> is_int64 t' ->
  claimKey p d s t = claimKey p' d' s' t' ->
  p = p' /\ d = d' /\ s = s' /\ t = t'.
Proof. apply claimKey_inj. Qed.

Lemma claimKey_injective_witness :
  1001 = 1001 /\ "a|5" = "a|5" /\ 6 = 6 /\ (-7) = (-7).
Proof.
  apply (claimKey_injective 1001 "a|5" 6 (-7) 1001 "a|5" 6 (-7));
    try (unfold is_int64, maxInt64; lia); try (unfold is_uint64, maxUint64; lia).
  reflexivity.
Defined.

(** X7.  The key index and the filter of the upsert agree: for documents
    whose tuple fits the Go types, a document has the key of a claim exactly
    when the filter of the claim's upsert matches it. *)
Theorem index_agrees_with_filter (c d : DBClaim) :
  tuple_fits c -> tuple_fits d ->
  (key_of d = key_of c <-> matches (Filter (upsert_model c)) d = true).
Proof.
  intros Hc Hd. rewrite matches_tuple. split.
  - by apply key_of_inj.
  - unfold tuple_of, key_of. by intros [= -> -> -> ->].
Qed.

Lemma index_agrees_with_filter_witness :
  key_of (sample_claim "bafyA") = key_of (with_UpdatedAt 5 (sample_claim "bafyA"))
  <-> matches (Filter (upsert_model (with_UpdatedAt 5 (sample_claim "bafyA"))))
        (sample_claim "bafyA") = true.
Proof.
  apply (index_agrees_with_filter (with_UpdatedAt 5 (sample_claim "bafyA")) (sample_claim "bafyA"));
    unfold tuple_fits, is_int64, is_uint64, maxInt64, maxUint64;
    cbn [with_UpdatedAt sample_claim ProviderID Sector TermStart]; lia.
Defined.

(** X8.  [loadAllClaimKeysFromDB] returns the keys of exactly the documents
    of the collection, or fails: a failure of the query, of decoding a
    document or of the cursor makes it return that error, never a partial
    index.  It makes one query and changes nothing else. *)
Theorem index_load_exact_or_failed (env : Env) (w : World) :
  loadAllClaimKeysFromDB env w
  = (match find_error (db_find env) with
     | None => Ok (index_of (w_store w))
     | Some e => Err e
     end, push EvFind w)
  /\ forall k, k ∈ index_of (w_store w) <-> exists d, d ∈ w_store w /\ key_of d = k.
Proof.
  split; [apply loadAllClaimKeysFromDB_result|]. intros k. apply elem_of_index_of.
Qed.

(** X9.  A run keeps the collection free of duplicates: when no two
    documents share the uniqueness tuple before a run, none do after it,
    whatever the store does with the bulk writes. *)
Theorem uniqueness_preserved (Sscan_int64 : string -> option Z) (env : Env) (bulkSize : Z)
    (store : list DBClaim) :
  unique_tuples store ->
  unique_tuples (w_store (runFromTodayDumpOnce Sscan_int64 env bulkSize (boot store)).2).
Proof. apply run_preserves. apply exec_upsert_unique. Qed.

Lemma uniqueness_preserved_witness :
  unique_tuples (w_store (runFromTodayDumpOnce sample_Sscan rejecting_env 2000
                            (boot [sample_claim "bafyA"])).2).
Proof.
  apply (uniqueness_preserved sample_Sscan rejecting_env 2000 [sample_claim "bafyA"]).
  unfold unique_tuples. cbn [map]. apply NoDup_singleton.
Defined.

(** X10.  [insertDiffClaims] writes in batches of the effective batch size:
    every bulk write but the last carries exactly that many models, and the
    last one, if it is not a full batch, carries fewer and at least one. *)
Theorem batches_have_fixed_size (env : Env) (claims : list DBClaim) (keys : gset string)
    (bulkSize : Z) (w : World) :
  exists full tail,
    bulk_outcomes (w_trace (insertDiffClaims env claims keys bulkSize w).2)
    = bulk_outcomes (w_trace w) ++ full ++ tail
    /\ Forall (fun o => batch_len o = effective_bulkSize bulkSize) full
    /\ (tail = [] \/ exists o, tail = [o] /\ 0 < batch_len o < effective_bulkSize bulkSize).
Proof. apply insertDiffClaims_sizes. Qed.

Lemma batches_have_fixed_size_witness :
  map batch_len (bulk_outcomes (w_trace
    (insertDiffClaims stable_env
       [sample_claim "a"; sample_claim "b"; sample_claim "c"; sample_claim "d";
        sample_claim "e"] ∅ 2 (boot [])).2)) = [2; 2; 1]
  /\ exists full tail,
       bulk_outcomes (w_trace
         (insertDiffClaims stable_env
            [sample_claim "a"; sample_claim "b"; sample_claim "c"; sample_claim "d";
             sample_claim "e"] ∅ 2 (boot [])).2)
       = bulk_outcomes (w_trace (boot [])) ++ full ++ tail
       /\ Forall (fun o => batch_len o = effective_bulkSize 2) full
       /\ (tail = [] \/ exists o, tail = [o] /\ 0 < batch_len o < effective_bulkSize 2).
Proof.
  split; [vm_compute; reflexivity|].
  exact (batches_have_fixed_size stable_env _ ∅ 2 (boot [])).
Defined.

(** X11.  A run that returns an error has changed nothing: it has submitted
    no bulk write, the store is as it was, and the dump file has neither
    been deleted nor been asked to be. *)
Theorem failed_run_changes_nothing (Sscan_int64 : string -> option Z) (env : Env)
    (bulkSize : Z) (store : list DBClaim) (e : error) (w' : World) :
  runFromTodayDumpOnce Sscan_int64 env bulkSize (boot store) = (Some e, w') ->
  bulk_outcomes (w_trace w') = [] /\ w_store w' = store
  /\ cleaned (w_trace w') = false /\ w_removed w' = false.
Proof. apply failed_run_facts. Qed.

(** X12.  The value a run returns is decided by the file polls, the chain
    node, the content of the dump and the scan of the collection alone, in
    the order of the steps: it does not depend on the store's handling of
    the bulk writes, on the outcome of deleting the file, on the documents in
    the store, on the batch size or on the scanner of claim ids. *)
Theorem run_result_from_environment (Sscan_int64 : string -> option Z) (env : Env)
    (bulkSize : Z) (store : list DBClaim) :
  (runFromTodayDumpOnce Sscan_int64 env bulkSize (boot store)).1 = run_result env.
Proof. apply run_result_correct. Qed.

Lemma failed_run_changes_nothing_witness :
  bulk_outcomes (w_trace (runFromTodayDumpOnce sample_Sscan node_down_env 2000
                            (boot [sample_claim "bafyA"])).2) = []
  /\ w_store (runFromTodayDumpOnce sample_Sscan node_down_env 2000
                (boot [sample_claim "bafyA"])).2 = [sample_claim "bafyA"]
  /\ cleaned (w_trace (runFromTodayDumpOnce sample_Sscan node_down_env 2000
                         (boot [sample_claim "bafyA"])).2) = false
  /\ w_removed (runFromTodayDumpOnce sample_Sscan node_down_env 2000
                  (boot [sample_claim "bafyA"])).2 = false.
Proof.
  apply (failed_run_changes_nothing sample_Sscan node_down_env 2000 [sample_claim "bafyA"]
           (Wrapped "load active providers" (Wrapped "ChainHead" ErrRPC))).
  vm_compute. reflexivity.
Defined.

(** X13.  Ingestion converges: when the dump file is stable and decodes,
    some provider is active, the scan of the collection succeeds and the
    store applies the bulk writes, the run returns no error, and afterwards
    the store holds, for every record of the dump whose provider is active, a
    document with the record's uniqueness tuple. *)
Theorem ingestion_converges (Sscan_int64 : string -> option Z) (env : Env) (bulkSize : Z)
    (store : list DBClaim) (active : gset Z) (rpc : rpcAllClaims) :
  dump_stable env ->
  loadActiveProviders (api env) = Ok active -> size active <> 0%nat ->
  Decode_rpcAllClaims (fs_content env) = Ok rpc ->
  db_find env = FindOk ->
  writes_succeed env ->
  Forall tuple_fits store ->
  exists w',
    runFromTodayDumpOnce Sscan_int64 env bulkSize (boot store) = (None, w')
    /\ forall k rec,
         Result rpc !! k = Some rec -> filecoinClaim.Provider rec ∈ active ->
         exists d, d ∈ w_store w'
           /\ tuple_of d = (to_int64 (filecoinClaim.Provider rec), filecoinClaim.Data rec,
                            filecoinClaim.Sector rec, filecoinClaim.TermStart rec).
Proof.
  intros Hstable Hact Hsize Hdec Hfind Hok Hfits.
  assert (Hearly : early_exit env = None).
  { rewrite (early_exit_stable env Hstable), Hact. by destruct (decide (size active = 0%nat)). }
  pose proof (run_result_correct Sscan_int64 env bulkSize store) as Hres.
  unfold run_result in Hres. rewrite Hearly, Hdec, Hfind in Hres. cbn [find_error] in Hres.
  destruct (run_spec Sscan_int64 env bulkSize store)
    as (r & w' & outs & Hrun & Hbo & Hne & Hext & Hcase).
  rewrite Hrun in Hres. cbn [fst] in Hres. subst r.
  rewrite Hearly in Hcase.
  destruct Hcase as (_ & active' & Hact' & [((e & He) & _)|(_ & _ & _ & Hdone)]); [done|].
  destruct Hdone as (rpc' & n & n' & Hdec' & Hmod).
  assert (active' = active) by congruence. assert (rpc' = rpc) by congruence.
  subst active' rpc'.
  exists w'. split; [done|]. intros k rec Hk Hin.
  destruct Hext as [(added & Hst & _ & _) Hpres].
  set (c := claim_of_entry Sscan_int64 n k rec).
  assert (Hc : c ∈ filtered Sscan_int64 active n rpc).
  { apply elem_of_filtered. by exists k, rec. }
  rewrite <- (tuple_of_claim_of_entry Sscan_int64 n k rec). fold c.
  destruct (decide (key_of c ∈ index_of store)) as [Hold|Hnew].
  - apply elem_of_index_of in Hold as (d & Hd & Hkey). exists d. split.
    + rewrite Hst. apply elem_of_app. by left.
    + apply key_of_inj; [|by apply (claim_of_entry_fits), (Decode_rpcAllClaims_fits _ _ Hdec k)|done].
      by apply (proj1 (Forall_forall _ _) Hfits).
  - assert (Hm : upsert_model (with_UpdatedAt n' c) ∈ concat (map models_of outs)).
    { rewrite Hmod. apply elem_of_staged. by exists c. }
    apply (Hpres Hok) in Hm. apply present_tuple in Hm.
    apply list_elem_of_In, in_map_iff in Hm as (d & Ht & Hd). exists d.
    split; [by apply list_elem_of_In|]. exact Ht.
Qed.

Lemma ingestion_converges_witness :
  exists w',
    runFromTodayDumpOnce sample_Sscan stable_env 2000 (boot []) = (None, w')
    /\ forall k rec,
         Result sample_rpc !! k = Some rec -> filecoinClaim.Provider rec ∈ ({[ 1001 ]} : gset Z) ->
         exists d, d ∈ w_store w'
           /\ tuple_of d = (to_int64 (filecoinClaim.Provider rec), filecoinClaim.Data rec,
                            filecoinClaim.Sector rec, filecoinClaim.TermStart rec).
Proof.
  apply (ingestion_converges sample_Sscan stable_env 2000 [] {[ 1001 ]} sample_rpc).
  - apply stable_env_stable.
  - vm_compute. reflexivity.
  - vm_compute. discriminate.
  - vm_compute. reflexivity.
  - reflexivity.
  - apply no_fault_writes_succeed.
  - constructor.
Defined.

(** X14.  The dump file is deleted only at the end of a run that ingested
    it: when the file is gone after a run, the run returned no error, it had
    parsed the file, and the deletion it asked for succeeded. *)
Theorem dump_removed_only_after_ingest (Sscan_int64 : string -> option Z) (env : Env)
    (bulkSize : Z) (store : list DBClaim) (r : option error) (w' : World) :
  runFromTodayDumpOnce Sscan_int64 env bulkSize (boot store) = (r, w') ->
  w_removed w' = true ->
  r = None /\ parsed (w_trace w') = true /\ cleaned (w_trace w') = true
  /\ fs_remove env = None.
Proof.
  intros Hrun Hrm.
  destruct (run_spec Sscan_int64 env bulkSize store)
    as (r0 & w & outs & Hrun' & Hbo & _ & _ & Hcase).
  rewrite Hrun in Hrun'. injection Hrun' as <- <-.
  destruct (early_exit env) as [r0|].
  - destruct Hcase as (_ & Hq). apply quiet_run_facts in Hq as (_ & _ & _ & _ & _ & ?).
    congruence.
  - destruct Hcase as (Hp & active & _ & [(_ & _ & _ & _ & ?)|(? & ? & Hrm' & _)]);
      [congruence|].
    split_and!; try done. rewrite Hrm in Hrm'. by destruct (fs_remove env).
Qed.

Lemma dump_removed_only_after_ingest_witness :
  (runFromTodayDumpOnce sample_Sscan stable_env 2000 (boot [])).1 = None
  /\ parsed (w_trace (runFromTodayDumpOnce sample_Sscan stable_env 2000 (boot [])).2) = true
  /\ cleaned (w_trace (runFromTodayDumpOnce sample_Sscan stable_env 2000 (boot [])).2) = true
  /\ fs_remove stable_env = None.
Proof.
  apply (dump_removed_only_after_ingest sample_Sscan stable_env 2000 []
           (runFromTodayDumpOnce sample_Sscan stable_env 2000 (boot [])).1
           (runFromTodayDumpOnce sample_Sscan stable_env 2000 (boot [])).2).
  - vm_compute. reflexivity.
  - vm_compute. reflexivity.
Defined.

(** X15.  A dump file that stops being readable during the stability check
    fails the run, also when the error is that the file does not exist,
    which at the existence check of step 1 would only have skipped the run. *)
Theorem vanished_during_check_is_fatal (Sscan_int64 : string -> option Z) (env : Env)
    (bulkSize : Z) (store : list DBClaim) (prevSize : Z) (k : nat) (e : error) :
  fs_stat env 0 = StatOk prevSize ->
  (k < stableCheckRetries)%nat ->
  (forall j, (j < k)%nat -> changing env j) ->
  fs_stat env (S k) = StatErr e ->
  exists w',
    runFromTodayDumpOnce Sscan_int64 env bulkSize (boot store)
    = (Some (Wrapped "stat dump file during stability check" e), w')
    /\ parsed (w_trace w') = false /\ bulk_outcomes (w_trace w') = []
    /\ w_store w' = store /\ w_removed w' = false.
Proof.
  intros H0 Hk Hch He.
  assert (Hearly : early_exit env
                   = Some (Some (Wrapped "stat dump file during stability check" e))).
  { unfold early_exit. rewrite H0.
    by rewrite (poll_fails env stableCheckRetries 0 prevSize k e H0 Hk Hch He). }
  destruct (run_spec Sscan_int64 env bulkSize store)
    as (r & w' & outs & Hrun & _ & _ & _ & Hcase).
  rewrite Hearly in Hcase. destruct Hcase as (-> & Hq).
  apply quiet_run_facts in Hq as (? & _ & ? & _ & ? & ?). by exists w'.
Qed.

Lemma vanished_during_check_is_fatal_witness :
  exists w',
    runFromTodayDumpOnce sample_Sscan vanishing_env 2000 (boot [])
    = (Some (Wrapped "stat dump file during stability check" ErrNotExist), w')
    /\ parsed (w_trace w') = false /\ bulk_outcomes (w_trace w') = []
    /\ w_store w' = [] /\ w_removed w' = false.
Proof.
  apply (vanished_during_check_is_fatal sample_Sscan vanishing_env 2000 [] 10 0 ErrNotExist).
  - reflexivity.
  - unfold stableCheckRetries. lia.
  - intros j Hj. lia.
  - reflexivity.
Defined.

(** X16.  A run waits a bounded time: it sleeps at most [stableCheckRetries]
    times, and when the dump file is stable it sleeps exactly until the
    first two consecutive polls that agree. *)
Theorem polling_is_bounded (Sscan_int64 : string -> option Z) (env : Env) (bulkSize : Z)
    (store : list DBClaim) :
  (w_sleeps (runFromTodayDumpOnce Sscan_int64 env bulkSize (boot store)).2
   <= stableCheckRetries)%nat
  /\ forall k, (k < stableCheckRetries)%nat -> settled env k ->
       (forall j, (j < k)%nat -> changing env j) ->
       w_sleeps (runFromTodayDumpOnce Sscan_int64 env bulkSize (boot store)).2 = S k.
Proof.
  rewrite run_sleeps. split.
  - destruct (fs_stat env 0) as [prev|e]; [|lia].
    destruct (poll_verdict_bound env stableCheckRetries 0 prev) as [H|[H _]]; [lia|].
    discriminate H.
  - intros k Hk Hset Hch.
    destruct (dump_stable_gate env) as (prev & k' & H0 & Hk' & Hv & Hset').
    { by exists k. }
    assert (H0' : fs_stat env 0 = StatOk prev) by done.
    rewrite H0. rewrite (poll_stable env stableCheckRetries 0 prev k H0' Hk Hset Hch).
    reflexivity.
Qed.

Lemma polling_is_bounded_witness :
  w_sleeps (runFromTodayDumpOnce sample_Sscan settling_env 2000 (boot [])).2 = 2%nat.
Proof.
  apply (proj2 (polling_is_bounded sample_Sscan settling_env 2000 []) 1%nat).
  - unfold stableCheckRetries. lia.
  - exists 20. split; reflexivity.
  - intros j Hj. assert (j = 0%nat) as -> by lia.
    exists 10, 20. split_and!; [reflexivity|reflexivity|lia].
Defined.

(** X17.  One record that does not decode aborts the run with nothing
    ingested: when the dump is an object whose [result] member holds an entry
    that [filecoinClaim] does not decode from, a run past the stability gate
    with active providers returns an error, submits no bulk write, leaves
    the store as it was and keeps the dump file. *)
Theorem undecodable_record_aborts (Sscan_int64 : string -> option Z) (env : Env)
    (bulkSize : Z) (store : list DBClaim) (active : gset Z)
    (members : list (string * json)) (kr : string) (entries : list (string * json))
    (k : string) (v : json) (e : error) :
  dump_stable env ->
  loadActiveProviders (api env) = Ok active -> size active <> 0%nat ->
  fs_content env = Some (JObject members) ->
  (kr, JObject entries) ∈ members -> EqualFold kr "result" = true ->
  (k, v) ∈ entries -> decode_filecoinClaim v = Err e ->
  exists e' w',
    runFromTodayDumpOnce Sscan_int64 env bulkSize (boot store)
    = (Some (Wrapped "decode" e'), w')
    /\ bulk_outcomes (w_trace w') = [] /\ w_store w' = store
    /\ cleaned (w_trace w') = false /\ w_removed w' = false.
Proof.
  intros Hstable Hact Hsize Hcontent Hres Hfold Hentry Hbad.
  destruct (Decode_rpcAllClaims_bad_record members kr entries k v e Hres Hfold Hentry Hbad)
    as (e' & Hdec).
  assert (Hearly : early_exit env = None).
  { rewrite (early_exit_stable env Hstable), Hact. by destruct (decide (size active = 0%nat)). }
  pose proof (run_result_correct Sscan_int64 env bulkSize store) as Hr.
  unfold run_result in Hr. rewrite Hearly, Hcontent, Hdec in Hr.
  destruct (runFromTodayDumpOnce Sscan_int64 env bulkSize (boot store)) as [r w'] eqn:Hrun.
  cbn [fst] in Hr. subst r. exists e', w'. split; [done|].
  by apply (failed_run_facts Sscan_int64 env bulkSize store (Wrapped "decode" e') w').
Qed.

Lemma undecodable_record_aborts_witness :
  exists e' w',
    runFromTodayDumpOnce sample_Sscan broken_env 2000 (boot [])
    = (Some (Wrapped "decode" e'), w')
    /\ bulk_outcomes (w_trace w') = [] /\ w_store w' = []
    /\ cleaned (w_trace w') = false /\ w_removed w' = false.
Proof.
  apply (undecodable_record_aborts sample_Sscan broken_env 2000 [] {[ 1001 ]}
           [("jsonrpc", JString "2.0");
            ("result",
             JObject [("17", sample_record (JNumber "1001") (JString "bafyA") "9");
                      ("18", sample_record (JString "12x") (JString "bafyC") "11")]);
            ("id", JNumber "1")]
           "result"
           [("17", sample_record (JNumber "1001") (JString "bafyA") "9");
            ("18", sample_record (JString "12x") (JString "bafyC") "11")]
           "18" (sample_record (JString "12x") (JString "bafyC") "11") ErrSyntax).
  - exists 0%nat. split; [unfold stableCheckRetries; lia|]. split.
    + exists 10. split; reflexivity.
    + intros j Hj. lia.
  - vm_compute. reflexivity.
  - vm_compute. discriminate.
  - reflexivity.
  - apply list_elem_of_further, list_elem_of_here.
  - reflexivity.
  - apply list_elem_of_further, list_elem_of_here.
  - vm_compute. reflexivity.
Defined.

(** X18.  [loadCfg] ends the process exactly when [FULLNODE_API_URL] or
    [MONGO_URI] is empty or not set; otherwise the configuration carries
    their values, database and collection names that are not empty, and the
    defaults [filstats], [claims], 2000 and 1 for the variables that are not
    set. *)
Theorem loadCfg_defaults (Getenv : string -> string) (Sscan_int : string -> option Z) :
  match loadCfg Getenv Sscan_int with
  | None => Getenv "FULLNODE_API_URL" = "" \/ Getenv "MONGO_URI" = ""
  | Some c =>
      Getenv "FULLNODE_API_URL" <> "" /\ Getenv "MONGO_URI" <> ""
      /\ LotusURL c = Getenv "FULLNODE_API_URL" /\ MongoURI c = Getenv "MONGO_URI"
      /\ MongoDB c <> "" /\ MongoColl c <> ""
      /\ (Getenv "MONGO_DB" = "" -> MongoDB c = "filstats")
      /\ (Getenv "MONGO_CLAIMS_COLL" = "" -> MongoColl c = "claims")
      /\ (Getenv "CLAIMS_BULK_SIZE" = "" -> BulkSize c = 2000)
      /\ (Getenv "RUN_EVERY_HOURS" = "" -> RunEveryHours c = 1)
  end.
Proof. apply loadCfg_spec. Qed.

Lemma loadCfg_defaults_witness :
  exists c, loadCfg sample_Getenv sample_Sscan = Some c
    /\ MongoDB c = "filstats" /\ MongoColl c = "claims"
    /\ BulkSize c = 2000 /\ RunEveryHours c = 1.
Proof.
  pose proof (loadCfg_defaults sample_Getenv sample_Sscan) as H.
  destruct (loadCfg sample_Getenv sample_Sscan) as [c|] eqn:Hc.
  - exists c. destruct H as (_ & _ & _ & _ & _ & _ & H1 & H2 & H3 & H4).
    split; [reflexivity|]. split_and!; [apply H1|apply H2|apply H3|apply H4]; reflexivity.
  - exfalso. destruct H as [H|H]; discriminate H.
Defined.

(** X19.  Whatever the configuration holds, the batch size that
    [insertDiffClaims] works with and the interval of [main] are at least 1:
    a batch size that is not positive behaves as 2000, an interval that is
    not positive as one hour; and up to 2562047 hours the period of the
    ticker is that many hours, a positive number of nanoseconds. *)
Theorem effective_sizes_positive (env : Env) (claims : list DBClaim) (keys : gset string)
    (w : World) (c : cfg) :
  1 <= effective_bulkSize (BulkSize c)
  /\ insertDiffClaims env claims keys (BulkSize c) w
     = insertDiffClaims env claims keys (effective_bulkSize (BulkSize c)) w
  /\ 1 <= interval_hours c
  /\ (RunEveryHours c <= 0 -> interval_hours c = 1)
  /\ (RunEveryHours c <= 2562047 ->
      ticker_period c = interval_hours c * 3600000000000 /\ 0 < ticker_period c).
Proof.
  split_and!.
  - apply effective_bulkSize_pos.
  - pose proof (effective_bulkSize_pos (BulkSize c)) as Hpos.
    unfold insertDiffClaims. fold (effective_bulkSize (BulkSize c)).
    replace (effective_bulkSize (BulkSize c) <=? 0) with false
      by (symmetry; apply Z.leb_gt; lia).
    reflexivity.
  - apply interval_hours_pos.
  - intros H. unfold interval_hours. by rewrite (proj2 (Z.leb_le _ _) H).
  - apply ticker_period_exact.
Qed.

(** X20.  Across the runs of [main], the first one and one per tick until
    the context is done, the store only grows and stays free of duplicate
    tuples, and every tick gets its run whatever the earlier runs returned. *)
Theorem scheduled_runs_grow_the_store (Sscan_int64 : string -> option Z) (envs : nat -> Env)
    (bulkSize : Z) (signals : list Signal) (store : list DBClaim) :
  (exists added, (main_runs Sscan_int64 envs bulkSize signals store).1 = store ++ added)
  /\ (unique_tuples store ->
      unique_tuples (main_runs Sscan_int64 envs bulkSize signals store).1)
  /\ length (main_runs Sscan_int64 envs bulkSize signals store).2
     = S (ticks_served signals).
Proof.
  split_and!.
  - apply (main_runs_preserves Sscan_int64 envs bulkSize
             (fun coll => exists added, coll = store ++ added)).
    + intros c coll. apply exec_upsert_extends.
    + exists []. by rewrite app_nil_r.
  - apply main_runs_preserves. apply exec_upsert_unique.
  - unfold main_runs. destruct (runFromTodayDumpOnce _ _ _ _) as [r w].
    by rewrite scheduler_loop_results.
Qed.

Lemma scheduled_runs_grow_the_store_witness :
  length (main_runs sample_Sscan (fun _ => stable_env) 2000 [Tick; Tick; Done; Tick] []).1
  = 2%nat
  /\ unique_tuples (main_runs sample_Sscan (fun _ => stable_env) 2000 [Tick; Tick; Done; Tick] []).1
  /\ length (main_runs sample_Sscan (fun _ => stable_env) 2000 [Tick; Tick; Done; Tick] []).2
     = 3%nat.
Proof.
  split; [vm_compute; reflexivity|].
  destruct (scheduled_runs_grow_the_store sample_Sscan (fun _ => stable_env) 2000
              [Tick; Tick; Done; Tick] []) as (_ & H & ->).
  split; [|reflexivity]. apply H. constructor.
Defined.

(** X21.  Epochs and times are inverse: converting an epoch that is not
    negative to a time and back gives the epoch, as long as the time fits an
    [int64] of seconds. *)
Theorem epoch_time_roundtrip (e : Z) :
  0 <= e <= (maxInt64 - model.filecoinGenesisUnix) / 30 ->
  model.TimeToEpoch64 (model.EpochToTime64 e) = e
  /\ model.unix (model.EpochToTime64 e) = e * 30 + model.filecoinGenesisUnix.
Proof.
  intros He. split; [by apply epoch_roundtrip64|]. by rewrite EpochToTime64_unix.
Qed.

Lemma epoch_time_roundtrip_witness :
  model.TimeToEpoch64 (model.EpochToTime64 4000000) = 4000000
  /\ model.unix (model.EpochToTime64 4000000) = 4000000 * 30 + model.filecoinGenesisUnix.
Proof.
  apply (epoch_time_roundtrip 4000000). split; [lia|]. by vm_compute.
Defined.

(** X22.  The epoch of a time at or after genesis is the epoch the time
    falls into: the epoch is not negative, it starts at or before the time,
    and the next one starts after it. *)
Theorem time_to_epoch_floor (t : model.Time) :
  model.filecoinGenesisUnix <= model.unix t <= maxInt64 ->
  0 <= model.TimeToEpoch64 t
  /\ model.unix (model.EpochToTime64 (model.TimeToEpoch64 t)) <= model.unix t
     < model.unix (model.EpochToTime64 (model.TimeToEpoch64 t)) + 30.
Proof. apply time_epoch_floor64. Qed.

Lemma time_to_epoch_floor_witness :
  0 <= model.TimeToEpoch64 (model.time_Unix 1700000017)
  /\ model.unix (model.EpochToTime64 (model.TimeToEpoch64 (model.time_Unix 1700000017)))
     <= model.unix (model.time_Unix 1700000017)
     < model.unix (model.EpochToTime64 (model.TimeToEpoch64 (model.time_Unix 1700000017))) + 30.
Proof.
  apply (time_to_epoch_floor (model.time_Unix 1700000017)).
  split; by vm_compute.
Defined.

(** X23.  Outside the range: a negative epoch becomes the zero time, whose
    epoch is -1, so it does not come back; and a time less than one epoch
    before genesis is given epoch 0, the division rounding toward zero. *)
Theorem epochs_outside_range (e : Z) (t : model.Time) :
  (e < 0 -> model.EpochToTime64 e = model.zeroTime
            /\ model.TimeToEpoch64 (model.EpochToTime64 e) = -1)
  /\ (model.filecoinGenesisUnix - 30 < model.unix t < model.filecoinGenesisUnix ->
      model.TimeToEpoch64 t = 0).
Proof.
  split.
  - intros He. split; [|by apply negative_epoch_collapses].
    unfold model.EpochToTime64. by rewrite (proj2 (Z.ltb_lt _ _) He).
  - apply just_before_genesis.
Qed.

Lemma epochs_outside_range_witness :
  (model.EpochToTime64 (-3) = model.zeroTime
   /\ model.TimeToEpoch64 (model.EpochToTime64 (-3)) = -1)
  /\ model.TimeToEpoch64 (model.time_Unix 1598306399) = 0.
Proof.
  split.
  - apply (proj1 (epochs_outside_range (-3) model.zeroTime)). lia.
  - apply (proj2 (epochs_outside_range 0 (model.time_Unix 1598306399))).
    split; by vm_compute.
Defined.

(** X24.  The [int32] conversion agrees with the [int64] one up to epoch
    18305908; at the next epoch its arithmetic wraps around and the time it
    returns lies before the Unix epoch. *)
Theorem int32_conversion_agrees (e : Z) :
  (0 <= e <= model.maxEpoch32 -> model.EpochToTime e = model.EpochToTime64 e)
  /\ model.unix (model.EpochToTime (model.maxEpoch32 + 1)) < 0.
Proof. split; [apply EpochToTime_agrees|by vm_compute]. Qed.

Lemma int32_conversion_agrees_witness :
  model.EpochToTime 4000000 = model.EpochToTime64 4000000.
Proof.
  apply (proj1 (int32_conversion_agrees 4000000)). unfold model.maxEpoch32. lia.
Defined.

(** X25.  [parsePage] returns a page of at least 1 and a page size between 1
    and [maxPageSize], whatever the two query strings hold. *)
Theorem parsePage_within_bounds (pStr psStr : string) :
  1 <= (stats.parsePage pStr psStr).1 <= maxInt64
  /\ 1 <= (stats.parsePage pStr psStr).2 <= stats.maxPageSize.
Proof. apply parsePage_bounds. Qed.

(** X26.  The window of ranks that [handleMiners] asks for starts at a rank
    that is not negative and holds exactly one page, for every page number
    up to the largest [int] divided by [maxPageSize]. *)
Theorem page_window_exact (page pageSize : Z) :
  1 <= page <= maxInt64 / stats.maxPageSize -> 1 <= pageSize <= stats.maxPageSize ->
  (stats.window page pageSize).1 = (page - 1) * pageSize
  /\ (stats.window page pageSize).2 - (stats.window page pageSize).1 + 1 = pageSize
  /\ 0 <= (stats.window page pageSize).1.
Proof. apply window_exact. Qed.

Lemma page_window_exact_witness :
  (stats.window 3 15).1 = (3 - 1) * 15
  /\ (stats.window 3 15).2 - (stats.window 3 15).1 + 1 = 15
  /\ 0 <= (stats.window 3 15).1.
Proof.
  apply (page_window_exact 3 15).
  - split; [lia|]. by vm_compute.
  - unfold stats.maxPageSize. lia.
Defined.

(** ** Properties of the task queue *)

Section TaskQueue.

Variable ResolveProvider : string -> result resolver.MinerInfo.t.
Variable ResolveMultiaddrsBytes :
  list (list Byte.byte) -> resolver.IPInfo.t * option requesterror.t.
Variable peer_Decode : string -> option string.
Variable MultiaddrsBytesToStringArraySkippingError : list (list Byte.byte) -> list string.
Variable GetDuration : Z -> Z.
Variable clock : nat -> Z.
Variable range_order : nat -> list (task.ModuleName * gmap string string).

Abbreviation AddTasks_step :=
  (util.AddTasks_step ResolveProvider ResolveMultiaddrsBytes peer_Decode
     MultiaddrsBytesToStringArraySkippingError GetDuration clock range_order).
Abbreviation AddTasks :=
  (util.AddTasks ResolveProvider ResolveMultiaddrsBytes peer_Decode
     MultiaddrsBytesToStringArraySkippingError GetDuration clock range_order).
Abbreviation reachable := (reachable ResolveProvider ResolveMultiaddrsBytes peer_Decode).

(** X27.  Every task that [AddTasks] returns is an HTTP piece retrieval of
    the requester for one of the documents, whose provider is reachable: it
    names the document's miner, data CID and client, and its metadata is what
    [moduleMetadataMap] holds for the HTTP module with the client added. *)
Theorem queued_tasks_are_http_piece_retrievals (requester : string)
    (ipInfo : resolver.IPInfo.t) (documents : list DBClaim) (c : util.Calls) :
  Forall (fun t =>
            task.Task.Module_ t = task.HTTP
            /\ task.Task.Requester t = requester
            /\ exists d, d ∈ documents /\ reachable d
                 /\ task_claim t = document_claim d
                 /\ task.Task.Metadata t
                    = <[ "client" := ClientAddr d ]> (module_metadata task.HTTP))
         (AddTasks requester ipInfo documents c).1.1.
Proof.
  apply (AddTasks_invariant ResolveProvider ResolveMultiaddrsBytes peer_Decode
           MultiaddrsBytesToStringArraySkippingError GetDuration clock range_order
           (fun seen tasks _ =>
              Forall (fun t =>
                task.Task.Module_ t = task.HTTP
                /\ task.Task.Requester t = requester
                /\ exists d, d ∈ seen /\ reachable d
                     /\ task_claim t = document_claim d
                     /\ task.Task.Metadata t
                        = <[ "client" := ClientAddr d ]> (module_metadata task.HTTP))
              tasks)).
  - constructor.
  - intros seen document tasks results c' IH.
    assert (Hold : Forall (fun t =>
                task.Task.Module_ t = task.HTTP
                /\ task.Task.Requester t = requester
                /\ exists d, d ∈ seen ++ [document] /\ reachable d
                     /\ task_claim t = document_claim d
                     /\ task.Task.Metadata t
                        = <[ "client" := ClientAddr d ]> (module_metadata task.HTTP))
              tasks).
    { eapply Forall_impl; [exact IH|]. cbn beta.
      intros t (H1 & H2 & d & Hd & Hrest). split_and!; try done.
      exists d. split; [|exact Hrest]. apply elem_of_app. by left. }
    destruct (AddTasks_step_cases ResolveProvider ResolveMultiaddrsBytes peer_Decode
                MultiaddrsBytesToStringArraySkippingError GetDuration clock range_order
                requester ipInfo tasks results c' document)
      as [[_ ->]|[(_ & _ & new & code & msg & -> & _)|(p & l & Hp & Hl & Hd & ->)]];
      cbn [fst snd]; try exact Hold.
    apply Forall_app. split; [exact Hold|]. constructor; [|constructor].
    split_and!; try reflexivity.
    exists document. split_and!.
    + apply elem_of_app. right. by left.
    + by exists p, l.
    + reflexivity.
    + reflexivity.
Qed.

(** X28.  The results that [AddTasks] returns come in one per module for
    every document that is reported: whatever order the map is ranged over
    in, each module has the same number of results, the results are three
    times that many, tasks and reported documents together are no more than
    the documents; and every result is a failure of the requester for a
    document whose provider is not reachable, with the metadata of its module
    and the document's client. *)
Theorem error_results_cover_every_module (requester : string)
    (ipInfo : resolver.IPInfo.t) (documents : list DBClaim) (c : util.Calls) :
  (forall n, range_order n ≡ₚ util.moduleMetadataMap) ->
  exists failed : nat,
    (forall m, length (results_of m (AddTasks requester ipInfo documents c).1.2) = failed)
    /\ length (AddTasks requester ipInfo documents c).1.2 = (3 * failed)%nat
    /\ (length (AddTasks requester ipInfo documents c).1.1 + failed <= length documents)%nat
    /\ Forall (fun r =>
                 failure r
                 /\ exists d, d ∈ documents /\ ~ reachable d
                      /\ reports requester d util.moduleMetadataMap r
                      /\ task.Task.Metadata (task.Result.Task_ r)
                         = <[ "client" := ClientAddr d ]> (module_metadata (result_module r)))
              (AddTasks requester ipInfo documents c).1.2.
Proof.
  intros Hperm.
  apply (AddTasks_invariant ResolveProvider ResolveMultiaddrsBytes peer_Decode
           MultiaddrsBytesToStringArraySkippingError GetDuration clock range_order
           (fun seen tasks results =>
              exists failed : nat,
                (forall m, length (results_of m results) = failed)
                /\ length results = (3 * failed)%nat
                /\ (length tasks + failed <= length seen)%nat
                /\ Forall (fun r =>
                     failure r
                     /\ exists d, d ∈ seen /\ ~ reachable d
                          /\ reports requester d util.moduleMetadataMap r
                          /\ task.Task.Metadata (task.Result.Task_ r)
                             = <[ "client" := ClientAddr d ]>
                                 (module_metadata (result_module r)))
                   results)).
  - exists 0%nat. split_and!; [done|reflexivity|cbn; lia|constructor].
  - intros seen document tasks results c' (failed & Hcount & Hlen & Hle & Hall).
    assert (Hold : Forall (fun r =>
                     failure r
                     /\ exists d, d ∈ seen ++ [document] /\ ~ reachable d
                          /\ reports requester d util.moduleMetadataMap r
                          /\ task.Task.Metadata (task.Result.Task_ r)
                             = <[ "client" := ClientAddr d ]>
                                 (module_metadata (result_module r)))
                   results).
    { eapply Forall_impl; [exact Hall|]. cbn beta.
      intros r (H1 & d & Hd & Hrest). split; [done|].
      exists d. split; [|exact Hrest]. apply elem_of_app. by left. }
    destruct (AddTasks_step_cases ResolveProvider ResolveMultiaddrsBytes peer_Decode
                MultiaddrsBytesToStringArraySkippingError GetDuration clock range_order
                requester ipInfo tasks results c' document)
      as [[_ ->]|[(Hun & Hres & new & code & msg & -> & Hmod & Hnew)|(p & l & Hp & Hl & Hd & ->)]];
      cbn [fst snd].
    + exists failed. rewrite length_app. cbn [length]. split_and!; try done. lia.
    + exists (S failed). split_and!.
      * intros m. rewrite results_of_app, length_app, Hcount.
        rewrite (results_of_length m new _ Hmod (Hperm _)). lia.
      * rewrite length_app, Hlen.
        assert (length new = 3%nat) as ->; [|lia].
        rewrite <- (length_map result_module), Hmod, length_map, (Hperm _). reflexivity.
      * rewrite length_app. cbn [length]. lia.
      * apply Forall_app. split; [exact Hold|].
        eapply Forall_impl; [exact Hnew|]. cbn beta.
        intros r ((Hreq & Hid & Hcid & (entry & Hin & Hm & Hmeta) & Hfail) & _ & _).
        rewrite (Hperm _) in Hin.
        split; [exact Hfail|]. exists document. split_and!.
        -- apply elem_of_app. right. by left.
        -- exact Hun.
        -- unfold reports. split_and!; try done. by exists entry.
        -- rewrite Hmeta, <- Hm. by rewrite (moduleMetadataMap_lookup entry Hin).
    + exists failed. rewrite !length_app. cbn [length]. split_and!; try done. lia.
Qed.

(** X29.  The tasks follow the documents: read as miner, data CID and
    client, the tasks are a sublist of the documents, in their order.  When
    every provider is reachable there is one task per document and no
    result; when no provider resolves there is neither a task nor a result,
    the documents being dropped without a trace. *)
Theorem tasks_follow_documents (requester : string)
    (ipInfo : resolver.IPInfo.t) (documents : list DBClaim) (c : util.Calls) :
  sublist (map task_claim (AddTasks requester ipInfo documents c).1.1)
          (map document_claim documents)
  /\ (Forall reachable documents ->
      map task_claim (AddTasks requester ipInfo documents c).1.1
      = map document_claim documents
      /\ (AddTasks requester ipInfo documents c).1.2 = [])
  /\ (Forall (fun d => is_ok (ResolveProvider (MinerAddr d)) = false) documents ->
      (AddTasks requester ipInfo documents c).1.1 = []
      /\ (AddTasks requester ipInfo documents c).1.2 = []).
Proof.
  apply (AddTasks_invariant ResolveProvider ResolveMultiaddrsBytes peer_Decode
           MultiaddrsBytesToStringArraySkippingError GetDuration clock range_order
           (fun seen tasks results =>
              sublist (map task_claim tasks) (map document_claim seen)
              /\ (Forall reachable seen ->
                  map task_claim tasks = map document_claim seen /\ results = [])
              /\ (Forall (fun d => is_ok (ResolveProvider (MinerAddr d)) = false) seen ->
                  tasks = [] /\ results = []))).
  - split_and!; [constructor|done|done].
  - intros seen document tasks results c' (Hsub & Hall & Hnone).
    destruct (AddTasks_step_cases ResolveProvider ResolveMultiaddrsBytes peer_Decode
                MultiaddrsBytesToStringArraySkippingError GetDuration clock range_order
                requester ipInfo tasks results c' document)
      as [[Hun ->]|[(Hun & Hres & new & code & msg & -> & Hmod & Hnew)|(p & l & Hp & Hl & Hd & ->)]];
      cbn [fst snd]; rewrite !map_app; cbn [map].
    + split_and!.
      * by apply sublist_inserts_r.
      * intros [_ H]%Forall_app. exfalso. apply Hun. by inversion H.
      * intros [H _]%Forall_app. by apply Hnone.
    + split_and!.
      * by apply sublist_inserts_r.
      * intros [_ H]%Forall_app. exfalso. apply Hun. by inversion H.
      * intros [_ H]%Forall_app. exfalso. inversion H as [|? ? Hbad _]; subst.
        by rewrite Hres in Hbad.
    + split_and!.
      * apply sublist_app; [exact Hsub|]. reflexivity.
      * intros [H _]%Forall_app. destruct (Hall H) as [-> ->]. done.
      * intros [_ H]%Forall_app. exfalso. inversion H as [|? ? Hbad _]; subst.
        by rewrite Hp in Hbad.
Qed.

End TaskQueue.

Lemma error_results_cover_every_module_witness :
  length (sample_AddTasks sample_documents).1.2 = 6%nat
  /\ exists failed : nat,
       (forall m, length (results_of m (sample_AddTasks sample_documents).1.2) = failed)
       /\ length (sample_AddTasks sample_documents).1.2 = (3 * failed)%nat
       /\ (length (sample_AddTasks sample_documents).1.1 + failed
           <= length sample_documents)%nat
       /\ Forall (fun r =>
                    failure r
                    /\ exists d, d ∈ sample_documents
                         /\ ~ reachable sample_ResolveProvider sample_ResolveMultiaddrsBytes
                                sample_peer_Decode d
                         /\ reports "worker" d util.moduleMetadataMap r
                         /\ task.Task.Metadata (task.Result.Task_ r)
                            = <[ "client" := ClientAddr d ]>
                                (module_metadata (result_module r)))
                 (sample_AddTasks sample_documents).1.2.
Proof.
  split; [vm_compute; reflexivity|].
  apply (error_results_cover_every_module sample_ResolveProvider
           sample_ResolveMultiaddrsBytes sample_peer_Decode (fun _ => []) (fun d => d)
           (fun n => 1700000000 + Z.of_nat n) (fun _ => rev util.moduleMetadataMap)
           "worker" sample_location sample_documents {| util.nows := 0; util.ranges := 0 |}).
  intros n. symmetry. apply Permutation_rev.
Defined.

Lemma tasks_follow_documents_witness :
  map task_claim
    (sample_AddTasks [sample_document "f01001" "bafyA"; sample_document "f01001" "bafyB"]).1.1
  = [("f01001", "bafyA", Some "f077"); ("f01001", "bafyB", Some "f077")]
  /\ (sample_AddTasks [sample_document "f01001" "bafyA"; sample_document "f01001" "bafyB"]).1.2
     = [].
Proof.
  apply (proj1 (proj2 (tasks_follow_documents sample_ResolveProvider
           sample_ResolveMultiaddrsBytes sample_peer_Decode (fun _ => []) (fun d => d)
           (fun n => 1700000000 + Z.of_nat n) (fun _ => rev util.moduleMetadataMap)
           "worker" sample_location
           [sample_document "f01001" "bafyA"; sample_document "f01001" "bafyB"]
           {| util.nows := 0; util.ranges := 0 |}))).
  repeat constructor;
    exists {| resolver.MinerInfo.PeerId := "12D3KooWA"; resolver.MinerInfo.Multiaddrs := [[]] |},
           sample_location; split_and!; reflexivity.
Defined.
